(** * halifax-meetings: a shallow embedding of the ingestion engine

    The development follows the Go sources [main.go], [client.go],
    [meetings.go] and [content.go].

    Conventions of the embedding.
    - Go strings are byte strings ([String.string]).
    - [time.Time] is the instant in nanoseconds since the Unix epoch; every
      location is taken to be UTC, so calendar arithmetic ([AddDate],
      formatting) is done on the UTC civil date.
    - [time.Duration] is a signed 64-bit count of nanoseconds; [Sub]
      saturates as the Go library does.
    - The SQLite store is a record of tables, each table the list of its rows
      in insertion order.  Statements are given the meaning SQLite gives
      them (conflict clauses, correlated sub-queries, rowid allocation).
      Driver and I/O faults of the store and of the local file system
      (temporary files and directories) are outside the model: a statement
      always runs, a temporary file is always created.  The rate limiter
      only delays and is left out.
    - The network, the external PDF tools, the clock and the random source
      are oracles; every request or tool invocation is recorded in a log of
      effects, which lets theorems speak about what was {e not} invoked. *)

From Stdlib Require Import ZArith List String Ascii Bool Lia Arith DecimalString
  Sorted.
Import ListNotations.

Local Open Scope string_scope.
Local Open Scope list_scope.
Local Open Scope Z_scope.

(** ** Errors *)

(** A Go [error] is represented by its message. *)
Definition error := string.

Inductive result (A : Type) : Type :=
| Ok (a : A)
| Err (e : error).
Arguments Ok {A} a.
Arguments Err {A} e.

Definition bind {A B} (r : result A) (k : A -> result B) : result B :=
  match r with
  | Ok a => k a
  | Err e => Err e
  end.

Declare Scope result_scope.
Delimit Scope result_scope with result.
Notation "x <- r ;; k" := (bind r (fun x => k))
  (at level 61, r at next level, right associativity) : result_scope.

(** [fmt.Errorf("prefix: %w", err)] *)
Definition wrap (prefix : string) (e : error) : error :=
  (prefix ++ ": " ++ e)%string.

(** ** The parts of package [strings] the sources use *)
Module GoStrings.

Fixpoint HasPrefix (s p : string) : bool :=
  match p, s with
  | EmptyString, _ => true
  | String c p', String d s' => Ascii.eqb c d && HasPrefix s' p'
  | String _ _, EmptyString => false
  end.

Fixpoint drop (n : nat) (s : string) : string :=
  match n, s with
  | O, _ => s
  | S n', String _ s' => drop n' s'
  | S _, EmptyString => EmptyString
  end.

Definition TrimPrefix (s p : string) : string :=
  if HasPrefix s p then drop (String.length p) s else s.

Definition HasSuffix (s p : string) : bool :=
  (String.length p <=? String.length s)%nat
  && String.eqb (drop (String.length s - String.length p) s) p.

Definition TrimSuffix (s p : string) : string :=
  if HasSuffix s p
  then String.substring 0 (String.length s - String.length p) s
  else s.

Fixpoint Contains (s sub : string) : bool :=
  HasPrefix s sub
  || match s with
     | EmptyString => false
     | String _ s' => Contains s' sub
     end.

(** [strings.Cut(s, sep)] for a one-byte separator. *)
Fixpoint Cut (s : string) (sep : ascii) : string * string * bool :=
  match s with
  | EmptyString => (EmptyString, EmptyString, false)
  | String c s' =>
      if Ascii.eqb c sep then (EmptyString, s', true)
      else let '(b, a, found) := Cut s' sep in
           if found then (String c b, a, true)
           else (String c s', EmptyString, false)
  end.

(** [strings.SplitSeq(s, sep)] for a one-byte separator, as the list of
    the pieces it yields. *)
Fixpoint Split (s : string) (sep : ascii) : list string :=
  match s with
  | EmptyString => [EmptyString]
  | String c s' =>
      if Ascii.eqb c sep then EmptyString :: Split s' sep
      else match Split s' sep with
           | [] => [String c EmptyString]
           | p :: ps => String c p :: ps
           end
  end.

(** Byte-wise lexical order, the order of [sort.Strings]. *)
Fixpoint leb (a b : string) : bool :=
  match a, b with
  | EmptyString, _ => true
  | String _ _, EmptyString => false
  | String c a', String d b' =>
      if (nat_of_ascii c <? nat_of_ascii d)%nat then true
      else if (nat_of_ascii d <? nat_of_ascii c)%nat then false
      else leb a' b'
  end.

Fixpoint insert_sorted (x : string) (l : list string) : list string :=
  match l with
  | [] => [x]
  | y :: l' => if leb x y then x :: l else y :: insert_sorted x l'
  end.

Definition Sort (l : list string) : list string :=
  fold_right insert_sorted [] l.

End GoStrings.

(** ** Package [time] *)
Module GoTime.

Definition Time := Z.
Definition Duration := Z.

Definition Nanosecond : Duration := 1.
Definition Millisecond : Duration := 1000000.
Definition Second : Duration := 1000000000.
Definition Minute : Duration := 60 * Second.
Definition Hour : Duration := 60 * Minute.
Definition Day : Z := 24 * Hour.

Definition minDuration : Duration := - 2 ^ 63.
Definition maxDuration : Duration := 2 ^ 63 - 1.

(** Days from 1970-01-01 to the civil date [y]-[m]-[d] of the proleptic
    Gregorian calendar.  [d] may lie outside the month: the count is
    linear in [d], which is how [time.Date] normalises days. *)
Definition days_from_civil (y m d : Z) : Z :=
  let y' := if m <=? 2 then y - 1 else y in
  let era := y' / 400 in
  let yoe := y' - era * 400 in
  let mp := if m <=? 2 then m + 9 else m - 3 in
  let doy := (153 * mp + 2) / 5 + d - 1 in
  let doe := yoe * 365 + yoe / 4 - yoe / 100 + doy in
  era * 146097 + doe - 719468.

(** Year of era, month and day for a day [doe] of a 400-year era. *)
Definition civil_of_doe (doe : Z) : Z * Z * Z :=
  let yoe := (doe - doe / 1460 + doe / 36524 - doe / 146096) / 365 in
  let doy := doe - (365 * yoe + yoe / 4 - yoe / 100) in
  let mp := (5 * doy + 2) / 153 in
  let d := doy - (153 * mp + 2) / 5 + 1 in
  let m := if mp <? 10 then mp + 3 else mp - 9 in
  (yoe, m, d).

Definition civil_from_days (z : Z) : Z * Z * Z :=
  let z' := z + 719468 in
  let era := z' / 146097 in
  let doe := z' - era * 146097 in
  let '(yoe, m, d) := civil_of_doe doe in
  let y := yoe + era * 400 in
  ((if m <=? 2 then y + 1 else y), m, d).

(** [time.Date(year, month, day, 0, 0, 0, 0, time.UTC)] plus the
    nanoseconds [tod] since midnight: months are normalised into the
    year, days overflow into the following months. *)
Definition Date (y m d tod : Z) : Time :=
  let y' := y + (m - 1) / 12 in
  let m' := (m - 1) mod 12 + 1 in
  days_from_civil y' m' d * Day + tod.

(** [t.AddDate(years, months, days)] *)
Definition AddDate (t : Time) (years months days : Z) : Time :=
  let '(y, m, d) := civil_from_days (t / Day) in
  Date (y + years) (m + months) (d + days) (t mod Day).

Definition Before (t u : Time) : bool := t <? u.

(** The zero [time.Time]: January 1, year 1, 00:00:00 UTC. *)
Definition zeroTime : Time := -62135596800 * Second.

Definition IsZero (t : Time) : bool := t =? zeroTime.

(** [t.Sub(u)]: the difference, saturated to the range of [Duration]. *)
Definition Sub (t u : Time) : Duration :=
  let d := t - u in
  if d <? minDuration then minDuration
  else if maxDuration <? d then maxDuration
  else d.

Definition digit (n : Z) : ascii := ascii_of_nat (48 + Z.to_nat (n mod 10)).

Definition pad2 (n : Z) : string :=
  String (digit (n / 10)) (String (digit n) EmptyString).

Definition pad4 (n : Z) : string :=
  String (digit (n / 1000)) (String (digit (n / 100)) (pad2 n)).

(** [t.Format("2006-01-02")], for the years 0000 to 9999. *)
Definition FormatDate (t : Time) : string :=
  let '(y, m, d) := civil_from_days (t / Day) in
  (pad4 y ++ "-" ++ pad2 m ++ "-" ++ pad2 d)%string.

End GoTime.

(** ** The store ([initDB], [main.go]) *)
Module Store.
Import GoTime.

(** A [datetime] column holds the text [timeValue.Value] produces with the
    layout ["2006-01-02 15:04:05.999"] in UTC.  For the years 0000 to 9999
    that text corresponds one to one, and in the same order, to the
    instant truncated to a whole millisecond, which is what the model
    stores. *)
Definition datetime := Z.

Definition timeValue_Value (v : Time) : option datetime :=
  if IsZero v then None else Some (Millisecond * (v / Millisecond)).

Definition timeValue_Scan (src : option datetime) : Time :=
  match src with
  | None => zeroTime
  | Some t => t
  end.

Record meeting_agenda_content_row := {
  mac_rowid : Z;
  mac_id : string;
  mac_text : string;
  mac_html : string }.

Record meeting_agenda_content_search_row := {
  macs_rowid : Z;
  macs_text : string }.

Record meetings_row := {
  mt_id : string;
  mt_type : string;
  mt_date : string;
  mt_schedule_note : string;
  mt_last_observed : option datetime;
  mt_updated : option datetime;
  mt_agenda_url : string;
  mt_minutes_url : string;
  mt_video_url : string;
  mt_agenda_content_id : string }.

Record meeting_versions_row := {
  mv_meeting_id : string;
  mv_observed : option datetime;
  mv_schedule_note : string;
  mv_agenda_url : string;
  mv_minutes_url : string;
  mv_video_url : string;
  mv_agenda_content_id : string }.

Record external_content_row := {
  ec_rowid : Z;
  ec_id : string;
  ec_title : string;
  ec_text : string }.

Record external_content_search_row := {
  ecs_rowid : Z;
  ecs_title : string;
  ecs_text : string }.

Record external_content_urls_row := {
  ecu_url : string;
  ecu_added : option datetime;
  ecu_fetched : option datetime;
  ecu_content_type : option string;
  ecu_size : option Z;
  ecu_last_modified : option datetime;
  ecu_etag : option string;
  ecu_error : option string;
  ecu_external_content_id : option string }.

Record meeting_external_content_urls_row := {
  mecu_meeting_id : string;
  mecu_agenda_content_id : string;
  mecu_external_content_url : string }.

Record DB := {
  meeting_agenda_content : list meeting_agenda_content_row;
  meeting_agenda_content_search : list meeting_agenda_content_search_row;
  meetings : list meetings_row;
  meeting_versions : list meeting_versions_row;
  external_content : list external_content_row;
  external_content_search : list external_content_search_row;
  external_content_urls : list external_content_urls_row;
  meeting_external_content_urls : list meeting_external_content_urls_row }.

(** The store right after [initDB] on a new file. *)
Definition emptyDB : DB :=
  {| meeting_agenda_content := [];
     meeting_agenda_content_search := [];
     meetings := [];
     meeting_versions := [];
     external_content := [];
     external_content_search := [];
     external_content_urls := [];
     meeting_external_content_urls := [] |}.

(** The rowid SQLite gives a new row: one more than the largest in use. *)
Definition next_rowid {A} (rowid : A -> Z) (rows : list A) : Z :=
  1 + fold_right (fun r acc => Z.max (rowid r) acc) 0 rows.

(** The aggregate [max] over a [datetime] column; NULLs are skipped and
    the result is NULL when no value is left. *)
Definition max_datetime (a b : option datetime) : option datetime :=
  match a, b with
  | Some x, Some y => Some (Z.max x y)
  | Some x, None => Some x
  | None, _ => b
  end.

Definition sql_max (col : list (option datetime)) : option datetime :=
  fold_right max_datetime None col.

(** [(select rowid from T where id=?)]: NULL when there is no such row. *)
Definition rowid_of {A} (rowid : A -> Z) (id : A -> string) (rows : list A)
  (k : string) : option Z :=
  option_map rowid (find (fun r => String.eqb (id r) k) rows).

(** Number of rows of a table that satisfy a condition. *)
Definition count {A} (p : A -> bool) (rows : list A) : nat :=
  List.length (filter p rows).

End Store.

(** ** The data of [client.go] *)
Module Client.
Import GoTime.

Record MeetingURL := {
  Name : string;
  URL : string }.

Record MeetingEvent := {
  Date : Time;
  Note : string }.

Record Meeting := {
  ID : string;
  Type_ : string;
  Event : MeetingEvent;
  URLs : list MeetingURL }.

(** [func (m Meeting) URL(name string) string] *)
Definition Meeting_URL (m : Meeting) (name : string) : string :=
  match find (fun u => String.eqb (Name u) name) (URLs m) with
  | Some u => URL u
  | None => ""
  end.

Record MeetingAgenda := {
  ContentHTML : string;
  ContentText : string;
  ContentURLs : list string }.

(** What the program does to the outside world, in the order it does it. *)
Inductive Effect :=
| ListCall (token : string)
| HTTPRequest (method url : string)
| Exec (cmd : string) (args : list string).

(** The interface [client] of [processMeetings]: [List] and the embedded
    [agendaer].  Both methods report the effects they cause. *)
Record client := {
  List : string -> list Effect * result (list Meeting * string);
  Agenda : string -> list Effect * result MeetingAgenda }.

End Client.

(** ** [meetings.go] *)
Module Meetings.
Import GoTime Store Client.

(** The line feed [fmt.Fprintln] appends. *)
Definition newline : string := String (ascii_of_nat 10) EmptyString.

(** [select last_observed from meetings where id=?]: [None] stands for
    [sql.ErrNoRows], [Some] holds the column of the first row found. *)
Definition select_last_observed (db : DB) (id : string)
  : option (option datetime) :=
  option_map mt_last_observed
    (find (fun r => String.eqb (mt_id r) id) (meetings db)).

(** [rand.N(n)] for [n > 0]: a value of [[0, n)] drawn from the random
    source, whose raw output is [src]. *)
Definition rand_N (src n : Z) : Z := src mod n.

(** The local variable [threshold] of [isMeetingFresh]. *)
Definition threshold (date now : Time) (src : Z) : Duration :=
  if Before date (AddDate now 0 0 (-7)) then
    let jitter := 2 * Hour in
    24 * Hour + (rand_N src jitter - jitter / 2)
  else Hour - 2 * Minute.

(** [isMeetingFresh]; [now] is what [time.Now()] returns and [src] what
    the random source yields. *)
Definition isMeetingFresh (db : DB) (m : Meeting) (now : Time) (src : Z)
  : bool :=
  match select_last_observed db (ID m) with
  | None => false
  | Some col =>
      let lastObserved := timeValue_Scan col in
      Sub now lastObserved <? threshold (Date (Event m)) now src
  end.

(** *** The statements of [saveMeeting] *)

(** [cq]: insert into meeting_agenda_content ... on conflict (id) do
    nothing.  Returns the store and the number of rows affected. *)
Definition exec_cq (tx : DB) (id text html : string) : DB * Z :=
  if existsb (fun r => String.eqb (mac_id r) id) (meeting_agenda_content tx)
  then (tx, 0)
  else
    let row := {| mac_rowid := next_rowid mac_rowid (meeting_agenda_content tx);
                  mac_id := id; mac_text := text; mac_html := html |} in
    ({| meeting_agenda_content := meeting_agenda_content tx ++ [row];
        meeting_agenda_content_search := meeting_agenda_content_search tx;
        meetings := meetings tx;
        meeting_versions := meeting_versions tx;
        external_content := external_content tx;
        external_content_search := external_content_search tx;
        external_content_urls := external_content_urls tx;
        meeting_external_content_urls := meeting_external_content_urls tx |},
     1).

(** [sq]: insert into meeting_agenda_content_search (rowid, text) values
    ((select rowid from meeting_agenda_content where id=?), ?).  A NULL
    rowid makes the index allocate one. *)
Definition exec_sq (tx : DB) (id text : string) : DB :=
  let rowid :=
    match rowid_of mac_rowid mac_id (meeting_agenda_content tx) id with
    | Some r => r
    | None => next_rowid macs_rowid (meeting_agenda_content_search tx)
    end in
  {| meeting_agenda_content := meeting_agenda_content tx;
     meeting_agenda_content_search :=
       meeting_agenda_content_search tx
       ++ [{| macs_rowid := rowid; macs_text := text |}];
     meetings := meetings tx;
     meeting_versions := meeting_versions tx;
     external_content := external_content tx;
     external_content_search := external_content_search tx;
     external_content_urls := external_content_urls tx;
     meeting_external_content_urls := meeting_external_content_urls tx |}.

(** Lines 156 to 170 of [saveMeeting]: [cq], and [sq] when [cq] affected
    a row. *)
Definition insert_agenda_content (tx : DB) (contentID : string)
  (agenda : MeetingAgenda) : DB :=
  let '(tx, ra) := exec_cq tx contentID (ContentText agenda)
                     (ContentHTML agenda) in
  if 0 <? ra then exec_sq tx contentID (ContentText agenda) else tx.

Definition with_meetings (tx : DB) (rows : list meetings_row) : DB :=
  {| meeting_agenda_content := meeting_agenda_content tx;
     meeting_agenda_content_search := meeting_agenda_content_search tx;
     meetings := rows;
     meeting_versions := meeting_versions tx;
     external_content := external_content tx;
     external_content_search := external_content_search tx;
     external_content_urls := external_content_urls tx;
     meeting_external_content_urls := meeting_external_content_urls tx |}.

(** [mq]: insert into meetings ... ON CONFLICT (id) DO UPDATE SET every
    column but [last_observed] and [updated]. *)
Definition exec_mq (tx : DB)
  (id type date note agendaURL minutesURL videoURL contentID : string) : DB :=
  let excluded (last_observed updated : option datetime) :=
    {| mt_id := id; mt_type := type; mt_date := date;
       mt_schedule_note := note;
       mt_last_observed := last_observed; mt_updated := updated;
       mt_agenda_url := agendaURL; mt_minutes_url := minutesURL;
       mt_video_url := videoURL; mt_agenda_content_id := contentID |} in
  if existsb (fun r => String.eqb (mt_id r) id) (meetings tx)
  then with_meetings tx
         (map (fun r => if String.eqb (mt_id r) id
                        then excluded (mt_last_observed r) (mt_updated r)
                        else r) (meetings tx))
  else with_meetings tx (meetings tx ++ [excluded None None]).

(** The columns of the unique constraint of [meeting_versions]. *)
Definition same_version (a b : meeting_versions_row) : bool :=
  String.eqb (mv_meeting_id a) (mv_meeting_id b)
  && String.eqb (mv_schedule_note a) (mv_schedule_note b)
  && String.eqb (mv_agenda_url a) (mv_agenda_url b)
  && String.eqb (mv_minutes_url a) (mv_minutes_url b)
  && String.eqb (mv_video_url a) (mv_video_url b)
  && String.eqb (mv_agenda_content_id a) (mv_agenda_content_id b).

(** [vq]: insert into meeting_versions ... on conflict do nothing. *)
Definition exec_vq (tx : DB) (row : meeting_versions_row) : DB :=
  if existsb (same_version row) (meeting_versions tx) then tx
  else
    {| meeting_agenda_content := meeting_agenda_content tx;
       meeting_agenda_content_search := meeting_agenda_content_search tx;
       meetings := meetings tx;
       meeting_versions := meeting_versions tx ++ [row];
       external_content := external_content tx;
       external_content_search := external_content_search tx;
       external_content_urls := external_content_urls tx;
       meeting_external_content_urls := meeting_external_content_urls tx |}.

(** [(select max(observed) from meeting_versions where meeting_id=id)],
    [id] being the column of the enclosing [meetings] row. *)
Definition max_observed (tx : DB) (id : string) : option datetime :=
  sql_max (map mv_observed
             (filter (fun v => String.eqb (mv_meeting_id v) id)
                (meeting_versions tx))).

(** [lq]: update meetings set updated=(select max(observed) ...),
    last_observed=? where id=? *)
Definition exec_lq (tx : DB) (observed : option datetime) (id : string) : DB :=
  with_meetings tx
    (map (fun r =>
            if String.eqb (mt_id r) id then
              {| mt_id := mt_id r; mt_type := mt_type r; mt_date := mt_date r;
                 mt_schedule_note := mt_schedule_note r;
                 mt_last_observed := observed;
                 mt_updated := max_observed tx (mt_id r);
                 mt_agenda_url := mt_agenda_url r;
                 mt_minutes_url := mt_minutes_url r;
                 mt_video_url := mt_video_url r;
                 mt_agenda_content_id := mt_agenda_content_id r |}
            else r) (meetings tx)).

(** insert into external_content_urls (url, added) values (?, ?) on
    conflict do nothing *)
Definition insert_external_content_url (tx : DB) (u : string)
  (added : option datetime) : DB :=
  if existsb (fun r => String.eqb (ecu_url r) u) (external_content_urls tx)
  then tx
  else
    {| meeting_agenda_content := meeting_agenda_content tx;
       meeting_agenda_content_search := meeting_agenda_content_search tx;
       meetings := meetings tx;
       meeting_versions := meeting_versions tx;
       external_content := external_content tx;
       external_content_search := external_content_search tx;
       external_content_urls :=
         external_content_urls tx
         ++ [{| ecu_url := u; ecu_added := added; ecu_fetched := None;
                ecu_content_type := None; ecu_size := None;
                ecu_last_modified := None; ecu_etag := None;
                ecu_error := None; ecu_external_content_id := None |}];
       meeting_external_content_urls := meeting_external_content_urls tx |}.

Definition same_link (a b : meeting_external_content_urls_row) : bool :=
  String.eqb (mecu_meeting_id a) (mecu_meeting_id b)
  && String.eqb (mecu_agenda_content_id a) (mecu_agenda_content_id b)
  && String.eqb (mecu_external_content_url a) (mecu_external_content_url b).

(** insert into meeting_external_content_urls ... on conflict do nothing *)
Definition insert_meeting_external_content_url (tx : DB)
  (row : meeting_external_content_urls_row) : DB :=
  if existsb (same_link row) (meeting_external_content_urls tx) then tx
  else
    {| meeting_agenda_content := meeting_agenda_content tx;
       meeting_agenda_content_search := meeting_agenda_content_search tx;
       meetings := meetings tx;
       meeting_versions := meeting_versions tx;
       external_content := external_content tx;
       external_content_search := external_content_search tx;
       external_content_urls := external_content_urls tx;
       meeting_external_content_urls :=
         meeting_external_content_urls tx ++ [row] |}.

Definition saveMeetingURLs (tx : DB) (observed : Time)
  (meetingID agendaContentID : string) (agenda : MeetingAgenda) : DB :=
  fold_left
    (fun tx u =>
       let tx := insert_external_content_url tx u (timeValue_Value observed) in
       insert_meeting_external_content_url tx
         {| mecu_meeting_id := meetingID;
            mecu_agenda_content_id := agendaContentID;
            mecu_external_content_url := u |})
    (ContentURLs agenda) tx.

Section WithEnvironment.

(** [base62.EncodeToString] of the SHA-224 digest of the bytes written
    to the hash. *)
Variable sum224_base62 : string -> string.

(** The successive readings of the clock and of the random source. *)
Variable clock : nat -> Time.
Variable entropy : nat -> Z.

(** The content ID [saveMeeting] computes: [Fprintln] hashes the HTML
    followed by a line feed. *)
Definition agendaContentID (agenda : MeetingAgenda) : string :=
  sum224_base62 (ContentHTML agenda ++ newline)%string.

(** The row [vq] offers to [meeting_versions]. *)
Definition version_row (m : Meeting) (agenda : MeetingAgenda)
  (observed : Time) : meeting_versions_row :=
  {| mv_meeting_id := ID m;
     mv_observed := timeValue_Value observed;
     mv_schedule_note := Note (Event m);
     mv_agenda_url := Meeting_URL m "agenda";
     mv_minutes_url := Meeting_URL m "minutes";
     mv_video_url := Meeting_URL m "video";
     mv_agenda_content_id := agendaContentID agenda |}.

(** [saveMeeting]: the statements run in one transaction, which is
    committed at the end; the only failure precedes [db.Begin]. *)
Definition saveMeeting (db : DB) (m : Meeting) (agenda : MeetingAgenda)
  (observed : Time) : result DB :=
  let contentID := agendaContentID agenda in
  let agendaURL := Meeting_URL m "agenda" in
  if String.eqb agendaURL "" then Err "no agenda URL"
  else
    let tx := db in
    let tx := insert_agenda_content tx contentID agenda in
    let tx := exec_mq tx (ID m) (Type_ m) (FormatDate (Date (Event m)))
                (Note (Event m)) agendaURL (Meeting_URL m "minutes")
                (Meeting_URL m "video") contentID in
    let tx := exec_vq tx (version_row m agenda observed) in
    let tx := exec_lq tx (timeValue_Value observed) (ID m) in
    let tx := saveMeetingURLs tx observed (ID m) contentID agenda in
    Ok tx.

(** [processMeeting]: the effects of the agenda fetch, the store
    afterwards and the error, if any; [now] is the reading of the
    clock passed to [saveMeeting]. *)
Definition processMeeting (db : DB) (a : client) (m : Meeting) (now : Time)
  : list Effect * DB * result unit :=
  let agendaURL := Meeting_URL m "agenda" in
  if String.eqb agendaURL "" then ([], db, Err "no agenda URL")
  else
    let '(effs, r) := Agenda a agendaURL in
    match r with
    | Err e => (effs, db, Err (wrap "fetching agenda" e))
    | Ok agenda =>
        match saveMeeting db m agenda now with
        | Err e => (effs, db, Err (wrap "saving" e))
        | Ok db' => (effs, db', Ok tt)
        end
    end.

(** [select max(last_observed) from meetings], scanned into a
    [time.Time]. *)
Definition select_max_last_observed (db : DB) : Time :=
  timeValue_Scan (sql_max (map mt_last_observed (meetings db))).

(** The variable [cutoff] of [processMeetings]. *)
Definition cutoff (db : DB) (now : Time) : Time :=
  let maxObserved := select_max_last_observed db in
  if negb (IsZero maxObserved) then AddDate maxObserved 0 (-8) 0
  else AddDate now 0 (-1) 0.

(** An element of [needMeetings]. *)
Definition meetingAgendaer : Type := Meeting * client.

(** The loop over the meetings of one page (lines 58 to 68).  The
    boolean tells whether [break outer] was taken; [k] counts the
    readings of the clock and of the random source. *)
Fixpoint scanMeetings (db : DB) (cutoff : Time) (c : client)
  (meetings : list Meeting) (k : nat) (needMeetings : list meetingAgendaer)
  : bool * nat * list meetingAgendaer :=
  match meetings with
  | [] => (false, k, needMeetings)
  | m :: rest =>
      if Before (Date (Event m)) cutoff then (true, k, needMeetings)
      else if isMeetingFresh db m (clock k) (entropy k)
      then scanMeetings db cutoff c rest (S k) needMeetings
      else scanMeetings db cutoff c rest (S k) (needMeetings ++ [(m, c)])
  end.

(** The pagination loop of one source (the function literal of lines 49
    to 77).  [None] means the fuel ran out, that is, more than [fuel]
    pages were requested. *)
Fixpoint listSource (fuel : nat) (db : DB) (cutoff : Time) (c : client)
  (token : string) (k : nat) (needMeetings : list meetingAgendaer)
  : option (list Effect * result (nat * list meetingAgendaer)) :=
  match fuel with
  | O => None
  | S fuel' =>
      let '(effs, r) := List c token in
      let effs := ListCall token :: effs in
      match r with
      | Err e => Some (effs, Err (wrap "listing meetings" e))
      | Ok (meetings, nextToken) =>
          let '(brk, k', need') :=
            scanMeetings db cutoff c meetings k needMeetings in
          if brk then Some (effs, Ok (k', need'))
          else if String.eqb nextToken "" then Some (effs, Ok (k', need'))
          else
            match listSource fuel' db cutoff c nextToken k' need' with
            | None => None
            | Some (effs', r') => Some (effs ++ effs', r')
            end
      end
  end.

(** The loop over the clients (lines 48 to 81). *)
Fixpoint listSources (fuel : nat) (db : DB) (cutoff : Time)
  (clients : list client) (k : nat) (needMeetings : list meetingAgendaer)
  : option (list Effect * result (nat * list meetingAgendaer)) :=
  match clients with
  | [] => Some ([], Ok (k, needMeetings))
  | c :: rest =>
      match listSource fuel db cutoff c "" k needMeetings with
      | None => None
      | Some (effs, Err e) => Some (effs, Err (wrap "listing meetings" e))
      | Some (effs, Ok (k', need')) =>
          match listSources fuel db cutoff rest k' need' with
          | None => None
          | Some (effs', r) => Some (effs ++ effs', r)
          end
      end
  end.

(** The loop over [needMeetings] (lines 85 to 93): one meeting after
    the other, stopping at the first failure. *)
Fixpoint processQueue (db : DB) (needMeetings : list meetingAgendaer)
  (k : nat) : list Effect * DB * result unit :=
  match needMeetings with
  | [] => ([], db, Ok tt)
  | (m, a) :: rest =>
      match processMeeting db a m (clock k) with
      | (effs, db', Err e) =>
          (effs, db',
           Err ("processing meeting date=" ++ FormatDate (Date (Event m))
                ++ " type=" ++ Type_ m ++ ": " ++ e)%string)
      | (effs, db', Ok _) =>
          let '(effs', db'', r) := processQueue db' rest (S k) in
          (effs ++ effs', db'', r)
      end
  end.

(** [processMeetings] over the two clients; the clock is first read at
    [k]. *)
Definition processMeetings (fuel : nat) (halifaxClient escribeClient : client)
  (db : DB) (k : nat) : option (list Effect * DB * result unit) :=
  let cutoff := cutoff db (clock k) in
  match listSources fuel db cutoff [halifaxClient; escribeClient] (S k) []
  with
  | None => None
  | Some (effs, Err e) => Some (effs, db, Err e)
  | Some (effs, Ok (k', needMeetings)) =>
      let '(effs', db', r) := processQueue db needMeetings k' in
      Some (effs ++ effs', db', r)
  end.

End WithEnvironment.

End Meetings.

(** ** HTTP exchanges *)
Module Net.

(** What the program reads of an [http.Response]: the status, the three
    headers it consults (empty when absent) and the outcome of reading
    the body to its end. *)
Record Response := {
  StatusCode : Z;
  ContentType : string;
  LastModified : string;
  ETag : string;
  Body : result string }.

(** The outcome of building a request and having [http.DefaultClient]
    do it. *)
Inductive RoundTrip :=
| NewRequestError (e : error)
| DoError (e : error)
| Responded (resp : Response).

(** [%v] of an integer. *)
Definition itoa (n : Z) : string :=
  DecimalString.NilZero.string_of_int (Z.to_int n).

(** [%q] of a string that needs no escaping. *)
Definition quote (s : string) : string :=
  (String (ascii_of_nat 34) s ++ String (ascii_of_nat 34) EmptyString)%string.

End Net.

(** ** [EscribeClient.List] ([client.go]) *)
Module Escribe.
Import GoTime GoStrings Client Net.

(** The fields of the decoded response that [List] reads. *)
Record DocumentLink := {
  dl_Format : string;
  dl_Title : string;
  dl_Type : string;
  dl_URL : string }.

Record CalendarMeeting := {
  dm_ID : string;
  dm_MeetingDocumentLink : list DocumentLink;
  dm_MeetingType : string;
  dm_StartDate : string }.

Section WithNetwork.

(** The answer to the POST of a calendar range to a URL. *)
Variable post : string -> Time -> Time -> RoundTrip.

(** [json.Unmarshal] into [respBody], giving the field [D]. *)
Variable json_Unmarshal : string -> result (list CalendarMeeting).

(** [time.Parse("2006/01/02", _)] *)
Variable time_Parse : string -> result Time.

(** [base.ResolveReference(rel).String()] for the parsed reference, or
    [None] when [url.Parse] rejects it. *)
Variable url_resolve : string -> string -> option string.

Definition u : string := "https://pub-halifax.escribemeetings.com".

(** The closure [abs] of [List]. *)
Definition abs (su : string) : string :=
  if String.eqb su "" then ""
  else match url_resolve u su with
       | None => ""
       | Some s => s
       end.

(** The loop over [dm.MeetingDocumentLink] (lines 359 to 373). *)
Fixpoint documentLinks (links : list DocumentLink) (urls : list MeetingURL)
  (hasAgenda : bool) : list MeetingURL * bool :=
  match links with
  | [] => (urls, hasAgenda)
  | dl :: rest =>
      if String.eqb (dl_Type dl) "Agenda" && String.eqb (dl_Format dl) "HTML"
      then documentLinks rest
             (urls ++ [{| Name := "agenda"; URL := abs (dl_URL dl) |}]) true
      else if String.eqb (dl_Type dl) "AdditionalDocuments"
              && String.eqb (dl_Format dl) ".pdf"
              && Contains (dl_Title dl) "Minutes"
      then documentLinks rest
             (urls ++ [{| Name := "minutes"; URL := abs (dl_URL dl) |}])
             hasAgenda
      else if String.eqb (dl_Type dl) "Video"
      then documentLinks rest
             (urls ++ [{| Name := "video"; URL := abs (dl_URL dl) |}])
             hasAgenda
      else documentLinks rest urls hasAgenda
  end.

(** The loop over [respBody.D] (lines 335 to 381). *)
Fixpoint calendarMeetings (d : list CalendarMeeting) (meetings : list Meeting)
  : result (list Meeting) :=
  match d with
  | [] => Ok meetings
  | dm :: rest =>
      let '(startDate, _, ok) := Cut (dm_StartDate dm) " "%char in
      if negb ok
      then Err ("bad start date " ++ quote (dm_StartDate dm))%string
      else
        match time_Parse startDate with
        | Err e => Err ("bad date " ++ quote startDate ++ ": " ++ e)%string
        | Ok date =>
            let meetingType :=
              if String.eqb (dm_MeetingType dm) "Halifax Regional Council"
              then "Regional Council" else dm_MeetingType dm in
            let '(urls, hasAgenda) :=
              documentLinks (dm_MeetingDocumentLink dm) [] false in
            let m := {| ID := dm_ID dm; Type_ := meetingType;
                        Event := {| Date := date; Note := "" |};
                        URLs := urls |} in
            if negb hasAgenda && Contains (Type_ m) "Continuation"
            then calendarMeetings rest meetings
            else calendarMeetings rest (meetings ++ [m])
        end
  end.

(** [EscribeClient.List]; [now] is the reading of the clock that sets
    the calendar range of the request. *)
Definition EscribeClient_List (now : Time) (token : string)
  : list Effect * result (list Meeting * string) :=
  if negb (String.eqb token "")
  then ([], Err "escribe does not support pagination")
  else
    let url := (u ++ "/MeetingsCalendarView.aspx/GetAllMeetings")%string in
    match post url (AddDate now (-1) 0 0) (AddDate now 1 0 0) with
    | NewRequestError e => ([], Err (wrap "new request" e))
    | DoError e => ([HTTPRequest "POST" url], Err (wrap "get" e))
    | Responded resp =>
        let effs := [HTTPRequest "POST" url] in
        match Body resp with
        | Err e => (effs, Err (wrap "read body" e))
        | Ok b =>
            if negb (StatusCode resp =? 200)
            then (effs, Err ("bad status " ++ itoa (StatusCode resp)
                             ++ ": " ++ b)%string)
            else
              match json_Unmarshal b with
              | Err e => (effs, Err (wrap "unmarshal" e))
              | Ok d =>
                  match calendarMeetings d [] with
                  | Err e => (effs, Err e)
                  | Ok meetings => (effs, Ok (meetings, ""))
                  end
              end
        end
    end.

(** [EscribeClient] as a [client]; the method [Agenda] is the one
    given. *)
Definition EscribeClient (now : Time)
  (agenda : string -> list Effect * result MeetingAgenda) : client :=
  {| List := EscribeClient_List now; Agenda := agenda |}.

End WithNetwork.

End Escribe.

(** ** [content.go] *)
Module Content.
Import GoTime GoStrings Store Client Net.

Record content := {
  c_id : string;
  c_title : string;
  c_text : string }.

(** An [*os.File]: its path and the bytes it holds. *)
Record File := {
  f_Name : string;
  f_bytes : string }.

Record urlContent := {
  uc_f : File;
  uc_contentType : string;
  uc_contentID : string;
  uc_size : Z;
  uc_lastModified : Time;
  uc_etag : string }.

Record pdf := {
  pdf_title : string;
  pdf_text : string }.

(** A directory: the files in it, by base name. *)
Definition Dir := list (string * string).

Definition WriteFile (d : Dir) (name data : string) : Dir :=
  filter (fun e => negb (String.eqb (fst e) name)) d ++ [(name, data)].

Definition ReadFile (d : Dir) (name : string) : result string :=
  match find (fun e => String.eqb (fst e) name) d with
  | Some e => Ok (snd e)
  | None => Err "no such file or directory"
  end.

(** [filepath.Glob(filepath.Join(td, prefix + "*" + suffix))]: the
    matching names, sorted. *)
Definition Glob (d : Dir) (prefix suffix : string) : list string :=
  Sort (filter (fun n => HasPrefix n prefix && HasSuffix n suffix
                         && (String.length prefix + String.length suffix
                             <=? String.length n)%nat)
          (map fst d)).

Definition Join (dir name : string) : string := (dir ++ "/" ++ name)%string.

Definition with_external_content_urls (db : DB)
  (rows : list external_content_urls_row) : DB :=
  {| meeting_agenda_content := meeting_agenda_content db;
     meeting_agenda_content_search := meeting_agenda_content_search db;
     meetings := meetings db;
     meeting_versions := meeting_versions db;
     external_content := external_content db;
     external_content_search := external_content_search db;
     external_content_urls := rows;
     meeting_external_content_urls := meeting_external_content_urls db |}.

(** [unfetchedURLs]: select url from external_content_urls where fetched
    is null limit 500 *)
Definition unfetchedURLs (db : DB) : list string :=
  firstn 500
    (map ecu_url
       (filter (fun r => match ecu_fetched r with None => true | Some _ => false end)
          (external_content_urls db))).

(** The closure [saveErr] of [processURL]: update external_content_urls
    set fetched=?, error=? where url=? *)
Definition saveErr (db : DB) (now : Time) (u : string) (ferr : error) : DB :=
  with_external_content_urls db
    (map (fun r =>
            if String.eqb (ecu_url r) u then
              {| ecu_url := ecu_url r; ecu_added := ecu_added r;
                 ecu_fetched := timeValue_Value now;
                 ecu_content_type := ecu_content_type r;
                 ecu_size := ecu_size r;
                 ecu_last_modified := ecu_last_modified r;
                 ecu_etag := ecu_etag r;
                 ecu_error := Some ferr;
                 ecu_external_content_id := ecu_external_content_id r |}
            else r) (external_content_urls db)).

(** [contentExists]: select 1 from external_content where id=? *)
Definition contentExists (db : DB) (id : string) : bool * option error :=
  (existsb (fun r => String.eqb (ec_id r) id) (external_content db), None).

(** [saveContent]: insert into external_content ... on conflict do
    nothing, then insert into external_content_search with the rowid of
    the content row. *)
Definition saveContent (tx : DB) (c : content) : DB :=
  let rows :=
    if existsb (fun r => String.eqb (ec_id r) (c_id c)) (external_content tx)
    then external_content tx
    else external_content tx
         ++ [{| ec_rowid := next_rowid ec_rowid (external_content tx);
                ec_id := c_id c; ec_title := c_title c; ec_text := c_text c |}] in
  let rowid :=
    match rowid_of ec_rowid ec_id rows (c_id c) with
    | Some r => r
    | None => next_rowid ecs_rowid (external_content_search tx)
    end in
  {| meeting_agenda_content := meeting_agenda_content tx;
     meeting_agenda_content_search := meeting_agenda_content_search tx;
     meetings := meetings tx;
     meeting_versions := meeting_versions tx;
     external_content := rows;
     external_content_search :=
       external_content_search tx
       ++ [{| ecs_rowid := rowid; ecs_title := c_title c;
              ecs_text := c_text c |}];
     external_content_urls := external_content_urls tx;
     meeting_external_content_urls := meeting_external_content_urls tx |}.

(** The last statement of [processURL]: update external_content_urls set
    fetched=?, content_type=?, size=?, last_modified=?, etag=?, error=?,
    external_content_id=? where url=? *)
Definition update_fetched (tx : DB) (now : Time) (uc : urlContent)
  (id u : string) : DB :=
  let etag := if String.eqb (uc_etag uc) "" then None else Some (uc_etag uc) in
  with_external_content_urls tx
    (map (fun r =>
            if String.eqb (ecu_url r) u then
              {| ecu_url := ecu_url r; ecu_added := ecu_added r;
                 ecu_fetched := timeValue_Value now;
                 ecu_content_type := Some (uc_contentType uc);
                 ecu_size := Some (uc_size uc);
                 ecu_last_modified := timeValue_Value (uc_lastModified uc);
                 ecu_etag := etag;
                 ecu_error := None;
                 ecu_external_content_id := Some id |}
            else r) (external_content_urls tx)).

Section WithEnvironment.

(** [base62.EncodeToString] of the SHA-224 digest of the bytes. *)
Variable sum224_base62 : string -> string.

(** [strings.TrimSpace] *)
Variable TrimSpace : string -> string.

(** [time.Parse(time.RFC1123, _)] *)
Variable parseRFC1123 : string -> result Time.

(** The answer to a GET of a URL. *)
Variable get : string -> RoundTrip.

(** The paths [os.CreateTemp] and [os.MkdirTemp] hand out. *)
Variable tempFile : string.
Variable tempDir : string.

(** The external tools, as functions of the input file's bytes:
    standard output of [pdfinfo] and [pdftotext], the page images
    [pdftoppm] writes (base name and bytes), the text [tesseract]
    recognises in an image. *)
Variable pdfinfo : string -> result string.
Variable pdftotext : string -> result string.
Variable pdftoppm : string -> result (list (string * string)).
Variable tesseract : string -> result string.

(** [exec.LookPath]: the path of the command, or the error. *)
Variable LookPath : string -> result string.

Variable clock : nat -> Time.

Definition fetchURLContent (u : string) : list Effect * result urlContent :=
  match get u with
  | NewRequestError e => ([], Err (wrap "new request" e))
  | DoError e => ([HTTPRequest "GET" u], Err (wrap "fetch" e))
  | Responded resp =>
      let effs := [HTTPRequest "GET" u] in
      if negb (StatusCode resp =? 200)
      then (effs, Err ("fetch: bad status " ++ itoa (StatusCode resp))%string)
      else
        match Body resp with
        | Err e => (effs, Err (wrap "fetch" e))
        | Ok body =>
            let f := {| f_Name := tempFile; f_bytes := body |} in
            let size := Z.of_nat (String.length body) in
            let contentID := sum224_base62 body in
            let lastModified :=
              if negb (String.eqb (LastModified resp) "") then
                match parseRFC1123 (LastModified resp) with
                | Ok t => t
                | Err _ => zeroTime
                end
              else zeroTime in
            (effs,
             Ok {| uc_f := f; uc_contentType := ContentType resp;
                   uc_contentID := contentID; uc_size := size;
                   uc_lastModified := lastModified;
                   uc_etag := ETag resp |})
        end
  end.

Fixpoint checkCommands (cmds : list string) : result unit :=
  match cmds with
  | [] => Ok tt
  | cmd :: rest =>
      match LookPath cmd with
      | Ok _ => checkCommands rest
      | Err e =>
          Err ("missing " ++ cmd ++ ", need to install poppler-utils and tesseract-ocr on ubuntu or poppler and tesseract via homebrew: " ++ e)%string
      end
  end.

Definition checkPDF : result unit :=
  checkCommands ["pdfinfo"; "pdftotext"; "pdftoppm"; "tesseract"].

(** The title [processPDF] derives from the output of [pdfinfo]. *)
Definition pdfTitle (out : string) : string :=
  let title :=
    match find (fun l => HasPrefix l "Title:") (Split out (ascii_of_nat 10)) with
    | Some l => l
    | None => ""
    end in
  let title := TrimSpace (TrimPrefix title "Title:") in
  TrimSpace (TrimSuffix title "| Halifax.ca").

(** The loop running [tesseract] on each page image (lines 302 to
    306). *)
Fixpoint ocrPages (td : Dir) (pageFns : list string)
  : list Effect * result Dir :=
  match pageFns with
  | [] => ([], Ok td)
  | pageFn :: rest =>
      let eff := Exec "tesseract" [Join tempDir pageFn; Join tempDir pageFn] in
      match bind (ReadFile td pageFn) tesseract with
      | Err e => ([eff], Err (wrap "tesseract" e))
      | Ok txt =>
          let '(effs, r) := ocrPages (WriteFile td (pageFn ++ ".txt")%string txt) rest in
          (eff :: effs, r)
      end
  end.

(** The loop reading the recognised texts (lines 313 to 320). *)
Fixpoint readTexts (td : Dir) (textFns : list string) (text : string)
  : result string :=
  match textFns with
  | [] => Ok text
  | textFn :: rest =>
      match ReadFile td textFn with
      | Err e => Err (wrap "read text" e)
      | Ok b => readTexts td rest (text ++ b ++ Meetings.newline)%string
      end
  end.

(** [processPDF], with Go's pair of results: on an error the [pdf] is
    the zero value. *)
Definition processPDF (f : File) : list Effect * (pdf * option error) :=
  let zero := {| pdf_title := ""; pdf_text := "" |} in
  let e_info := Exec "pdfinfo" [f_Name f] in
  match pdfinfo (f_bytes f) with
  | Err e => ([e_info], (zero, Some (wrap "pdfinfo" e)))
  | Ok out =>
      let title := pdfTitle out in
      let e_text := Exec "pdftotext" [f_Name f; "-"] in
      match pdftotext (f_bytes f) with
      | Err e => ([e_info; e_text], (zero, Some (wrap "pdftotext" e)))
      | Ok out =>
          let text := TrimSpace out in
          if negb (String.eqb text "")
          then ([e_info; e_text],
                ({| pdf_title := title; pdf_text := text |}, None))
          else
            let e_ppm :=
              Exec "pdftoppm" ["-png"; f_Name f; Join tempDir "page"] in
            match pdftoppm (f_bytes f) with
            | Err e => ([e_info; e_text; e_ppm],
                        (zero, Some (wrap "pdftoppm" e)))
            | Ok images =>
                let td := fold_left (fun d e => WriteFile d (fst e) (snd e))
                            images [] in
                let pageFns := Glob td "page" ".png" in
                match ocrPages td pageFns with
                | (effs, Err e) =>
                    ([e_info; e_text; e_ppm] ++ effs, (zero, Some e))
                | (effs, Ok td) =>
                    let textFns := Glob td "page" ".txt" in
                    match readTexts td textFns "" with
                    | Err e =>
                        ([e_info; e_text; e_ppm] ++ effs, (zero, Some e))
                    | Ok text =>
                        ([e_info; e_text; e_ppm] ++ effs,
                         ({| pdf_title := title; pdf_text := TrimSpace text |},
                          None))
                    end
                end
            end
      end
  end.

(** [processURL]; [now] is the reading of the clock at its start.
    [finish] is the transaction of lines 129 to 154. *)
Definition processURL (db : DB) (now : Time) (u : string)
  : list Effect * DB * result unit :=
  let '(effs, fetched) := fetchURLContent u in
  match fetched with
  | Err ferr => (effs, saveErr db now u ferr, Ok tt)
  | Ok uc =>
      let c := {| c_id := uc_contentID uc; c_title := ""; c_text := "" |} in
      let '(exists_, err) := contentExists db (c_id c) in
      match err with
      | Some e =>
          (effs, db,
           Err ("checking content ID " ++ c_id c ++ " existence: " ++ e)%string)
      | None =>
          let finish (effs : list Effect) (c : content) :=
            let tx := db in
            let tx := if negb exists_ then saveContent tx c else tx in
            let tx := update_fetched tx now uc (c_id c) u in
            (effs, tx, Ok tt) in
          if negb exists_ && String.eqb (uc_contentType uc) "application/pdf"
          then
            let '(effs', (p, perr)) := processPDF (uc_f uc) in
            (* the source tests [err], the result of [contentExists],
               and not [perr] *)
            match err with
            | Some _ =>
                (effs ++ effs',
                 saveErr db now u (match perr with Some e => e | None => "" end),
                 Ok tt)
            | None =>
                finish (effs ++ effs')
                  {| c_id := c_id c; c_title := pdf_title p;
                     c_text := pdf_text p |}
            end
          else finish effs c
      end
  end.

(** The loop of [processExternalContentURLs] (lines 42 to 58); the
    clock is read at [k] by [processURL] and at [S k] by
    [time.Since]. *)
Fixpoint processURLs (db : DB) (urls : list string) (start : Time) (k : nat)
  : list Effect * DB * result unit :=
  match urls with
  | [] => ([], db, Ok tt)
  | u :: rest =>
      match processURL db (clock k) u with
      | (effs, db', Err e) =>
          (effs, db', Err ("process " ++ u ++ ": " ++ e)%string)
      | (effs, db', Ok _) =>
          if 30 * Minute <? Sub (clock (S k)) start then (effs, db', Ok tt)
          else
            let '(effs', db'', r) := processURLs db' rest start (S (S k)) in
            (effs ++ effs', db'', r)
      end
  end.

Definition processExternalContentURLs (db : DB) (k : nat)
  : list Effect * DB * result unit :=
  match checkPDF with
  | Err e => ([], db, Err e)
  | Ok _ =>
      let urls := unfetchedURLs db in
      let start := clock k in
      processURLs db urls start (S k)
  end.

End WithEnvironment.

End Content.

(** ** Integrity of the store

    The constraints [initDB] declares, and the correspondence between each
    content table and its full-text index, as predicates on the model. *)
Module Integrity.
Import GoTime Store Client Meetings.

(** At most one row has a given string key (a primary key). *)
Definition key_unique {A} (key : A -> string) (rows : list A) : Prop :=
  forall k, (count (fun r => String.eqb (key r) k) rows <= 1)%nat.

(** At most one row agrees with any row on the columns of a unique
    constraint. *)
Definition tuple_unique {A} (same : A -> A -> bool) (rows : list A) : Prop :=
  forall r, (count (same r) rows <= 1)%nat.

(** The index has exactly one row for each rowid of the content table,
    rowids identify content rows, and no index row is orphaned. *)
Definition index_mirrors {A B} (irowid : A -> Z) (index : list A)
  (crowid : B -> Z) (content : list B) : Prop :=
  (forall z : Z, (count (fun r => (crowid r =? z)%Z) content <= 1)%nat)
  /\ forall z : Z, count (fun s => irowid s =? z) index
               = count (fun r => crowid r =? z) content.

Record wf (db : DB) : Prop := {
  wf_agenda_content_key : key_unique mac_id (meeting_agenda_content db);
  wf_agenda_content_index :
    index_mirrors macs_rowid (meeting_agenda_content_search db)
      mac_rowid (meeting_agenda_content db);
  wf_meetings_key : key_unique mt_id (meetings db);
  wf_versions_unique : tuple_unique same_version (meeting_versions db);
  wf_external_content_key : key_unique ec_id (external_content db);
  wf_external_content_index :
    index_mirrors ecs_rowid (external_content_search db)
      ec_rowid (external_content db);
  wf_urls_key : key_unique ecu_url (external_content_urls db);
  wf_links_unique :
    tuple_unique same_link (meeting_external_content_urls db) }.

(** Two stores agree on every table but [external_content_urls] and
    [meeting_external_content_urls]. *)
Definition same_but_urls (a b : DB) : Prop :=
  meeting_agenda_content a = meeting_agenda_content b
  /\ meeting_agenda_content_search a = meeting_agenda_content_search b
  /\ meetings a = meetings b
  /\ meeting_versions a = meeting_versions b
  /\ external_content a = external_content b
  /\ external_content_search a = external_content_search b.

(** The row [mq] writes, given the two columns it leaves alone. *)
Definition mq_row (m : Meeting) (cid : string)
  (last_observed updated : option datetime) : meetings_row :=
  {| mt_id := ID m; mt_type := Type_ m;
     mt_date := FormatDate (Date (Event m));
     mt_schedule_note := Note (Event m);
     mt_last_observed := last_observed; mt_updated := updated;
     mt_agenda_url := Meeting_URL m "agenda";
     mt_minutes_url := Meeting_URL m "minutes";
     mt_video_url := Meeting_URL m "video";
     mt_agenda_content_id := cid |}.

Definition mq (tx : DB) (m : Meeting) (cid : string) : DB :=
  exec_mq tx (ID m) (Type_ m) (FormatDate (Date (Event m))) (Note (Event m))
    (Meeting_URL m "agenda") (Meeting_URL m "minutes") (Meeting_URL m "video")
    cid.

(** Every URL of the agenda is registered and linked. *)
Definition registered (tx : DB) (mid cid : string) (us : list string) : Prop :=
  forall u, In u us ->
    existsb (fun r => String.eqb (ecu_url r) u) (external_content_urls tx) = true
    /\ existsb (same_link {| mecu_meeting_id := mid;
                             mecu_agenda_content_id := cid;
                             mecu_external_content_url := u |})
         (meeting_external_content_urls tx) = true.

End Integrity.

(** ** Concrete data for the examples *)
Module Scenario.
Import GoTime Store Client.

(** A store that knows one meeting, last observed at [lo]. *)
Definition known_meeting (id : string) (lo : option datetime) : DB :=
  {| meeting_agenda_content := [];
     meeting_agenda_content_search := [];
     meetings :=
       [{| mt_id := id; mt_type := "Regional Council"; mt_date := "2024-05-07";
           mt_schedule_note := ""; mt_last_observed := lo;
           mt_updated := lo; mt_agenda_url := "https://www.halifax.ca/a";
           mt_minutes_url := ""; mt_video_url := "";
           mt_agenda_content_id := "c" |}];
     meeting_versions := [];
     external_content := [];
     external_content_search := [];
     external_content_urls := [];
     meeting_external_content_urls := [] |}.

(** 2024-05-07 12:00:00 UTC *)
Definition noon : Time := GoTime.Date 2024 5 7 (12 * Hour).

(** A meeting dated 2024-05-07. *)
Definition meeting_today : Meeting :=
  {| ID := "m1"; Type_ := "Regional Council";
     Event := {| Date := GoTime.Date 2024 5 7 0; Note := "" |};
     URLs := [{| Name := "agenda"; URL := "https://www.halifax.ca/a" |}] |}.

Definition agenda_today : MeetingAgenda :=
  {| ContentHTML := "<p>Agenda</p>";
     ContentText := "Agenda";
     ContentURLs := ["https://cdn.halifax.ca/report.pdf"] |}.

(** A stand-in for the digest: the bytes themselves. *)
Definition plain_sum (bytes : string) : string := bytes.

(** The store after the meeting of today was saved once at noon. *)
Definition saved_once : DB :=
  match Meetings.saveMeeting plain_sum emptyDB meeting_today agenda_today noon with
  | Ok db => db
  | Err _ => emptyDB
  end.


(** A source with one page of three meetings, the last one a year old. *)
Definition meeting_old : Meeting :=
  {| ID := "m0"; Type_ := "Regional Council";
     Event := {| Date := GoTime.Date 2023 5 7 0; Note := "" |};
     URLs := [{| Name := "agenda"; URL := "https://www.halifax.ca/old" |}] |}.

Definition meeting_new : Meeting :=
  {| ID := "m2"; Type_ := "Regional Council";
     Event := {| Date := GoTime.Date 2024 5 6 0; Note := "" |};
     URLs := [{| Name := "agenda"; URL := "https://www.halifax.ca/b" |}] |}.

Definition one_page : client :=
  {| List := fun token =>
       ([HTTPRequest "GET" "https://www.halifax.ca/list"],
        Ok ([meeting_today; meeting_new; meeting_old], "page2"));
     Agenda := fun url =>
       ([HTTPRequest "GET" url], Ok agenda_today) |}.

(** An eScribe calendar with one meeting that has an HTML agenda. *)
Definition calendar : list Escribe.CalendarMeeting :=
  [{| Escribe.dm_ID := "e-1";
      Escribe.dm_MeetingDocumentLink :=
        [{| Escribe.dl_Format := "HTML"; Escribe.dl_Title := "Agenda";
            Escribe.dl_Type := "Agenda";
            Escribe.dl_URL := "Meeting.aspx?Id=e-1" |}];
      Escribe.dm_MeetingType := "Halifax Regional Council";
      Escribe.dm_StartDate := "2024/05/07 13:00" |}].

Definition escribe_post (url : string) (from to : Time) : Net.RoundTrip :=
  Net.Responded {| Net.StatusCode := 200; Net.ContentType := "application/json";
                   Net.LastModified := ""; Net.ETag := "";
                   Net.Body := Ok "{}" |}.

Definition escribe_unmarshal (b : string) : result (list Escribe.CalendarMeeting) :=
  Ok calendar.

Definition escribe_parse (s : string) : result Time :=
  if String.eqb s "2024/05/07" then Ok (GoTime.Date 2024 5 7 0)
  else Err "parsing time".

Definition escribe_resolve (base ref : string) : option string :=
  Some (base ++ "/" ++ ref)%string.

Definition escribe_agenda (url : string) : list Effect * result MeetingAgenda :=
  ([HTTPRequest "GET" url], Ok agenda_today).

(** [strings.TrimSpace] on strings whose white space is ASCII. *)
Definition isSpace (c : ascii) : bool :=
  match nat_of_ascii c with
  | 9%nat | 10%nat | 11%nat | 12%nat | 13%nat | 32%nat => true
  | _ => false
  end.

Fixpoint trimLeft (s : string) : string :=
  match s with
  | EmptyString => EmptyString
  | String c s' => if isSpace c then trimLeft s' else s
  end.

Fixpoint trimRight (s : string) : string :=
  match s with
  | EmptyString => EmptyString
  | String c s' =>
      let r := trimRight s' in
      if isSpace c && String.eqb r "" then EmptyString else String c r
  end.

Definition trim_ascii (s : string) : string := trimRight (trimLeft s).

End Scenario.

(** ** The orchestrator, in the words of the specification *)
Module OrchestratorSpec.
Import GoTime Store Client Meetings.


(** The meetings of a page up to, and without, the first one dated
    before the cutoff. *)
Fixpoint recent (cutoff : Time) (meetings : list Meeting) : list Meeting :=
  match meetings with
  | [] => []
  | m :: rest =>
      if Before (Date (Event m)) cutoff then [] else m :: recent cutoff rest
  end.

Section WithEnvironment.

Variable clock : nat -> Time.
Variable entropy : nat -> Z.

(** The meetings the freshness check does not mark fresh, each paired
    with its source; the check of the i-th meeting reads the clock and
    the random source at [k + i]. *)
Fixpoint stale (db : DB) (c : client) (meetings : list Meeting) (k : nat)
  : list (Meeting * client) :=
  match meetings with
  | [] => []
  | m :: rest =>
      if isMeetingFresh db m (clock k) (entropy k)
      then stale db c rest (S k)
      else (m, c) :: stale db c rest (S k)
  end.

End WithEnvironment.

Definition is_ListCall (e : Effect) : bool :=
  match e with
  | ListCall _ => true
  | _ => false
  end.

Definition is_HTTPRequest (e : Effect) : bool :=
  match e with
  | HTTPRequest _ _ => true
  | _ => false
  end.

Definition is_Exec (cmd : string) (e : Effect) : bool :=
  match e with
  | Exec c _ => String.eqb c cmd
  | _ => false
  end.

End OrchestratorSpec.

(** ** The pages of a scanned PDF *)
Module PDFSpec.
Import GoStrings Client Content.

(** A page of a PDF without text layer: the part of the image file's name
    that carries the page number, the image, and the text [tesseract]
    recognises in it. *)
Record Page := {
  stem : string;
  image : string;
  recognised : string }.

(** The file [pdftoppm -png f td/page] writes for a page.  The stem is
    ["-"] and the page number, padded with zeros to the number of digits
    of the page count. *)
Definition pageFile (p : Page) : string := ("page" ++ stem p ++ ".png")%string.

(** The file [tesseract] writes for the image [n]. *)
Definition txt (n : string) : string := (n ++ ".txt")%string.

(** Stems of one length, different and in byte order. *)
Definition ahead (p q : Page) : Prop :=
  String.length (stem p) = String.length (stem q)
  /\ leb (stem p) (stem q) = true
  /\ stem p <> stem q.

(** The pages are listed in ascending page order and are named so. *)
Definition in_page_order (pages : list Page) : Prop :=
  Sorted.StronglySorted ahead pages.

(** The invocation of [tesseract] on a page, in the directory [td]. *)
Definition ocr_effect (td : string) (p : Page) : Effect :=
  Exec "tesseract" [Join td (pageFile p); Join td (pageFile p)].

(** What [pdftoppm] leaves in the directory. *)
Definition pageImages (pages : list Page) : list (string * string) :=
  map (fun p => (pageFile p, image p)) pages.

(** The decimal digits of [n], padded with zeros to the width [w]. *)
Fixpoint pad (w : nat) (n : Z) : string :=
  match w with
  | O => EmptyString
  | S w' => (pad w' (n / 10) ++ String (GoTime.digit n) EmptyString)%string
  end.

(** The pages [first], [first + 1], ... of a document whose page count
    has [w] digits, as [pdftoppm] names them; each scan is the image of
    a page and the text recognised in it. *)
Fixpoint numbered (w : nat) (first : Z) (scans : list (string * string))
  : list Page :=
  match scans with
  | [] => []
  | (png, text) :: rest =>
      {| stem := ("-" ++ pad w first)%string; image := png;
         recognised := text |}
      :: numbered w (first + 1) rest
  end.


End PDFSpec.

(** ** A scanned document for the examples *)
Module ScannedDocument.
Import Client Content PDFSpec.

(** Pages 9 to 11 of an eleven-page scan. *)
Definition scan_pages : list Page :=
  numbered 2 9 [("png9", "nine "); ("png10", "ten"); ("png11", "eleven")].

Definition scan_file : File :=
  {| f_Name := "/tmp/fetchURLContent1"; f_bytes := "scan" |}.

Definition scan_info : string :=
  ("Creator: Scanner" ++ Meetings.newline
   ++ "Title:          Staff Report | Halifax.ca" ++ Meetings.newline
   ++ "Pages:          11" ++ Meetings.newline)%string.

Definition scan_pdfinfo (bytes : string) : result string :=
  if String.eqb bytes "broken" then Err "exit status 1" else Ok scan_info.

Definition scan_pdftotext (bytes : string) : result string :=
  if String.eqb bytes "scan" then Ok "  " else Ok " Text layer ".

Definition scan_pdftoppm (bytes : string) : result (list (string * string)) :=
  Ok (pageImages scan_pages).

(** The same images, written last page first. *)
Definition scan_pdftoppm_rev (bytes : string) : result (list (string * string)) :=
  Ok (rev (pageImages scan_pages)).

Definition scan_tesseract (png : string) : result string :=
  if String.eqb png "png9" then Ok "nine "
  else if String.eqb png "png10" then Ok "ten"
  else if String.eqb png "png11" then Ok "eleven"
  else Err "exit status 1".

End ScannedDocument.

(** ** Runs of the program *)
Module Runs.
Import GoTime Store Client Net Meetings Content.

(** [select external_content_id from external_content_urls where url=?] *)
Definition content_ref (db : DB) (u : string) : option (option string) :=
  option_map ecu_external_content_id
    (find (fun r => String.eqb (ecu_url r) u) (external_content_urls db)).

(** [select fetched, error from external_content_urls where url=?] *)
Definition fetch_state (db : DB) (u : string)
  : option (option datetime * option string) :=
  option_map (fun r => (ecu_fetched r, ecu_error r))
    (find (fun r => String.eqb (ecu_url r) u) (external_content_urls db)).

(** The URL has a row, and every row for it has a [fetched] time. *)
Definition terminal (u : string) (db : DB) : Prop :=
  existsb (fun r => String.eqb (ecu_url r) u) (external_content_urls db) = true
  /\ forall r, In r (external_content_urls db) -> ecu_url r = u ->
               ecu_fetched r <> None.

(** One write of the program to the store: a committed [saveMeeting], or
    a [processURL], in whatever environment, at a time that is not the
    zero time. *)
Inductive step : DB -> DB -> Prop :=
| step_saveMeeting (sum : string -> string) (db db' : DB) (m : Meeting)
    (agenda : MeetingAgenda) (observed : Time) :
    saveMeeting sum db m agenda observed = Ok db' ->
    step db db'
| step_processURL (sum : string -> string) (TrimSpace : string -> string)
    (parseRFC1123 : string -> result Time) (get : string -> RoundTrip)
    (tempFile tempDir : string)
    (pdfinfo pdftotext : string -> result string)
    (pdftoppm : string -> result (list (string * string)))
    (tesseract : string -> result string)
    (db : DB) (now : Time) (u : string) :
    IsZero now = false ->
    step db
      (snd (fst (processURL sum TrimSpace parseRFC1123 get tempFile tempDir
                   pdfinfo pdftotext pdftoppm tesseract db now u))).

(** Any number of writes. *)
Inductive later : DB -> DB -> Prop :=
| later_now (db : DB) : later db db
| later_step (db db' db'' : DB) : step db db' -> later db' db'' -> later db db''.

End Runs.

(** ** Documents on the network, for the examples *)
Module Documents.
Import GoTime Store Client Net Meetings Scenario.

Definition url_a : string := "https://cdn.halifax.ca/a.pdf".
Definition url_b : string := "https://www.halifax.ca/media/b.pdf".
Definition url_broken : string := "https://cdn.halifax.ca/broken.pdf".
Definition url_gone : string := "https://cdn.halifax.ca/gone.pdf".

Definition agenda_documents : MeetingAgenda :=
  {| ContentHTML := "<p>Reports</p>";
     ContentText := "Reports";
     ContentURLs := [url_a; url_b; url_broken; url_gone] |}.

(** The store after a crawl that found the four documents. *)
Definition crawled : DB :=
  match saveMeeting plain_sum emptyDB meeting_today agenda_documents noon with
  | Ok db => db
  | Err _ => emptyDB
  end.

Definition pdf_response (body : string) : RoundTrip :=
  Responded {| StatusCode := 200; ContentType := "application/pdf";
               LastModified := ""; ETag := "v1"; Body := Ok body |}.

(** [url_a] and [url_b] serve the same bytes. *)
Definition documents_get (u : string) : RoundTrip :=
  if String.eqb u url_a then pdf_response "scan"
  else if String.eqb u url_b then pdf_response "scan"
  else if String.eqb u url_broken then pdf_response "broken"
  else if String.eqb u url_gone then
    Responded {| StatusCode := 404; ContentType := "text/html";
                 LastModified := ""; ETag := ""; Body := Ok "Not Found" |}
  else DoError "dial tcp: lookup failed".

Definition no_rfc1123 (s : string) : result Time := Err "cannot parse".

Definition one_oclock : Time := noon + Hour.

(** What [fetchURLContent] returns for a response with the given body. *)
Definition fetched_pdf (body : string) : Content.urlContent :=
  {| Content.uc_f := {| Content.f_Name := "/tmp/fetchURLContent1";
                        Content.f_bytes := body |};
     Content.uc_contentType := "application/pdf";
     Content.uc_contentID := plain_sum body;
     Content.uc_size := Z.of_nat (String.length body);
     Content.uc_lastModified := zeroTime;
     Content.uc_etag := "v1" |}.

End Documents.

(** ** Checking the calendar conversions over one era *)
Module CalendarCheck.
Import GoTime.

(** Day of era of a civil date, the inverse of [civil_of_doe]. *)
Definition doe_of (yoe m d : Z) : Z :=
  yoe * 365 + yoe / 4 - yoe / 100
  + (153 * (if m <=? 2 then m + 9 else m - 3) + 2) / 5 + d - 1.

Definition check_doe (doe : Z) : bool :=
  let '(yoe, m, d) := civil_of_doe doe in
  (0 <=? yoe) && (yoe <? 400) && (1 <=? m) && (m <=? 12)
  && (doe_of yoe m d =? doe).

Fixpoint check_from (n : nat) (doe : Z) : bool :=
  match n with
  | O => true
  | S n' => check_doe doe && check_from n' (doe + 1)
  end.

End CalendarCheck.

(** ** The document links of a calendar entry *)
Module EscribeSpec.
Import GoStrings Client Escribe.

(** The three tests of the loop over [dm.MeetingDocumentLink]. *)
Definition is_agenda (dl : DocumentLink) : bool :=
  String.eqb (dl_Type dl) "Agenda" && String.eqb (dl_Format dl) "HTML".

Definition is_minutes (dl : DocumentLink) : bool :=
  String.eqb (dl_Type dl) "AdditionalDocuments"
  && String.eqb (dl_Format dl) ".pdf"
  && Contains (dl_Title dl) "Minutes".

Definition is_video (dl : DocumentLink) : bool :=
  String.eqb (dl_Type dl) "Video".

Definition has_name (name : string) (u : MeetingURL) : bool :=
  String.eqb (Name u) name.

(** The entry of the first link that passes a test, under a name; [abs]
    resolves the link's URL. *)
Definition first_link (abs : string -> string) (test : DocumentLink -> bool)
  (name : string) (links : list DocumentLink) : option MeetingURL :=
  option_map (fun dl => {| Name := name; URL := abs (dl_URL dl) |})
    (find test links).

(** The start date cannot be used: it has no space after the date, or
    the date does not parse. *)
Definition bad_start_date (time_Parse : string -> result GoTime.Time)
  (dm : CalendarMeeting) : bool :=
  let '(startDate, _, ok) := Cut (dm_StartDate dm) " "%char in
  if ok then match time_Parse startDate with Ok _ => false | Err _ => true end
  else true.


End EscribeSpec.

(** ** More data for the examples *)
Module Scenario2.
Import GoTime Store Client Net Escribe Meetings Content Scenario Documents.

(** A calendar whose second entry has a start date without a time. *)
Definition calendar_bad : list CalendarMeeting :=
  calendar
  ++ [{| dm_ID := "e-2"; dm_MeetingDocumentLink := [];
         dm_MeetingType := "Budget Committee";
         dm_StartDate := "2024/05/08" |}].

Definition escribe_unmarshal_bad (b : string) : result (list CalendarMeeting) :=
  Ok calendar_bad.

Definition escribe_response : Response :=
  {| StatusCode := 200; ContentType := "application/json";
     LastModified := ""; ETag := ""; Body := Ok "{}" |}.

(** A meeting that links its minutes but no agenda. *)
Definition meeting_without_agenda : Meeting :=
  {| ID := "m3"; Type_ := "Audit Committee";
     Event := {| Date := GoTime.Date 2024 5 8 0; Note := "" |};
     URLs := [{| Name := "minutes"; URL := "https://www.halifax.ca/m" |}] |}.

(** A source whose pages are empty and always name a next page. *)
Definition endless_source : client :=
  {| List := fun token => ([], Ok ([], "next"));
     Agenda := fun url => ([], Err "not found") |}.

(** A page served as HTML, with a Last-Modified header. *)
Definition html_response : Response :=
  {| StatusCode := 200; ContentType := "text/html";
     LastModified := "Tue, 07 May 2024 12:00:00 GMT"; ETag := "";
     Body := Ok "<html></html>" |}.

Definition html_get (u : string) : RoundTrip := Responded html_response.

Definition rfc1123_noon (s : string) : result Time :=
  if String.eqb s "Tue, 07 May 2024 12:00:00 GMT" then Ok noon
  else Err "cannot parse".

(** What [fetchURLContent] returns for that page. *)
Definition fetched_html : urlContent :=
  {| uc_f := {| f_Name := "/tmp/fetchURLContent1";
                f_bytes := "<html></html>" |};
     uc_contentType := "text/html";
     uc_contentID := plain_sum "<html></html>";
     uc_size := 13;
     uc_lastModified := noon;
     uc_etag := "" |}.

(** [exec.LookPath] on a machine with every tool, and on one without
    [tesseract]. *)
Definition installed (cmd : string) : result string :=
  Ok ("/usr/bin/" ++ cmd)%string.

Definition no_tesseract (cmd : string) : result string :=
  if String.eqb cmd "tesseract" then Err "executable file not found in $PATH"
  else installed cmd.

(** A clock that is 31 minutes later from its fifth reading on. *)
Definition late_clock (j : nat) : Time :=
  if (j <=? 3)%nat then one_oclock else one_oclock + 31 * Minute.

(** The meeting of the examples saved again, with another agenda, on
    the store that knows the four documents. *)
Definition saved_again : DB :=
  match saveMeeting plain_sum crawled meeting_today agenda_today one_oclock with
  | Ok db => db
  | Err _ => emptyDB
  end.

(** That store after the first of the documents was processed. *)
Definition fetched_once : DB :=
  snd (fst (processURL plain_sum trim_ascii no_rfc1123 documents_get
              "/tmp/fetchURLContent1" "/tmp/processPDF1"
              ScannedDocument.scan_pdfinfo ScannedDocument.scan_pdftotext
              ScannedDocument.scan_pdftoppm ScannedDocument.scan_tesseract
              crawled one_oclock url_a)).

(** A [tesseract] that fails on the second page of the scan. *)
Definition tesseract_fails_10 (png : string) : result string :=
  if String.eqb png "png10" then Err "exit status 1"
  else ScannedDocument.scan_tesseract png.

(** The two actions of [main] in the environment of the examples. *)
Definition run_meetings (db : DB) : list Effect * DB * result unit :=
  match processMeetings plain_sum (fun _ => noon) (fun _ => 0) 1
          one_page one_page db 0 with
  | Some r => r
  | None => ([], db, Err "too many pages")
  end.

Definition run_urls (db : DB) : list Effect * DB * result unit :=
  processExternalContentURLs plain_sum trim_ascii no_rfc1123 documents_get
    "/tmp/fetchURLContent1" "/tmp/processPDF1"
    ScannedDocument.scan_pdfinfo ScannedDocument.scan_pdftotext
    ScannedDocument.scan_pdftoppm ScannedDocument.scan_tesseract
    installed (fun _ => one_oclock) db 0.

End Scenario2.

(** ** The queue of the orchestrator *)
Module QueueSpec.
Import GoTime Store Client Meetings.

Section WithEnvironment.

Variable clock : nat -> Time.
Variable entropy : nat -> Z.

(** What is added to the queue: meetings of the given sources that are
    not dated before the cutoff and were found not fresh at some
    reading [j] of the clock. *)
Definition enqueued (db : DB) (co : Time) (clients : list client)
  (k k' : nat) (added : list meetingAgendaer) : Prop :=
  forall m c, In (m, c) added ->
    In c clients /\ Before (Date (Event m)) co = false
    /\ exists j, (k <= j < k')%nat
                 /\ isMeetingFresh db m (clock j) (entropy j) = false.

End WithEnvironment.

End QueueSpec.

(** ** The references between the tables

    The [references] clauses of the schema [initDB] creates.  SQLite does
    not enforce them unless asked to; they are predicates on the model. *)
Module References.
Import Store.

Definition has_agenda_content (db : DB) (id : string) : Prop :=
  existsb (fun c => String.eqb (mac_id c) id) (meeting_agenda_content db) = true.

Definition has_meeting (db : DB) (id : string) : Prop :=
  existsb (fun r => String.eqb (mt_id r) id) (meetings db) = true.

Definition has_content (db : DB) (id : string) : Prop :=
  existsb (fun c => String.eqb (ec_id c) id) (external_content db) = true.

Definition has_url (db : DB) (u : string) : Prop :=
  existsb (fun r => String.eqb (ecu_url r) u) (external_content_urls db) = true.

Record refs_ok (db : DB) : Prop := {
  refs_meetings :
    forall r, In r (meetings db) ->
      has_agenda_content db (mt_agenda_content_id r);
  refs_versions :
    forall v, In v (meeting_versions db) ->
      has_meeting db (mv_meeting_id v)
      /\ has_agenda_content db (mv_agenda_content_id v);
  refs_urls :
    forall r id, In r (external_content_urls db) ->
      ecu_external_content_id r = Some id -> has_content db id;
  refs_links :
    forall l, In l (meeting_external_content_urls db) ->
      has_meeting db (mecu_meeting_id l)
      /\ has_agenda_content db (mecu_agenda_content_id l)
      /\ has_url db (mecu_external_content_url l) }.

End References.

(** ** [main.go]: the flag [-only] and the loop over the actions *)
Module Main.
Import GoStrings Store Client.

(** [commaSeparatedString]: the keys of the map [vals], each once, in the
    order in which they were first inserted.  The zero value has a nil
    map. *)
Record commaSeparatedString := { vals : list string }.

Definition unset : commaSeparatedString := {| vals := [] |}.

(** [c.vals[s] = struct{}{}] *)
Definition add_key (keys : list string) (s : string) : list string :=
  if existsb (String.eqb s) keys then keys else keys ++ [s].

Definition commaSeparatedString_Set (s : string) : commaSeparatedString :=
  {| vals := fold_left add_key (Split s ","%char) [] |}.

(** [strings.Join(keys, ",")] *)
Fixpoint Join (elems : list string) (sep : string) : string :=
  match elems with
  | [] => ""
  | [x] => x
  | x :: rest => (x ++ sep ++ Join rest sep)%string
  end.

Definition commaSeparatedString_String (c : commaSeparatedString) : string :=
  Join (Sort (vals c)) ",".

Record action := {
  name : string;
  fn : DB -> list Effect * DB * result unit }.

(** The loop over [actions] of [main]; an error ends the program
    ([log.Fatal]). *)
Fixpoint runActions (only : commaSeparatedString) (actions : list action)
  (db : DB) : list Effect * DB * result unit :=
  match actions with
  | [] => ([], db, Ok tt)
  | a :: rest =>
      if (0 <? List.length (vals only))%nat
         && negb (existsb (String.eqb (name a)) (vals only))
      then runActions only rest db
      else
        match fn a db with
        | (effs, db', Err e) => (effs, db', Err e)
        | (effs, db', Ok _) =>
            let '(effs', db'', r) := runActions only rest db' in
            (effs ++ effs', db'', r)
        end
  end.

Section WithActions.

(** [processMeetings] and [processExternalContentURLs], as functions of
    the store they find. *)
Variable processMeetings : DB -> list Effect * DB * result unit.
Variable processExternalContentURLs : DB -> list Effect * DB * result unit.

Definition actions : list action :=
  [{| name := "meetings"; fn := processMeetings |};
   {| name := "urls"; fn := processExternalContentURLs |}].

(** [main] after [initDB], with the value of the flag [-only] if it
    was given. *)
Definition main (only : option string) (db : DB)
  : list Effect * DB * result unit :=
  let only := match only with
              | Some s => commaSeparatedString_Set s
              | None => unset
              end in
  runActions only actions db.

End WithActions.

End Main.

(** ** Names without a comma *)
Module MainSpec.

(** The string has no comma. *)
Fixpoint no_comma (s : string) : bool :=
  match s with
  | EmptyString => true
  | String c s' => negb (Ascii.eqb c ","%char) && no_comma s'
  end.

End MainSpec.

(** ** [Client.List] ([client.go]) *)
Module Halifax.
Import GoTime GoStrings Client Net.

(** What the selectors of [List] find in a row of the table: the texts
    of the three cells and the [href] of the first link of the other
    three, empty when there is none. *)
Record ListingRow := {
  tr_time : string;
  tr_strong : string;
  tr_type : string;
  tr_agenda_href : string;
  tr_minutes_href : string;
  tr_video_href : string }.

(** What they find in the document: the number of tables whose id starts
    with [meetings_listings], the rows of their bodies, and the [href]
    of the link to the next page. *)
Record Listing := {
  li_tables : nat;
  li_rows : list ListingRow;
  li_next_href : string }.

Definition firstPage : string :=
  "https://www.halifax.ca/city-hall/agendas-meetings-reports".

(** The variable [u] of [List]. *)
Definition pageURL (token : string) : string :=
  if negb (String.eqb token "") then token else firstPage.

(** The ID [List] derives from the agenda URL of a row. *)
Definition meetingID (agendaURL : string) : string :=
  let id := TrimPrefix agendaURL "https://www.halifax.ca/city-hall" in
  let id := TrimPrefix id "/" in
  TrimPrefix id "http://legacycontent.halifax.ca/council/".

Section WithNetwork.

(** The answer to a GET of a URL. *)
Variable get : string -> RoundTrip.

(** The error of [url.Parse], if any. *)
Variable url_Parse : string -> option error.

(** [base.ResolveReference(rel).String()] for the parsed reference, or
    [None] when [url.Parse] rejects it. *)
Variable url_resolve : string -> string -> option string.

(** [goquery.NewDocumentFromReader] on the body, and the selections. *)
Variable NewDocumentFromReader : string -> result Listing.

(** [strings.TrimSpace] *)
Variable TrimSpace : string -> string.

(** [time.Parse("January 2, 2006", _)] *)
Variable time_Parse : string -> result Time.

(** The order in which [range] visits the keys of the map [urls] in
    the row number [i]. *)
Variable range_order : nat -> list string.

(** The closure [abs] of [List], for the base [u]. *)
Definition abs (u su : string) : string :=
  if String.eqb su "" then ""
  else match url_resolve u su with
       | None => ""
       | Some s => s
       end.

(** The map [urls] of a row. *)
Definition urls (u : string) (tr : ListingRow) (k : string) : string :=
  if String.eqb k "agenda" then abs u (tr_agenda_href tr)
  else if String.eqb k "minutes" then abs u (tr_minutes_href tr)
  else if String.eqb k "video" then abs u (tr_video_href tr)
  else "".

(** The loop over the map (lines 127 to 132). *)
Definition rowURLs (u : string) (tr : ListingRow) (order : list string)
  : list MeetingURL :=
  fold_left
    (fun acc k =>
       if String.eqb (urls u tr k) "" then acc
       else acc ++ [{| Name := k; URL := urls u tr k |}])
    order [].

(** The loop over the rows (lines 106 to 142). *)
Fixpoint listingMeetings (u : string) (rows : list ListingRow) (i : nat)
  (meetings : list Meeting) : result (list Meeting) :=
  match rows with
  | [] => Ok meetings
  | tr :: rest =>
      let mTime := TrimSpace (tr_time tr) in
      let mNote := TrimSpace (tr_strong tr) in
      let mType := TrimSpace (tr_type tr) in
      match time_Parse mTime with
      | Err _ => Err ("bad meeting date format: " ++ mTime)%string
      | Ok mt =>
          let m := {| ID := meetingID (urls u tr "agenda");
                      Type_ := mType;
                      Event := {| Date := mt; Note := mNote |};
                      URLs := rowURLs u tr (range_order i) |} in
          listingMeetings u rest (S i) (meetings ++ [m])
      end
  end.

(** [Client.List] *)
Definition Client_List (token : string)
  : list Effect * result (list Meeting * string) :=
  let u := pageURL token in
  match url_Parse u with
  | Some e => ([], Err (wrap "parsing URL" e))
  | None =>
      match get u with
      | NewRequestError e => ([], Err (wrap "new request" e))
      | DoError e => ([HTTPRequest "GET" u], Err (wrap "get" e))
      | Responded resp =>
          let effs := [HTTPRequest "GET" u] in
          if negb (StatusCode resp =? 200)
          then (effs, Err ("bad status " ++ itoa (StatusCode resp))%string)
          else
            match bind (Body resp) NewDocumentFromReader with
            | Err e => (effs, Err (wrap "new document" e))
            | Ok doc =>
                if (li_tables doc =? 0)%nat
                then (effs,
                      Err ("url=" ++ u
                           ++ " unable to find meetings_listings table")%string)
                else
                  match listingMeetings u (li_rows doc) 0 [] with
                  | Err e => (effs, Err e)
                  | Ok meetings =>
                      (effs, Ok (meetings, abs u (li_next_href doc)))
                  end
            end
      end
  end.

End WithNetwork.

End Halifax.

(** ** A page of the listing, for the examples *)
Module ListingExample.
Import GoTime Client Net Halifax.

(** A row with an agenda and minutes, and a row without links. *)
Definition listing_rows : list ListingRow :=
  [{| tr_time := " May 7, 2024 "; tr_strong := ""; tr_type := "Regional Council";
      tr_agenda_href := "/city-hall/regional-council/may-7-2024";
      tr_minutes_href := "/media/minutes.pdf"; tr_video_href := "" |};
   {| tr_time := "May 7, 2024"; tr_strong := "Cancelled";
      tr_type := "Audit Committee";
      tr_agenda_href := ""; tr_minutes_href := ""; tr_video_href := "" |}].

Definition listing : Listing :=
  {| li_tables := 1; li_rows := listing_rows; li_next_href := "?page=1" |}.

(** The same page with a third row that has no date yet. *)
Definition listing_undated : Listing :=
  {| li_tables := 1;
     li_rows :=
       listing_rows
       ++ [{| tr_time := "TBD"; tr_strong := ""; tr_type := "Budget Committee";
              tr_agenda_href := ""; tr_minutes_href := "";
              tr_video_href := "" |}];
     li_next_href := "" |}.

Definition listing_get (u : string) : RoundTrip :=
  Responded {| StatusCode := 200; ContentType := "text/html";
               LastModified := ""; ETag := ""; Body := Ok "<html>" |}.

Definition listing_parse (b : string) : result Listing := Ok listing.

Definition listing_parse_undated (b : string) : result Listing :=
  Ok listing_undated.

Definition listing_url_Parse (u : string) : option error := None.

Definition listing_resolve (base ref : string) : option string :=
  Some ("https://www.halifax.ca" ++ ref)%string.

Definition listing_time (s : string) : result Time :=
  if String.eqb s "May 7, 2024" then Ok (GoTime.Date 2024 5 7 0)
  else Err "cannot parse".

Definition listing_order (i : nat) : list string :=
  if Nat.even i then ["video"; "agenda"; "minutes"]
  else ["minutes"; "video"; "agenda"].

End ListingExample.

(** * Properties *)

(** ** Calendar arithmetic *)
Module GoTimeFacts.
Import GoTime CalendarCheck.

Lemma check_from_spec (n : nat) :
  forall z, check_from n z = true ->
  forall doe, z <= doe < z + Z.of_nat n -> check_doe doe = true.
Proof.
  induction n as [|n IH]; intros z H doe Hr.
  - lia.
  - cbn [check_from] in H. apply andb_true_iff in H. destruct H as [H0 H1].
    destruct (Z.eq_dec doe z) as [->|Hne]; [exact H0|].
    apply (IH (z + 1) H1). lia.
Qed.

Lemma check_doe_era : check_from (Z.to_nat 146097) 0 = true.
Proof. vm_cast_no_check (@eq_refl bool true). Qed.

Lemma civil_of_doe_inv (doe : Z) :
  0 <= doe < 146097 ->
  forall yoe m d, civil_of_doe doe = (yoe, m, d) ->
  0 <= yoe < 400 /\ 1 <= m <= 12 /\ doe_of yoe m d = doe.
Proof.
  intros Hr yoe m d E.
  pose proof (check_from_spec _ _ check_doe_era doe) as H.
  rewrite Z2Nat.id in H by lia.
  specialize (H ltac:(lia)). unfold check_doe in H.
  rewrite E in H.
  repeat rewrite andb_true_iff in H.
  destruct H as [[[[H1 H2] H3] H4] H5].
  lia.
Qed.

Lemma days_from_civil_from_days (z k : Z) :
  forall y m d, civil_from_days z = (y, m, d) ->
  1 <= m <= 12 /\ days_from_civil y m (d + k) = z + k.
Proof.
  intros y m d E. unfold civil_from_days in E.
  set (z' := z + 719468) in *.
  set (era := z' / 146097) in *.
  set (doe := z' - era * 146097) in *.
  assert (Hdoe : 0 <= doe < 146097).
  { subst doe era. pose proof (Z.mod_pos_bound z' 146097 ltac:(lia)).
    rewrite Z.mod_eq in H by lia. lia. }
  destruct (civil_of_doe doe) as [[yoe m0] d0] eqn:Ec.
  destruct (civil_of_doe_inv doe Hdoe _ _ _ Ec) as (Hy & Hm & Hback).
  inversion E; subst m0 d0. clear E.
  split; [exact Hm|].
  unfold days_from_civil.
  assert (Hy' : (if m <=? 2 then (if m <=? 2 then yoe + era * 400 + 1
                                   else yoe + era * 400) - 1
                 else (if m <=? 2 then yoe + era * 400 + 1
                       else yoe + era * 400)) = yoe + era * 400).
  { destruct (m <=? 2); lia. }
  rewrite Hy'.
  assert (Hera : (yoe + era * 400) / 400 = era).
  { rewrite Z.div_add by lia. rewrite Z.div_small by lia. lia. }
  rewrite Hera.
  replace (yoe + era * 400 - era * 400) with yoe by lia.
  unfold doe_of in Hback. subst z'. lia.
Qed.

(** Adding days moves the instant by that many times 24 hours. *)
Lemma AddDate_days (t k : Z) : AddDate t 0 0 k = t + k * Day.
Proof.
  unfold AddDate.
  destruct (civil_from_days (t / Day)) as [[y m] d] eqn:E.
  destruct (days_from_civil_from_days (t / Day) k _ _ _ E) as [Hm Hd].
  unfold Date.
  replace (m + 0) with m by lia. replace (y + 0) with y by lia.
  rewrite (Z.div_small (m - 1) 12) by lia.
  rewrite (Z.mod_small (m - 1) 12) by lia.
  replace (y + 0) with y by lia. replace (m - 1 + 1) with m by lia.
  rewrite Hd.
  assert (HD : Day = 86400000000000) by reflexivity.
  pose proof (Z.div_mod t Day ltac:(rewrite HD; lia)).
  lia.
Qed.

Lemma Sub_lt (t u d : Z) :
  minDuration < d <= maxDuration -> (Sub t u <? d) = (t - u <? d).
Proof.
  intros H. unfold Sub.
  destruct (t - u <? minDuration) eqn:E1.
  - apply Z.ltb_lt in E1. transitivity true; [|symmetry]; apply Z.ltb_lt; lia.
  - destruct (maxDuration <? t - u) eqn:E2; [|reflexivity].
    apply Z.ltb_lt in E2. transitivity false; [|symmetry]; apply Z.ltb_ge; lia.
Qed.

End GoTimeFacts.

Example TrimSuffix_branding :
  GoStrings.TrimSuffix "Report | Halifax.ca" "| Halifax.ca" = "Report ".
Proof. reflexivity. Qed.

Example Cut_start_date :
  GoStrings.Cut "2024/05/07 13:00" " " = ("2024/05/07", "13:00", true).
Proof. reflexivity. Qed.

Example AddDate_months_normalise :
  (* 2024-10-31 minus 8 months is 2024-02-31, that is 2024-03-02 *)
  GoTime.FormatDate (GoTime.AddDate (GoTime.Date 2024 10 31 0) 0 (-8) 0)
  = "2024-03-02".
Proof. vm_compute. reflexivity. Qed.

(** ** The freshness scheduler *)
Module FreshnessFacts.
Import GoTime GoTimeFacts Store Client Meetings Scenario.

Lemma Hour_eq : Hour = 3600000000000.
Proof. reflexivity. Qed.

Lemma Minute_eq : Minute = 60000000000.
Proof. reflexivity. Qed.

Lemma Day_eq : Day = 86400000000000.
Proof. reflexivity. Qed.

Lemma rand_N_range (src n : Z) : 0 < n -> 0 <= rand_N src n < n.
Proof. intros H. unfold rand_N. apply Z.mod_pos_bound. exact H. Qed.

(** The threshold, with the calendar test turned into arithmetic. *)
Lemma threshold_eq (date now src : Z) :
  threshold date now src =
  if date <? now - 7 * Day
  then 24 * Hour + (rand_N src (2 * Hour) - Hour)
  else 58 * Minute.
Proof.
  unfold threshold, Before. rewrite AddDate_days.
  replace (now + -7 * Day) with (now - 7 * Day) by lia.
  destruct (date <? now - 7 * Day); [|reflexivity].
  cbv zeta. replace (2 * Hour / 2) with Hour by reflexivity. reflexivity.
Qed.

Lemma threshold_bounds (date now src : Z) :
  58 * Minute <= threshold date now src <= 25 * Hour.
Proof.
  rewrite threshold_eq.
  pose proof (rand_N_range src (2 * Hour) ltac:(rewrite Hour_eq; lia)).
  rewrite Hour_eq, Minute_eq in *.
  destruct (date <? now - 7 * Day); lia.
Qed.

Lemma threshold_in_Duration (date now src : Z) :
  minDuration < threshold date now src <= maxDuration.
Proof.
  pose proof (threshold_bounds date now src) as H.
  rewrite Hour_eq, Minute_eq in H.
  unfold minDuration, maxDuration. lia.
Qed.

(** The result when a [last_observed] value was read. *)
Lemma isMeetingFresh_recorded (db : DB) (m : Meeting) (now src lo : Z) :
  select_last_observed db (ID m) = Some (Some lo) ->
  isMeetingFresh db m now src
  = (now - lo <? threshold (Date (Event m)) now src).
Proof.
  intros H. unfold isMeetingFresh. rewrite H. cbn [timeValue_Scan].
  apply Sub_lt, threshold_in_Duration.
Qed.



(** C5, as stated, fails: 59 minutes after the last observation a meeting
    dated today is no longer fresh, the threshold being 58 minutes. *)
Lemma fresh_at_59_minutes_counterexample :
  isMeetingFresh (known_meeting "m1" (Some (noon - 59 * Minute)))
    meeting_today noon 0 <> true.
Proof. vm_compute. discriminate. Qed.

(** C5, amended.  For a meeting dated today the freshness check returns
    true 57 minutes after the last observation and false 59 and 61
    minutes after it; for a meeting dated 30 days ago the threshold lies
    in [23h, 25h]. *)
Theorem freshness_boundary (db : DB) (m : Meeting) (now src lo : Z)
  (Hlo : select_last_observed db (ID m) = Some (Some lo))
  (Htoday : Date (Event m) / Day = now / Day) :
  (now - lo = 57 * Minute -> isMeetingFresh db m now src = true)
  /\ (now - lo = 59 * Minute -> isMeetingFresh db m now src = false)
  /\ (now - lo = 61 * Minute -> isMeetingFresh db m now src = false)
  /\ 23 * Hour <= threshold (AddDate now 0 0 (-30)) now src <= 25 * Hour.
Proof.
  rewrite (isMeetingFresh_recorded _ _ _ _ _ Hlo).
  assert (Hrecent : (Date (Event m) <? now - 7 * Day) = false).
  { apply Z.ltb_ge.
    pose proof (Z.div_mod (Date (Event m)) Day ltac:(rewrite Day_eq; lia)).
    pose proof (Z.div_mod now Day ltac:(rewrite Day_eq; lia)).
    pose proof (Z.mod_pos_bound (Date (Event m)) Day ltac:(rewrite Day_eq; lia)).
    pose proof (Z.mod_pos_bound now Day ltac:(rewrite Day_eq; lia)).
    rewrite Htoday in *. rewrite Day_eq in *. lia. }
  rewrite threshold_eq, Hrecent.
  repeat split.
  - intros ->. apply Z.ltb_lt. rewrite Minute_eq. lia.
  - intros ->. apply Z.ltb_ge. rewrite Minute_eq. lia.
  - intros ->. apply Z.ltb_ge. rewrite Minute_eq. lia.
  - rewrite threshold_eq, AddDate_days.
    replace (now + -30 * Day <? now - 7 * Day) with true
      by (symmetry; apply Z.ltb_lt; rewrite Day_eq; lia).
    pose proof (rand_N_range src (2 * Hour) ltac:(rewrite Hour_eq; lia)).
    rewrite Hour_eq in *. lia.
  - rewrite threshold_eq, AddDate_days.
    replace (now + -30 * Day <? now - 7 * Day) with true
      by (symmetry; apply Z.ltb_lt; rewrite Day_eq; lia).
    pose proof (rand_N_range src (2 * Hour) ltac:(rewrite Hour_eq; lia)).
    rewrite Hour_eq in *. lia.
Qed.

Lemma freshness_boundary_witness :
  isMeetingFresh (known_meeting "m1" (Some (noon - 61 * Minute)))
    meeting_today noon 7 = false.
Proof.
  refine (proj1 (proj2 (proj2 (freshness_boundary
            (known_meeting "m1" (Some (noon - 61 * Minute)))
            meeting_today noon 7 (noon - 61 * Minute) _ _))) _).
  - reflexivity.
  - vm_compute. reflexivity.
  - vm_compute. reflexivity.
Defined.

End FreshnessFacts.

(** ** Counting rows *)
Module CountFacts.
Import Store.

Lemma count_app {A} (p : A -> bool) (l l' : list A) :
  count p (l ++ l') = (count p l + count p l')%nat.
Proof. unfold count. rewrite filter_app, length_app. reflexivity. Qed.

Lemma count_cons {A} (p : A -> bool) (x : A) (l : list A) :
  count p (x :: l) = ((if p x then 1 else 0) + count p l)%nat.
Proof. unfold count. cbn. destruct (p x); reflexivity. Qed.

Lemma count_one {A} (p : A -> bool) (x : A) :
  count p [x] = if p x then 1%nat else 0%nat.
Proof. rewrite count_cons. unfold count. cbn. destruct (p x); reflexivity. Qed.

Lemma count_absent {A} (p : A -> bool) (l : list A) :
  existsb p l = false -> count p l = 0%nat.
Proof.
  induction l as [|x l IH]; intros H; [reflexivity|].
  cbn in H. apply orb_false_iff in H. destruct H as [Hx Hl].
  rewrite count_cons, Hx, IH by assumption. reflexivity.
Qed.

Lemma count_present {A} (p : A -> bool) (l : list A) :
  existsb p l = true -> (1 <= count p l)%nat.
Proof.
  induction l as [|x l IH]; intros H; [discriminate|].
  cbn in H. rewrite count_cons. destruct (p x); [lia|].
  cbn in H. specialize (IH H). lia.
Qed.

Lemma count_ext {A} (p q : A -> bool) (l : list A) :
  (forall x, p x = q x) -> count p l = count q l.
Proof.
  intros H. unfold count. rewrite (filter_ext p q H). reflexivity.
Qed.

Lemma count_map {A} (p : A -> bool) (f : A -> A) (l : list A) :
  (forall x, p (f x) = p x) -> count p (map f l) = count p l.
Proof.
  intros H. induction l as [|x l IH]; [reflexivity|].
  cbn [map]. rewrite !count_cons, H, IH. reflexivity.
Qed.

Lemma existsb_map {A} (p : A -> bool) (f : A -> A) (l : list A) :
  (forall x, p (f x) = p x) -> existsb p (map f l) = existsb p l.
Proof.
  intros H. induction l as [|x l IH]; [reflexivity|].
  cbn. rewrite H, IH. reflexivity.
Qed.

Lemma map_fixed {A} (f : A -> A) (l : list A) :
  (forall x, In x l -> f x = x) -> map f l = l.
Proof.
  intros H. rewrite <- (map_id l) at 2. apply map_ext_in. exact H.
Qed.

Lemma find_absent {A} (p : A -> bool) (l : list A) :
  existsb p l = false -> find p l = None.
Proof.
  induction l as [|x l IH]; intros H; [reflexivity|].
  cbn in *. apply orb_false_iff in H. destruct H as [-> Hl]. auto.
Qed.

Lemma find_present {A} (p : A -> bool) (l : list A) :
  existsb p l = true -> exists x, find p l = Some x /\ In x l /\ p x = true.
Proof.
  induction l as [|x l IH]; intros H; [discriminate|].
  cbn in *. destruct (p x) eqn:E.
  - exists x. auto.
  - cbn in H. destruct (IH H) as (y & Hy & Hin & Hp). exists y. auto.
Qed.

Lemma find_app_absent {A} (p : A -> bool) (l l' : list A) :
  existsb p l = false -> find p (l ++ l') = find p l'.
Proof.
  induction l as [|x l IH]; intros H; [reflexivity|].
  cbn in *. apply orb_false_iff in H. destruct H as [-> Hl]. auto.
Qed.

Lemma count_In_pos {A} (p : A -> bool) (l : list A) (x : A) :
  In x l -> p x = true -> (1 <= count p l)%nat.
Proof.
  intros Hin Hp. apply count_present. apply existsb_exists. eauto.
Qed.

Lemma next_rowid_above {A} (rowid : A -> Z) (rows : list A) (r : A) :
  In r rows -> rowid r < next_rowid rowid rows.
Proof.
  unfold next_rowid. induction rows as [|x rows IH]; intros H; [contradiction|].
  cbn [fold_right]. destruct H as [->|H]; [lia|]. specialize (IH H). lia.
Qed.

Lemma next_rowid_fresh {A} (rowid : A -> Z) (rows : list A) :
  count (fun r => rowid r =? next_rowid rowid rows) rows = 0%nat.
Proof.
  apply count_absent. apply not_true_is_false. intros H.
  apply existsb_exists in H. destruct H as (r & Hin & Hr).
  apply Z.eqb_eq in Hr. pose proof (next_rowid_above rowid rows r Hin). lia.
Qed.

End CountFacts.

(** ** The statements of [saveMeeting] *)
Module StatementFacts.
Import GoTime Store Client Meetings Integrity CountFacts.

(** Reduce the projections of a store that is written out. *)
Ltac tables :=
  unfold with_meetings in *;
  cbn [meeting_agenda_content meeting_agenda_content_search meetings
       meeting_versions external_content external_content_search
       external_content_urls meeting_external_content_urls] in *.

Lemma same_version_refl (r : meeting_versions_row) : same_version r r = true.
Proof. unfold same_version. rewrite !String.eqb_refl. reflexivity. Qed.

Lemma same_version_congr (a b : meeting_versions_row) :
  same_version a b = true -> forall x, same_version a x = same_version b x.
Proof.
  unfold same_version. rewrite !andb_true_iff, !String.eqb_eq.
  intros [[[[[H1 H2] H3] H4] H5] H6] x.
  rewrite H1, H2, H3, H4, H5, H6. reflexivity.
Qed.

Lemma same_link_refl (r : meeting_external_content_urls_row) :
  same_link r r = true.
Proof. unfold same_link. rewrite !String.eqb_refl. reflexivity. Qed.

Lemma same_link_congr (a b : meeting_external_content_urls_row) :
  same_link a b = true -> forall x, same_link a x = same_link b x.
Proof.
  unfold same_link. rewrite !andb_true_iff, !String.eqb_eq.
  intros [[H1 H2] H3] x. rewrite H1, H2, H3. reflexivity.
Qed.

(** Insert-if-absent keeps a key unique. *)
Lemma key_unique_insert {A} (key : A -> string) (rows : list A) (x : A) :
  key_unique key rows ->
  existsb (fun r => String.eqb (key r) (key x)) rows = false ->
  key_unique key (rows ++ [x]).
Proof.
  intros U Habs k. rewrite count_app, count_one.
  destruct (String.eqb (key x) k) eqn:E.
  - apply String.eqb_eq in E. subst k. rewrite (count_absent _ _ Habs). lia.
  - specialize (U k). lia.
Qed.

Lemma tuple_unique_insert {A} (same : A -> A -> bool) (rows : list A) (x : A) :
  (forall a b, same a b = true -> forall y, same a y = same b y) ->
  (forall a b, same a b = same b a) ->
  tuple_unique same rows ->
  existsb (same x) rows = false ->
  tuple_unique same (rows ++ [x]).
Proof.
  intros Hc Hs U Habs r. rewrite count_app, count_one.
  destruct (same r x) eqn:E.
  - rewrite (count_ext (same r) (same x)) by (intros y; apply Hc; exact E).
    rewrite (count_absent _ _ Habs). lia.
  - specialize (U r). lia.
Qed.

Lemma same_version_sym (a b : meeting_versions_row) :
  same_version a b = same_version b a.
Proof.
  unfold same_version.
  rewrite (String.eqb_sym (mv_meeting_id a)), (String.eqb_sym (mv_schedule_note a)),
    (String.eqb_sym (mv_agenda_url a)), (String.eqb_sym (mv_minutes_url a)),
    (String.eqb_sym (mv_video_url a)), (String.eqb_sym (mv_agenda_content_id a)).
  reflexivity.
Qed.

Lemma same_link_sym (a b : meeting_external_content_urls_row) :
  same_link a b = same_link b a.
Proof.
  unfold same_link.
  rewrite (String.eqb_sym (mecu_meeting_id a)),
    (String.eqb_sym (mecu_agenda_content_id a)),
    (String.eqb_sym (mecu_external_content_url a)).
  reflexivity.
Qed.

(** *** [insert_agenda_content] *)

Lemma insert_agenda_content_present (tx : DB) (cid : string) (a : MeetingAgenda) :
  existsb (fun r => String.eqb (mac_id r) cid) (meeting_agenda_content tx) = true ->
  insert_agenda_content tx cid a = tx.
Proof.
  intros H. unfold insert_agenda_content, exec_cq. rewrite H. reflexivity.
Qed.

Lemma insert_agenda_content_absent (tx : DB) (cid : string) (a : MeetingAgenda) :
  existsb (fun r => String.eqb (mac_id r) cid) (meeting_agenda_content tx) = false ->
  let n := next_rowid mac_rowid (meeting_agenda_content tx) in
  insert_agenda_content tx cid a =
  {| meeting_agenda_content :=
       meeting_agenda_content tx
       ++ [{| mac_rowid := n; mac_id := cid; mac_text := ContentText a;
              mac_html := ContentHTML a |}];
     meeting_agenda_content_search :=
       meeting_agenda_content_search tx
       ++ [{| macs_rowid := n; macs_text := ContentText a |}];
     meetings := meetings tx;
     meeting_versions := meeting_versions tx;
     external_content := external_content tx;
     external_content_search := external_content_search tx;
     external_content_urls := external_content_urls tx;
     meeting_external_content_urls := meeting_external_content_urls tx |}.
Proof.
  intros H n. unfold insert_agenda_content, exec_cq. rewrite H.
  cbv beta iota. change (0 <? 1) with true. cbv iota.
  unfold exec_sq, rowid_of. tables.
  rewrite find_app_absent by exact H.
  cbn. rewrite String.eqb_refl. reflexivity.
Qed.

Lemma insert_agenda_content_frame (tx : DB) (cid : string) (a : MeetingAgenda) :
  let tx' := insert_agenda_content tx cid a in
  meetings tx' = meetings tx
  /\ meeting_versions tx' = meeting_versions tx
  /\ external_content tx' = external_content tx
  /\ external_content_search tx' = external_content_search tx
  /\ external_content_urls tx' = external_content_urls tx
  /\ meeting_external_content_urls tx' = meeting_external_content_urls tx.
Proof.
  cbv zeta.
  destruct (existsb (fun r => String.eqb (mac_id r) cid) (meeting_agenda_content tx)) eqn:E.
  - rewrite insert_agenda_content_present by exact E. repeat split.
  - rewrite insert_agenda_content_absent by exact E. repeat split.
Qed.

(** After the step the content table has exactly one row for the hash,
    and the index exactly one row for that content row. *)
Lemma insert_agenda_content_one (tx : DB) (cid : string) (a : MeetingAgenda) :
  key_unique mac_id (meeting_agenda_content tx) ->
  index_mirrors macs_rowid (meeting_agenda_content_search tx)
    mac_rowid (meeting_agenda_content tx) ->
  let tx' := insert_agenda_content tx cid a in
  count (fun r => String.eqb (mac_id r) cid) (meeting_agenda_content tx') = 1%nat
  /\ exists row,
       find (fun r => String.eqb (mac_id r) cid) (meeting_agenda_content tx')
       = Some row
       /\ count (fun s => macs_rowid s =? mac_rowid row)
            (meeting_agenda_content_search tx') = 1%nat.
Proof.
  intros U [M1 M2]. cbv zeta.
  destruct (existsb (fun r => String.eqb (mac_id r) cid) (meeting_agenda_content tx)) eqn:E.
  - rewrite insert_agenda_content_present by exact E.
    pose proof (count_present _ _ E) as Hc. specialize (U cid).
    split; [lia|].
    destruct (find_present _ _ E) as (row & Hf & Hin & _).
    exists row. split; [exact Hf|].
    rewrite M2.
    assert (1 <= count (fun r => (mac_rowid r =? mac_rowid row)%Z)
                   (meeting_agenda_content tx))%nat
      by (apply (count_In_pos _ _ row Hin); cbv beta; apply Z.eqb_refl).
    specialize (M1 (mac_rowid row)). lia.
  - rewrite insert_agenda_content_absent by exact E. tables.
    split.
    + rewrite count_app, count_one, (count_absent _ _ E).
      cbn [mac_id]. rewrite String.eqb_refl. reflexivity.
    + eexists. split.
      * rewrite find_app_absent by exact E. cbn [find mac_id].
        rewrite String.eqb_refl. reflexivity.
      * cbn [mac_rowid]. rewrite count_app, count_one. cbn [macs_rowid].
        rewrite Z.eqb_refl, M2, next_rowid_fresh. reflexivity.
Qed.

Lemma insert_agenda_content_wf (tx : DB) (cid : string) (a : MeetingAgenda) :
  key_unique mac_id (meeting_agenda_content tx) ->
  index_mirrors macs_rowid (meeting_agenda_content_search tx)
    mac_rowid (meeting_agenda_content tx) ->
  let tx' := insert_agenda_content tx cid a in
  key_unique mac_id (meeting_agenda_content tx')
  /\ index_mirrors macs_rowid (meeting_agenda_content_search tx')
       mac_rowid (meeting_agenda_content tx').
Proof.
  intros U [M1 M2]. cbv zeta.
  destruct (existsb (fun r => String.eqb (mac_id r) cid) (meeting_agenda_content tx)) eqn:E.
  - rewrite insert_agenda_content_present by exact E. split; [exact U|split; assumption].
  - rewrite insert_agenda_content_absent by exact E. tables. split.
    + apply (key_unique_insert mac_id _
               {| mac_rowid := next_rowid mac_rowid (meeting_agenda_content tx);
                  mac_id := cid; mac_text := ContentText a;
                  mac_html := ContentHTML a |} U).
      exact E.
    + split; intros z; rewrite !count_app, !count_one;
        cbn [mac_rowid macs_rowid].
      * destruct (next_rowid mac_rowid (meeting_agenda_content tx) =? z) eqn:Ez.
        -- apply Z.eqb_eq in Ez. subst z. rewrite next_rowid_fresh. lia.
        -- specialize (M1 z). lia.
      * rewrite M2. reflexivity.
Qed.

(** *** [mq], [vq] and [lq] *)

Lemma with_meetings_same (tx : DB) : with_meetings tx (meetings tx) = tx.
Proof. destruct tx. reflexivity. Qed.

Lemma mq_rows (tx : DB) (m : Meeting) (cid : string) :
  existsb (fun r => String.eqb (mt_id r) (ID m)) (meetings (mq tx m cid)) = true
  /\ (forall r, In r (meetings (mq tx m cid)) -> mt_id r = ID m ->
       r = mq_row m cid (mt_last_observed r) (mt_updated r))
  /\ (key_unique mt_id (meetings tx) -> key_unique mt_id (meetings (mq tx m cid))).
Proof.
  unfold mq, exec_mq.
  destruct (existsb (fun r => String.eqb (mt_id r) (ID m)) (meetings tx)) eqn:E;
    tables.
  - split; [|split].
    + rewrite existsb_map; [exact E|].
      intros x. destruct (String.eqb (mt_id x) (ID m)) eqn:Ex; [|exact Ex].
      cbn [mt_id]. apply String.eqb_refl.
    + intros r Hin Hid. apply in_map_iff in Hin. destruct Hin as (x & Hx & _).
      destruct (String.eqb (mt_id x) (ID m)) eqn:Ex.
      * subst r. reflexivity.
      * subst r. apply String.eqb_neq in Ex. contradiction.
    + intros U k. rewrite count_map; [apply U|].
      intros x. destruct (String.eqb (mt_id x) (ID m)) eqn:Ex; [|reflexivity].
      cbn [mt_id]. apply String.eqb_eq in Ex. rewrite Ex. reflexivity.
  - split; [|split].
    + rewrite existsb_app. cbn. rewrite String.eqb_refl. apply orb_true_r.
    + intros r Hin Hid. apply in_app_iff in Hin. destruct Hin as [Hin|[<-|[]]].
      * exfalso. apply not_true_iff_false in E. apply E.
        apply existsb_exists. exists r. split; [exact Hin|].
        apply String.eqb_eq. exact Hid.
      * reflexivity.
    + intros U.
      apply (key_unique_insert mt_id _ (mq_row m cid None None) U). exact E.
Qed.

Lemma mq_frame (tx : DB) (m : Meeting) (cid : string) :
  let tx' := mq tx m cid in
  meeting_agenda_content tx' = meeting_agenda_content tx
  /\ meeting_agenda_content_search tx' = meeting_agenda_content_search tx
  /\ meeting_versions tx' = meeting_versions tx
  /\ external_content tx' = external_content tx
  /\ external_content_search tx' = external_content_search tx
  /\ external_content_urls tx' = external_content_urls tx
  /\ meeting_external_content_urls tx' = meeting_external_content_urls tx.
Proof.
  cbv zeta. unfold mq, exec_mq.
  destruct (existsb _ (meetings tx)); repeat split.
Qed.

Lemma mq_noop (tx : DB) (m : Meeting) (cid : string) :
  existsb (fun r => String.eqb (mt_id r) (ID m)) (meetings tx) = true ->
  (forall r, In r (meetings tx) -> mt_id r = ID m ->
     r = mq_row m cid (mt_last_observed r) (mt_updated r)) ->
  mq tx m cid = tx.
Proof.
  intros E H. unfold mq, exec_mq. rewrite E.
  rewrite map_fixed; [apply with_meetings_same|].
  intros r Hin. destruct (String.eqb (mt_id r) (ID m)) eqn:Er; [|reflexivity].
  apply String.eqb_eq in Er. symmetry. exact (H r Hin Er).
Qed.

Lemma vq_versions (tx : DB) (row : meeting_versions_row) :
  meeting_versions (exec_vq tx row)
  = if existsb (same_version row) (meeting_versions tx)
    then meeting_versions tx else meeting_versions tx ++ [row].
Proof.
  unfold exec_vq. destruct (existsb _ (meeting_versions tx)); reflexivity.
Qed.

Lemma vq_frame (tx : DB) (row : meeting_versions_row) :
  let tx' := exec_vq tx row in
  meeting_agenda_content tx' = meeting_agenda_content tx
  /\ meeting_agenda_content_search tx' = meeting_agenda_content_search tx
  /\ meetings tx' = meetings tx
  /\ external_content tx' = external_content tx
  /\ external_content_search tx' = external_content_search tx
  /\ external_content_urls tx' = external_content_urls tx
  /\ meeting_external_content_urls tx' = meeting_external_content_urls tx.
Proof.
  cbv zeta. unfold exec_vq.
  destruct (existsb _ (meeting_versions tx)); repeat split.
Qed.

Lemma vq_one (tx : DB) (row : meeting_versions_row) :
  tuple_unique same_version (meeting_versions tx) ->
  existsb (same_version row) (meeting_versions (exec_vq tx row)) = true
  /\ count (same_version row) (meeting_versions (exec_vq tx row)) = 1%nat
  /\ tuple_unique same_version (meeting_versions (exec_vq tx row)).
Proof.
  intros U. rewrite vq_versions.
  destruct (existsb (same_version row) (meeting_versions tx)) eqn:E.
  - split; [exact E|]. split; [|exact U].
    pose proof (count_present _ _ E). specialize (U row). lia.
  - split; [|split].
    + rewrite existsb_app. cbn. rewrite same_version_refl. apply orb_true_r.
    + rewrite count_app, count_one, same_version_refl, (count_absent _ _ E).
      reflexivity.
    + apply tuple_unique_insert; auto using same_version_congr, same_version_sym.
Qed.

Lemma lq_frame (tx : DB) (o : option datetime) (id : string) :
  let tx' := exec_lq tx o id in
  meeting_agenda_content tx' = meeting_agenda_content tx
  /\ meeting_agenda_content_search tx' = meeting_agenda_content_search tx
  /\ meeting_versions tx' = meeting_versions tx
  /\ external_content tx' = external_content tx
  /\ external_content_search tx' = external_content_search tx
  /\ external_content_urls tx' = external_content_urls tx
  /\ meeting_external_content_urls tx' = meeting_external_content_urls tx.
Proof. cbv zeta. repeat split. Qed.

Lemma lq_rows (tx : DB) (m : Meeting) (cid : string) (o : option datetime) :
  let tx' := exec_lq tx o (ID m) in
  (key_unique mt_id (meetings tx) -> key_unique mt_id (meetings tx'))
  /\ (existsb (fun r => String.eqb (mt_id r) (ID m)) (meetings tx) = true ->
      existsb (fun r => String.eqb (mt_id r) (ID m)) (meetings tx') = true)
  /\ ((forall r, In r (meetings tx) -> mt_id r = ID m ->
         r = mq_row m cid (mt_last_observed r) (mt_updated r)) ->
      forall r, In r (meetings tx') -> mt_id r = ID m ->
        r = mq_row m cid o (max_observed tx (ID m))).
Proof.
  cbv zeta. unfold exec_lq. tables. split; [|split].
  - intros U k. rewrite count_map; [apply U|].
    intros x. destruct (String.eqb (mt_id x) (ID m)); reflexivity.
  - intros E. rewrite existsb_map; [exact E|].
    intros x. destruct (String.eqb (mt_id x) (ID m)) eqn:Ex;
      cbn [mt_id]; rewrite ?Ex; reflexivity.
  - intros H r Hin Hid. apply in_map_iff in Hin. destruct Hin as (x & Hx & Hinx).
    destruct (String.eqb (mt_id x) (ID m)) eqn:Ex.
    + apply String.eqb_eq in Ex. specialize (H x Hinx Ex).
      subst r. rewrite H. cbn. reflexivity.
    + subst r. apply String.eqb_neq in Ex. contradiction.
Qed.

Lemma lq_noop (tx : DB) (m : Meeting) (cid : string) (o : option datetime) :
  (forall r, In r (meetings tx) -> mt_id r = ID m ->
     r = mq_row m cid o (max_observed tx (ID m))) ->
  exec_lq tx o (ID m) = tx.
Proof.
  intros H. unfold exec_lq.
  rewrite map_fixed; [apply with_meetings_same|].
  intros r Hin. destruct (String.eqb (mt_id r) (ID m)) eqn:Er; [|reflexivity].
  apply String.eqb_eq in Er. rewrite (H r Hin Er). cbn. reflexivity.
Qed.

End StatementFacts.

(** ** [saveMeetingURLs] and [saveMeeting] *)
Module SaveMeetingFacts.
Import GoTime Store Client Meetings Integrity CountFacts StatementFacts.

Lemma insert_url_frame (tx : DB) (u : string) (added : option datetime) :
  same_but_urls (insert_external_content_url tx u added) tx
  /\ meeting_external_content_urls (insert_external_content_url tx u added)
     = meeting_external_content_urls tx.
Proof.
  unfold insert_external_content_url, same_but_urls.
  destruct (existsb _ (external_content_urls tx)); repeat split.
Qed.

Lemma insert_link_frame (tx : DB) (row : meeting_external_content_urls_row) :
  same_but_urls (insert_meeting_external_content_url tx row) tx
  /\ external_content_urls (insert_meeting_external_content_url tx row)
     = external_content_urls tx.
Proof.
  unfold insert_meeting_external_content_url, same_but_urls.
  destruct (existsb _ (meeting_external_content_urls tx)); repeat split.
Qed.

Lemma same_but_urls_trans (a b c : DB) :
  same_but_urls a b -> same_but_urls b c -> same_but_urls a c.
Proof.
  unfold same_but_urls. intros (A1 & A2 & A3 & A4 & A5 & A6) (B1 & B2 & B3 & B4 & B5 & B6).
  repeat split; congruence.
Qed.

Lemma same_but_urls_refl (a : DB) : same_but_urls a a.
Proof. repeat split. Qed.

(** One round of the loop of [saveMeetingURLs]. *)
Lemma register_url (tx : DB) (u mid cid : string) (added : option datetime) :
  let row := {| mecu_meeting_id := mid; mecu_agenda_content_id := cid;
                mecu_external_content_url := u |} in
  let tx' := insert_meeting_external_content_url
               (insert_external_content_url tx u added) row in
  same_but_urls tx' tx
  /\ existsb (fun r => String.eqb (ecu_url r) u) (external_content_urls tx') = true
  /\ existsb (same_link row) (meeting_external_content_urls tx') = true
  /\ (forall p, existsb p (external_content_urls tx) = true ->
                existsb p (external_content_urls tx') = true)
  /\ (forall p, existsb p (meeting_external_content_urls tx) = true ->
                existsb p (meeting_external_content_urls tx') = true)
  /\ (key_unique ecu_url (external_content_urls tx) ->
      key_unique ecu_url (external_content_urls tx'))
  /\ (tuple_unique same_link (meeting_external_content_urls tx) ->
      tuple_unique same_link (meeting_external_content_urls tx'))
  /\ (existsb (fun r => String.eqb (ecu_url r) u) (external_content_urls tx) = true ->
      existsb (same_link row) (meeting_external_content_urls tx) = true ->
      tx' = tx).
Proof.
  cbv zeta.
  set (row := {| mecu_meeting_id := mid; mecu_agenda_content_id := cid;
                 mecu_external_content_url := u |}).
  unfold insert_meeting_external_content_url, insert_external_content_url.
  destruct (existsb (fun r => String.eqb (ecu_url r) u) (external_content_urls tx)) eqn:Eu;
    tables;
    destruct (existsb (same_link row) (meeting_external_content_urls tx)) eqn:El;
    tables; unfold same_but_urls; tables.
  - repeat split; auto.
  - repeat split; auto.
    + rewrite existsb_app. cbn. rewrite same_link_refl. apply orb_true_r.
    + intros p Hp. rewrite existsb_app, Hp. reflexivity.
    + intros U. apply tuple_unique_insert; auto using same_link_congr, same_link_sym.
    + intros _ H. discriminate.
  - repeat split; auto.
    + rewrite existsb_app. cbn. rewrite String.eqb_refl. apply orb_true_r.
    + intros p Hp. rewrite existsb_app, Hp. reflexivity.
    + intros U.
      apply (key_unique_insert ecu_url _
               {| ecu_url := u; ecu_added := added; ecu_fetched := None;
                  ecu_content_type := None; ecu_size := None;
                  ecu_last_modified := None; ecu_etag := None;
                  ecu_error := None; ecu_external_content_id := None |} U).
      exact Eu.
    + intros H. discriminate.
  - repeat split; auto.
    + rewrite existsb_app. cbn. rewrite String.eqb_refl. apply orb_true_r.
    + rewrite existsb_app. cbn. rewrite same_link_refl. apply orb_true_r.
    + intros p Hp. rewrite existsb_app, Hp. reflexivity.
    + intros p Hp. rewrite existsb_app, Hp. reflexivity.
    + intros U.
      apply (key_unique_insert ecu_url _
               {| ecu_url := u; ecu_added := added; ecu_fetched := None;
                  ecu_content_type := None; ecu_size := None;
                  ecu_last_modified := None; ecu_etag := None;
                  ecu_error := None; ecu_external_content_id := None |} U).
      exact Eu.
    + intros U. apply tuple_unique_insert; auto using same_link_congr, same_link_sym.
    + intros H. discriminate.
Qed.

Lemma saveMeetingURLs_spec (obs : Time) (mid cid : string) (a : MeetingAgenda) :
  forall tx,
  let tx' := saveMeetingURLs tx obs mid cid a in
  same_but_urls tx' tx
  /\ registered tx' mid cid (ContentURLs a)
  /\ (forall p, existsb p (external_content_urls tx) = true ->
                existsb p (external_content_urls tx') = true)
  /\ (forall p, existsb p (meeting_external_content_urls tx) = true ->
                existsb p (meeting_external_content_urls tx') = true)
  /\ (key_unique ecu_url (external_content_urls tx) ->
      key_unique ecu_url (external_content_urls tx'))
  /\ (tuple_unique same_link (meeting_external_content_urls tx) ->
      tuple_unique same_link (meeting_external_content_urls tx'))
  /\ (registered tx mid cid (ContentURLs a) -> tx' = tx).
Proof.
  unfold saveMeetingURLs, registered. cbv zeta.
  induction (ContentURLs a) as [|u us IH]; intros tx.
  - cbn [fold_left]. repeat split; auto using same_but_urls_refl; intros u [].
  - cbn [fold_left].
    pose proof (register_url tx u mid cid (timeValue_Value obs)) as R.
    cbv zeta in R.
    set (tx1 := insert_meeting_external_content_url _ _) in *.
    destruct R as (F & Pu & Pl & Mu & Ml & Ku & Kl & Noop).
    destruct (IH tx1) as (F' & Reg & Mu' & Ml' & Ku' & Kl' & Noop').
    split; [eapply same_but_urls_trans; eauto|].
    split.
    { intros v [<-|Hv]; [split; [apply Mu'; exact Pu|apply Ml'; exact Pl]|].
      apply (Reg _ Hv). }
    split; [auto|]. split; [auto|]. split; [auto|]. split; [auto|].
    + intros H.
      assert (E1 : tx1 = tx).
      { apply Noop; apply (H u); left; reflexivity. }
      rewrite Noop'; [exact E1|].
      intros v Hv. rewrite E1. apply H. right. exact Hv.
Qed.

End SaveMeetingFacts.

(** ** Idempotence and [last_observed] *)
Module VersioningFacts.
Import GoTime Store Client Meetings Integrity CountFacts StatementFacts
  SaveMeetingFacts Scenario.

Lemma wf_emptyDB : wf emptyDB.
Proof.
  split; cbn; try (intros k; cbn; lia); split; intros z; cbn; lia.
Qed.

Lemma timeValue_Scan_Value (t : Time) :
  IsZero t = false -> t mod Millisecond = 0 ->
  timeValue_Scan (timeValue_Value t) = t.
Proof.
  intros Hz Hm. unfold timeValue_Value. rewrite Hz. cbn [timeValue_Scan].
  assert (HM : Millisecond = 1000000) by reflexivity.
  pose proof (Z.div_mod t Millisecond ltac:(rewrite HM; lia)). lia.
Qed.


Section WithDigest.

Variable sum224_base62 : string -> string.

Local Abbreviation saveMeeting := (saveMeeting sum224_base62).
Local Abbreviation agendaContentID := (agendaContentID sum224_base62).
Local Abbreviation version_row := (version_row sum224_base62).

(** The store a successful [saveMeeting] commits. *)
Lemma saveMeeting_Ok_inv (db db1 : DB) (m : Meeting) (a : MeetingAgenda)
  (obs : Time) :
  saveMeeting db m a obs = Ok db1 ->
  Meeting_URL m "agenda" <> ""
  /\ db1 = saveMeetingURLs
             (exec_lq
                (exec_vq
                   (mq (insert_agenda_content db (agendaContentID a) a) m
                      (agendaContentID a))
                   (version_row m a obs))
                (timeValue_Value obs) (ID m))
             obs (ID m) (agendaContentID a) a.
Proof.
  unfold Meetings.saveMeeting.
  destruct (String.eqb (Meeting_URL m "agenda") "") eqn:E; [discriminate|].
  intros H. inversion H. split; [|reflexivity].
  apply String.eqb_neq. exact E.
Qed.

Lemma saveMeeting_Ok (db : DB) (m : Meeting) (a : MeetingAgenda) (obs : Time) :
  Meeting_URL m "agenda" <> "" -> exists db1, saveMeeting db m a obs = Ok db1.
Proof.
  intros H. unfold Meetings.saveMeeting.
  apply String.eqb_neq in H. rewrite H. eexists. reflexivity.
Qed.

(** What a successful [saveMeeting] leaves in each table. *)
Lemma saveMeeting_tables (db db1 : DB) (m : Meeting) (a : MeetingAgenda)
  (obs : Time) :
  saveMeeting db m a obs = Ok db1 ->
  let cid := agendaContentID a in
  let tx := insert_agenda_content db cid a in
  meeting_agenda_content db1 = meeting_agenda_content tx
  /\ meeting_agenda_content_search db1 = meeting_agenda_content_search tx
  /\ meeting_versions db1
     = (if existsb (same_version (version_row m a obs)) (meeting_versions db)
        then meeting_versions db
        else meeting_versions db ++ [version_row m a obs])
  /\ external_content db1 = external_content db
  /\ external_content_search db1 = external_content_search db
  /\ existsb (fun r => String.eqb (mt_id r) (ID m)) (meetings db1) = true
  /\ (forall r, In r (meetings db1) -> mt_id r = ID m ->
        r = mq_row m cid (timeValue_Value obs) (max_observed db1 (ID m)))
  /\ (key_unique mt_id (meetings db) -> key_unique mt_id (meetings db1))
  /\ registered db1 (ID m) cid (ContentURLs a)
  /\ (key_unique ecu_url (external_content_urls db) ->
      key_unique ecu_url (external_content_urls db1))
  /\ (tuple_unique same_link (meeting_external_content_urls db) ->
      tuple_unique same_link (meeting_external_content_urls db1)).
Proof.
  intros H. apply saveMeeting_Ok_inv in H. destruct H as [_ ->]. cbv zeta.
  set (cid := agendaContentID a).
  set (tx := insert_agenda_content db cid a).
  set (txm := mq tx m cid).
  set (txv := exec_vq txm (version_row m a obs)).
  set (txl := exec_lq txv (timeValue_Value obs) (ID m)).
  destruct (saveMeetingURLs_spec obs (ID m) cid a txl)
    as ((S1 & S2 & S3 & S4 & S5 & S6) & Reg & _ & _ & Ku & Kl & _).
  destruct (lq_frame txv (timeValue_Value obs) (ID m))
    as (L1 & L2 & L3 & L4 & L5 & L6 & L7). fold txl in L1, L2, L3, L4, L5, L6, L7.
  destruct (vq_frame txm (version_row m a obs))
    as (V1 & V2 & V3 & V4 & V5 & V6 & V7). fold txv in V1, V2, V3, V4, V5, V6, V7.
  destruct (mq_frame tx m cid) as (M1 & M2 & M3 & M4 & M5 & M6 & M7).
  fold txm in M1, M2, M3, M4, M5, M6, M7.
  destruct (insert_agenda_content_frame db cid a)
    as (C1 & C2 & C3 & C4 & C5 & C6). fold tx in C1, C2, C3, C4, C5, C6.
  destruct (mq_rows tx m cid) as (Q1 & Q2 & Q3). fold txm in Q1, Q2, Q3.
  destruct (lq_rows txv m cid (timeValue_Value obs)) as (R1 & R2 & R3).
  fold txl in R1, R2, R3. rewrite V3 in R1, R2, R3.
  assert (HV : meeting_versions txv
               = if existsb (same_version (version_row m a obs)) (meeting_versions db)
                 then meeting_versions db
                 else meeting_versions db ++ [version_row m a obs]).
  { unfold txv. rewrite vq_versions, M3, C2. reflexivity. }
  assert (Hmax : max_observed (saveMeetingURLs txl obs (ID m) cid a) (ID m)
                 = max_observed txv (ID m)).
  { unfold max_observed. rewrite S4, L3. reflexivity. }
  split; [congruence|]. split; [congruence|].
  split; [rewrite S4, L3; exact HV|].
  split; [congruence|]. split; [congruence|].
  split; [rewrite S3; auto|].
  split; [rewrite S3, Hmax; auto|].
  split; [rewrite S3; intros U; apply R1, Q3; rewrite C1; exact U|].
  split; [exact Reg|].
  split; [intros U; apply Ku; rewrite L6, V6, M6, C5; exact U|].
  intros U; apply Kl; rewrite L7, V7, M7, C6; exact U.
Qed.

(** The integrity of the store survives [saveMeeting]. *)
Lemma saveMeeting_wf (db db1 : DB) (m : Meeting) (a : MeetingAgenda)
  (obs : Time) :
  wf db -> saveMeeting db m a obs = Ok db1 -> wf db1.
Proof.
  intros [W1 W2 W3 W4 W5 W6 W7 W8] H.
  destruct (saveMeeting_tables _ _ _ _ _ H)
    as (T1 & T2 & T3 & T4 & T5 & _ & _ & T8 & _ & T10 & T11).
  destruct (insert_agenda_content_wf db (agendaContentID a) a W1 W2) as [K I].
  split.
  - rewrite T1. exact K.
  - rewrite T1, T2. exact I.
  - auto.
  - rewrite T3.
    destruct (existsb _ (meeting_versions db)) eqn:E; [exact W4|].
    apply tuple_unique_insert; auto using same_version_congr, same_version_sym.
  - rewrite T4. exact W5.
  - rewrite T4, T5. exact W6.
  - auto.
  - auto.
Qed.

(** C3. Saving the same meeting, agenda and observation time twice
    leaves exactly one version row for the tuple, exactly one
    agenda-content row for the hash and exactly one index row for that
    content; the second call succeeds and changes nothing. *)
Theorem saveMeeting_idempotent (db db1 : DB) (m : Meeting)
  (a : MeetingAgenda) (obs : Time)
  (Hwf : wf db)
  (Hsave : saveMeeting db m a obs = Ok db1) :
  saveMeeting db1 m a obs = Ok db1
  /\ count (same_version (version_row m a obs)) (meeting_versions db1) = 1%nat
  /\ count (fun r => String.eqb (mac_id r) (agendaContentID a))
       (meeting_agenda_content db1) = 1%nat
  /\ exists row,
       find (fun r => String.eqb (mac_id r) (agendaContentID a))
         (meeting_agenda_content db1) = Some row
       /\ count (fun s => macs_rowid s =? mac_rowid row)
            (meeting_agenda_content_search db1) = 1%nat.
Proof.
  destruct Hwf as [W1 W2 W3 W4 W5 W6 W7 W8].
  destruct (saveMeeting_tables _ _ _ _ _ Hsave)
    as (T1 & T2 & T3 & T4 & T5 & T6 & T7 & T8 & T9 & T10 & T11).
  destruct (saveMeeting_Ok_inv _ _ _ _ _ Hsave) as [Hurl _].
  destruct (insert_agenda_content_one db (agendaContentID a) a W1 W2)
    as (One & row & Hfind & Hidx).
  assert (Hv : existsb (same_version (version_row m a obs))
                 (meeting_versions db1) = true
               /\ count (same_version (version_row m a obs))
                    (meeting_versions db1) = 1%nat).
  { rewrite T3.
    destruct (existsb _ (meeting_versions db)) eqn:E.
    - split; [exact E|]. pose proof (count_present _ _ E).
      specialize (W4 (version_row m a obs)). lia.
    - split.
      + rewrite existsb_app. cbn. rewrite same_version_refl. apply orb_true_r.
      + rewrite count_app, count_one, same_version_refl, (count_absent _ _ E).
        reflexivity. }
  destruct Hv as [Hve Hvc].
  split; [|split; [exact Hvc|split]].
  - unfold Meetings.saveMeeting.
    apply String.eqb_neq in Hurl. rewrite Hurl.
    rewrite insert_agenda_content_present.
    2:{ rewrite T1. apply not_false_iff_true. intros E.
        apply count_absent in E. lia. }
    fold (mq db1 m (agendaContentID a)).
    rewrite mq_noop.
    2:{ exact T6. }
    2:{ intros r Hin Hid. rewrite (T7 r Hin Hid). reflexivity. }
    assert (Hvq : exec_vq db1 (version_row m a obs) = db1).
    { unfold exec_vq. rewrite Hve. reflexivity. }
    rewrite Hvq.
    rewrite (lq_noop db1 m (agendaContentID a)) by exact T7.
    destruct (saveMeetingURLs_spec obs (ID m) (agendaContentID a) a db1)
      as (_ & _ & _ & _ & _ & _ & Noop).
    rewrite (Noop T9). reflexivity.
  - rewrite T1. exact One.
  - exists row. rewrite T1, T2. split; assumption.
Qed.


End WithDigest.

Lemma saved_once_Ok :
  saveMeeting plain_sum emptyDB meeting_today agenda_today noon = Ok saved_once.
Proof. vm_compute. reflexivity. Qed.

(** The two calls of the idempotence theorem on a new store. *)
Lemma saveMeeting_idempotent_witness :
  wf emptyDB
  /\ saveMeeting plain_sum emptyDB meeting_today agenda_today noon = Ok saved_once
  /\ saveMeeting plain_sum saved_once meeting_today agenda_today noon
     = Ok saved_once.
Proof.
  split; [exact wf_emptyDB|]. split; [exact saved_once_Ok|].
  exact (proj1 (saveMeeting_idempotent plain_sum emptyDB saved_once
                  meeting_today agenda_today noon wf_emptyDB saved_once_Ok)).
Defined.


End VersioningFacts.

(** ** The crawl orchestrator *)
Module OrchestratorFacts.
Import GoTime Store Client Meetings OrchestratorSpec Scenario.

Section WithEnvironment.

Variable sum224_base62 : string -> string.
Variable clock : nat -> Time.
Variable entropy : nat -> Z.

Local Abbreviation scanMeetings := (scanMeetings clock entropy).
Local Abbreviation listSource := (listSource clock entropy).
Local Abbreviation processQueue := (processQueue sum224_base62 clock).
Local Abbreviation stale := (stale clock entropy).

(** The loop over a page keeps the meetings that come before the first
    one older than the cutoff and are not fresh, and breaks out exactly
    when the page has a meeting older than the cutoff. *)
Lemma scanMeetings_spec (db : DB) (cutoff : Time) (c : client)
  (ms : list Meeting) :
  forall (k : nat) (need : list meetingAgendaer),
  scanMeetings db cutoff c ms k need
  = (existsb (fun m => Before (Date (Event m)) cutoff) ms,
     (k + List.length (recent cutoff ms))%nat,
     need ++ stale db c (recent cutoff ms) k).
Proof.
  induction ms as [|m ms IH]; intros k need; cbn [Meetings.scanMeetings].
  - cbn. rewrite Nat.add_0_r, app_nil_r. reflexivity.
  - cbn [existsb recent].
    destruct (Before (Date (Event m)) cutoff) eqn:E.
    + cbn. rewrite Nat.add_0_r, app_nil_r. reflexivity.
    + cbn [OrchestratorSpec.stale List.length orb].
      destruct (isMeetingFresh db m (clock k) (entropy k)); rewrite IH.
      * rewrite Nat.add_succ_r. reflexivity.
      * rewrite Nat.add_succ_r, <- app_assoc. reflexivity.
Qed.



End WithEnvironment.



End OrchestratorFacts.

(** ** The eScribe source *)
Module EscribeFacts.
Import GoTime Store Client Net Meetings Escribe OrchestratorSpec CountFacts
  Scenario.

Section WithNetwork.

Variable post : string -> Time -> Time -> RoundTrip.
Variable json_Unmarshal : string -> result (list CalendarMeeting).
Variable time_Parse : string -> result Time.
Variable url_resolve : string -> string -> option string.
Variable clock : nat -> Time.
Variable entropy : nat -> Z.

Local Abbreviation EscribeClient_List :=
  (EscribeClient_List post json_Unmarshal time_Parse url_resolve).
Local Abbreviation EscribeClient :=
  (EscribeClient post json_Unmarshal time_Parse url_resolve).
Local Abbreviation listSource := (listSource clock entropy).

Lemma EscribeClient_List_token (now : Time) (token : string) :
  token <> "" ->
  EscribeClient_List now token
  = ([], Err "escribe does not support pagination").
Proof.
  intros H. unfold Escribe.EscribeClient_List.
  apply String.eqb_neq in H. rewrite H. reflexivity.
Qed.

Lemma EscribeClient_List_Ok (now : Time) (token next : string)
  (effs : list Effect) (ms : list Meeting) :
  EscribeClient_List now token = (effs, Ok (ms, next)) ->
  token = "" /\ next = ""
  /\ effs = [HTTPRequest "POST"
               (u ++ "/MeetingsCalendarView.aspx/GetAllMeetings")%string].
Proof.
  unfold Escribe.EscribeClient_List.
  destruct (String.eqb token "") eqn:Et; cbn [negb]; [|discriminate].
  apply String.eqb_eq in Et.
  destruct (post _ _ _) as [e|e|resp]; try discriminate.
  destruct (Body resp) as [b|e]; [|discriminate].
  destruct (negb (StatusCode resp =? 200)); [discriminate|].
  destruct (json_Unmarshal b) as [d|e]; [|discriminate].
  destruct (calendarMeetings time_Parse url_resolve d []) as [l|e];
    [|discriminate].
  intros H. inversion H. auto.
Qed.

Lemma EscribeClient_List_effects (now : Time) (token : string) :
  count is_ListCall (fst (EscribeClient_List now token)) = 0%nat
  /\ (count is_HTTPRequest (fst (EscribeClient_List now token)) <= 1)%nat.
Proof.
  unfold Escribe.EscribeClient_List.
  destruct (negb (String.eqb token "")); [cbn; lia|].
  destruct (post _ _ _) as [e|e|resp]; [cbn; lia|cbn; lia|].
  destruct (Body resp) as [b|e]; [|cbn; lia].
  destruct (negb (StatusCode resp =? 200)); [cbn; lia|].
  destruct (json_Unmarshal b) as [d|e]; [|cbn; lia].
  destruct (calendarMeetings time_Parse url_resolve d []) as [l|e]; cbn; lia.
Qed.

(** C10. [EscribeClient.List] with a non-empty token fails without a
    request; a successful call was made with the empty token and
    returns the empty next token; so the pagination loop over the
    eScribe client ends within its first round, whatever the fuel,
    having called [List] exactly once and sent at most one request. *)
Theorem EscribeClient_single_page (now : Time) (token : string)
  (Htoken : token <> "") :
  EscribeClient_List now token
  = ([], Err "escribe does not support pagination")
  /\ (forall now' token' next effs ms,
        EscribeClient_List now' token' = (effs, Ok (ms, next)) ->
        token' = "" /\ next = "")
  /\ (forall fuel db cutoff agenda k need,
        exists effs r,
          listSource (S fuel) db cutoff (EscribeClient now agenda) "" k need
          = Some (effs, r)
          /\ count is_ListCall effs = 1%nat
          /\ (count is_HTTPRequest effs <= 1)%nat).
Proof.
  split; [apply EscribeClient_List_token; exact Htoken|]. split.
  - intros now' token' next effs ms H.
    destruct (EscribeClient_List_Ok _ _ _ _ _ H) as (H1 & H2 & _). auto.
  - intros fuel db cutoff agenda k need.
    cbn [Meetings.listSource Escribe.EscribeClient List].
    pose proof (EscribeClient_List_effects now "") as [Hl Hh].
    destruct (EscribeClient_List now "") as [effs [[ms next]|e]] eqn:E.
    + destruct (EscribeClient_List_Ok _ _ _ _ _ E) as (_ & -> & _).
      cbn [fst] in Hl, Hh.
      destruct (scanMeetings clock entropy db cutoff _ ms k need)
        as [[brk k'] need'].
      exists (ListCall "" :: effs), (Ok (k', need')).
      split; [destruct brk; reflexivity|].
      rewrite !count_cons. cbn [is_ListCall is_HTTPRequest]. lia.
    + cbn [fst] in Hl, Hh.
      exists (ListCall "" :: effs), (Err (wrap "listing meetings" e)).
      split; [reflexivity|].
      rewrite !count_cons. cbn [is_ListCall is_HTTPRequest]. lia.
Qed.

End WithNetwork.

Lemma EscribeClient_single_page_witness :
  "page2" <> ""
  /\ EscribeClient_List escribe_post escribe_unmarshal escribe_parse
       escribe_resolve noon "page2"
     = ([], Err "escribe does not support pagination")
  /\ exists effs r,
       listSource (fun _ => noon) (fun _ => 0) 1 emptyDB (cutoff emptyDB noon)
         (EscribeClient escribe_post escribe_unmarshal escribe_parse
            escribe_resolve noon escribe_agenda) "" 0 []
       = Some (effs, r)
       /\ count is_ListCall effs = 1%nat
       /\ (count is_HTTPRequest effs <= 1)%nat.
Proof.
  assert (H : "page2" <> "") by discriminate.
  split; [exact H|].
  pose proof (EscribeClient_single_page escribe_post escribe_unmarshal
                escribe_parse escribe_resolve (fun _ => noon) (fun _ => 0)
                noon "page2" H) as (H1 & _ & H3).
  split; [exact H1|]. apply H3.
Defined.

Example EscribeClient_List_calendar :
  EscribeClient_List escribe_post escribe_unmarshal escribe_parse
    escribe_resolve noon ""
  = ([HTTPRequest "POST"
        "https://pub-halifax.escribemeetings.com/MeetingsCalendarView.aspx/GetAllMeetings"],
     Ok ([{| ID := "e-1"; Type_ := "Regional Council";
             Event := {| Date := GoTime.Date 2024 5 7 0; Note := "" |};
             URLs := [{| Name := "agenda";
                         URL := "https://pub-halifax.escribemeetings.com/Meeting.aspx?Id=e-1" |}] |}],
         "")).
Proof. vm_compute. reflexivity. Qed.

End EscribeFacts.

(** ** Byte strings and sorted names *)
Module GoStringsFacts.
Import GoStrings.

Lemma append_assoc (a b c : string) :
  ((a ++ b) ++ c)%string = (a ++ (b ++ c))%string.
Proof. induction a as [|x a IH]; cbn; [reflexivity|]. rewrite IH. reflexivity. Qed.

Lemma length_append (a b : string) :
  String.length (a ++ b) = (String.length a + String.length b)%nat.
Proof. induction a as [|x a IH]; cbn; [reflexivity|]. rewrite IH. reflexivity. Qed.

Lemma HasPrefix_append (p s : string) : HasPrefix (p ++ s) p = true.
Proof.
  induction p as [|x p IH]; cbn; [destruct s; reflexivity|].
  rewrite Ascii.eqb_refl, IH. reflexivity.
Qed.

Lemma drop_length_append (a b : string) : drop (String.length a) (a ++ b) = b.
Proof. induction a as [|x a IH]; cbn; [destruct b; reflexivity|exact IH]. Qed.

Lemma HasSuffix_append_eqb (a b p : string) :
  String.length b = String.length p ->
  HasSuffix (a ++ b) p = String.eqb b p.
Proof.
  intros H. unfold HasSuffix. rewrite length_append, <- H.
  replace (String.length a + String.length b - String.length b)%nat
    with (String.length a) by lia.
  rewrite drop_length_append.
  replace (String.length b <=? String.length a + String.length b)%nat with true
    by (symmetry; apply Nat.leb_le; lia).
  reflexivity.
Qed.

Lemma leb_append_prefix (p a b : string) : leb (p ++ a) (p ++ b) = leb a b.
Proof.
  induction p as [|x p IH]; cbn [append leb]; [reflexivity|].
  rewrite Nat.ltb_irrefl. exact IH.
Qed.

(** Of two different strings of one length, in order, the first stays
    ahead whatever is appended to either. *)
Lemma leb_append_strict (a : string) :
  forall b s t,
  String.length a = String.length b -> leb a b = true -> a <> b ->
  leb (a ++ s) (b ++ t) = true.
Proof.
  induction a as [|x a IH]; intros [|y b] s t Hl Hle Hne;
    try discriminate; [contradiction|].
  cbn [append leb String.length] in *.
  destruct (nat_of_ascii x <? nat_of_ascii y)%nat eqn:E1; [reflexivity|].
  destruct (nat_of_ascii y <? nat_of_ascii x)%nat eqn:E2; [discriminate|].
  apply IH; [lia|exact Hle|].
  intros ->. apply Hne. f_equal.
  apply Nat.ltb_ge in E1, E2.
  assert (nat_of_ascii x = nat_of_ascii y) by lia.
  rewrite <- (ascii_nat_embedding x), <- (ascii_nat_embedding y). congruence.
Qed.

Lemma append_inj_l (a : string) :
  forall b s t,
  String.length a = String.length b ->
  (a ++ s)%string = (b ++ t)%string -> a = b.
Proof.
  induction a as [|x a IH]; intros [|y b] s t Hl H; try discriminate;
    [reflexivity|].
  cbn in *. inversion H. f_equal. eapply IH; eauto.
Qed.

Lemma insert_sorted_head (x : string) (l : list string) :
  Sorted.HdRel (fun a b => leb a b = true) x l -> insert_sorted x l = x :: l.
Proof.
  intros H. destruct l as [|y l]; [reflexivity|].
  inversion H; subst. cbn [insert_sorted]. rewrite H1. reflexivity.
Qed.

(** [sort.Strings] leaves an ascending list as it is. *)
Lemma Sort_sorted (l : list string) :
  Sorted.Sorted (fun a b => leb a b = true) l -> Sort l = l.
Proof.
  induction 1 as [|x l Hs IH Hh]; [reflexivity|].
  unfold Sort in *. cbn [fold_right]. rewrite IH.
  apply insert_sorted_head. exact Hh.
Qed.

End GoStringsFacts.

(** ** The PDF cascade *)
Module PDFFacts.
Import GoStrings GoStringsFacts Store Client Content PDFSpec Scenario
  ScannedDocument.

Lemma filter_all {A} (p : A -> bool) (l : list A) :
  (forall x, In x l -> p x = true) -> filter p l = l.
Proof.
  induction l as [|x l IH]; intros H; [reflexivity|].
  cbn. rewrite (H x (or_introl eq_refl)), IH; [reflexivity|].
  intros y Hy. apply H. right. exact Hy.
Qed.

Lemma filter_none {A} (p : A -> bool) (l : list A) :
  (forall x, In x l -> p x = false) -> filter p l = [].
Proof.
  induction l as [|x l IH]; intros H; [reflexivity|].
  cbn. rewrite (H x (or_introl eq_refl)), IH; [reflexivity|].
  intros y Hy. apply H. right. exact Hy.
Qed.

Lemma WriteFile_fresh (d : Dir) (name data : string) :
  (forall e, In e d -> fst e <> name) ->
  WriteFile d name data = d ++ [(name, data)].
Proof.
  intros H. unfold WriteFile. rewrite filter_all; [reflexivity|].
  intros e He. apply negb_true_iff, String.eqb_neq, H, He.
Qed.


Lemma ReadFile_app_r (d d' : Dir) (name : string) :
  (forall e, In e d -> fst e <> name) ->
  ReadFile (d ++ d') name = ReadFile d' name.
Proof.
  unfold ReadFile. induction d as [|e d IH]; intros H; cbn; [reflexivity|].
  rewrite (proj2 (String.eqb_neq _ _) (H e (or_introl eq_refl))).
  apply IH. intros e' He'. apply H. right. exact He'.
Qed.

Lemma ReadFile_head (d : Dir) (name data : string) :
  ReadFile ((name, data) :: d) name = Ok data.
Proof. unfold ReadFile. cbn. rewrite String.eqb_refl. reflexivity. Qed.

(** *** Names of page files *)


Lemma pageFile_ahead (p q : Page) (s t : string) :
  ahead p q -> leb (pageFile p ++ s) (pageFile q ++ t) = true.
Proof.
  intros (Hl & Hle & Hne). unfold pageFile.
  rewrite !append_assoc. rewrite leb_append_prefix.
  apply leb_append_strict; assumption.
Qed.

Lemma pageFile_differ (p q : Page) : ahead p q -> pageFile p <> pageFile q.
Proof.
  intros (Hl & Hle & Hne) H. unfold pageFile in H. cbn [append] in H.
  inversion H as [H']. apply Hne. exact (append_inj_l _ _ _ _ Hl H').
Qed.


Lemma pageFile_is_png (p : Page) :
  HasPrefix (pageFile p) "page" && HasSuffix (pageFile p) ".png"
  && (String.length "page" + String.length ".png" <=? String.length (pageFile p))%nat
  = true.
Proof.
  unfold pageFile. rewrite HasPrefix_append.
  rewrite <- append_assoc, HasSuffix_append_eqb by reflexivity.
  rewrite !length_append. cbn [String.eqb andb String.length Ascii.eqb Bool.eqb].
  apply Nat.leb_le. lia.
Qed.

Lemma pageFile_not_txt (p : Page) : HasSuffix (pageFile p) ".txt" = false.
Proof.
  unfold pageFile. rewrite <- append_assoc, HasSuffix_append_eqb by reflexivity.
  reflexivity.
Qed.

Lemma txt_is_txt (p : Page) :
  HasPrefix (txt (pageFile p)) "page" && HasSuffix (txt (pageFile p)) ".txt"
  && (String.length "page" + String.length ".txt"
      <=? String.length (txt (pageFile p)))%nat
  = true.
Proof.
  unfold txt, pageFile. rewrite append_assoc, HasPrefix_append.
  rewrite <- !append_assoc, HasSuffix_append_eqb by reflexivity.
  rewrite !length_append. cbn [String.eqb andb String.length Ascii.eqb Bool.eqb].
  apply Nat.leb_le. lia.
Qed.

Lemma in_page_order_inv (p : Page) (pages : list Page) :
  in_page_order (p :: pages) ->
  in_page_order pages /\ Forall (ahead p) pages.
Proof. intros H. inversion H; subst. split; assumption. Qed.

(** The names of the page files are ascending, with any suffix. *)
Lemma names_sorted (suffix : string) (pages : list Page) :
  in_page_order pages ->
  Sorted.Sorted (fun a b => leb a b = true)
    (map (fun p => (pageFile p ++ suffix)%string) pages).
Proof.
  induction pages as [|p pages IH]; intros H; [constructor|].
  apply in_page_order_inv in H. destruct H as [Hs Hf].
  cbn [map]. constructor; [apply IH; exact Hs|].
  destruct pages as [|q pages]; constructor.
  apply pageFile_ahead. inversion Hf; assumption.
Qed.

Lemma append_empty_r (s : string) : (s ++ "")%string = s.
Proof. induction s as [|c s IH]; cbn; [reflexivity|]. rewrite IH. reflexivity. Qed.

Lemma Glob_png (pages : list Page) (texts : Dir) :
  in_page_order pages ->
  (forall e, In e texts -> HasSuffix (fst e) ".png" = false) ->
  Glob (pageImages pages ++ texts) "page" ".png" = map pageFile pages.
Proof.
  intros H Ht. unfold Glob, pageImages.
  rewrite map_app, filter_app, map_map. cbn [fst].
  rewrite filter_all by (intros n Hn; apply in_map_iff in Hn;
                         destruct Hn as (p & <- & _); apply pageFile_is_png).
  rewrite filter_none, app_nil_r.
  - apply Sort_sorted.
    rewrite <- (map_ext (fun p => (pageFile p ++ "")%string) pageFile)
      by (intros p; apply append_empty_r).
    apply names_sorted. exact H.
  - intros n Hn. apply in_map_iff in Hn. destruct Hn as (e & <- & He).
    rewrite (Ht e He), andb_false_r. reflexivity.
Qed.


Lemma txt_not_png (p q : Page) : txt (pageFile p) <> pageFile q.
Proof.
  intros H. pose proof (txt_is_txt p) as Ht. rewrite H in Ht.
  rewrite pageFile_not_txt, andb_false_r in Ht. discriminate.
Qed.

Lemma ReadFile_images (pages : list Page) :
  in_page_order pages ->
  forall p, In p pages -> ReadFile (pageImages pages) (pageFile p) = Ok (image p).
Proof.
  induction pages as [|q pages IH]; intros H p Hin; [contradiction|].
  apply in_page_order_inv in H. destruct H as [Hs Hf].
  cbn [pageImages map]. destruct Hin as [->|Hin]; [apply ReadFile_head|].
  rewrite Forall_forall in Hf. specialize (Hf p Hin).
  change ((pageFile q, image q) :: map (fun p0 => (pageFile p0, image p0)) pages)
    with ([(pageFile q, image q)] ++ pageImages pages).
  rewrite ReadFile_app_r; [apply IH; assumption|].
  intros e [<-|[]]. cbn [fst]. apply pageFile_differ. exact Hf.
Qed.


Lemma pdftoppm_directory (pages : list Page) :
  in_page_order pages ->
  forall d,
  (forall p e, In p pages -> In e d -> fst e <> pageFile p) ->
  fold_left (fun d e => WriteFile d (fst e) (snd e)) (pageImages pages) d
  = d ++ pageImages pages.
Proof.
  induction pages as [|q pages IH]; intros H d Hd.
  - cbn. rewrite app_nil_r. reflexivity.
  - apply in_page_order_inv in H. destruct H as [Hs Hf].
    cbn [pageImages map fold_left fst snd].
    rewrite WriteFile_fresh
      by (intros e He; apply (Hd q e); [left; reflexivity|exact He]).
    fold (pageImages pages). rewrite (IH Hs).
    + rewrite <- app_assoc. reflexivity.
    + intros p e Hp He. apply in_app_iff in He. destruct He as [He|[<-|[]]].
      * apply (Hd p e); [right; exact Hp|exact He].
      * cbn [fst]. rewrite Forall_forall in Hf.
        apply pageFile_differ. apply Hf. exact Hp.
Qed.

Section WithTools.

Variable TrimSpace : string -> string.
Variable tempDir : string.
Variable pdfinfo : string -> result string.
Variable pdftotext : string -> result string.
Variable pdftoppm : string -> result (list (string * string)).
Variable tesseract : string -> result string.

Local Abbreviation ocrPages := (ocrPages tempDir tesseract).
Local Abbreviation processPDF :=
  (processPDF TrimSpace tempDir pdfinfo pdftotext pdftoppm tesseract).
Local Abbreviation pdfTitle := (pdfTitle TrimSpace).

Local Abbreviation ocr_effect := (ocr_effect tempDir).




End WithTools.

(** *** The numbering of [pdftoppm] *)

Lemma pad_length (w : nat) : forall n, String.length (pad w n) = w.
Proof.
  induction w as [|w IH]; intros n; cbn [pad]; [reflexivity|].
  rewrite length_append, IH. cbn. lia.
Qed.

Lemma digit_code (n : Z) :
  nat_of_ascii (GoTime.digit n) = (48 + Z.to_nat (n mod 10))%nat.
Proof.
  unfold GoTime.digit. apply nat_ascii_embedding.
  pose proof (Z.mod_pos_bound n 10 ltac:(lia)). lia.
Qed.

(** Padded to one width, smaller numbers come first in byte order. *)
Lemma pad_ascending (w : nat) :
  forall i j, 0 <= i < j -> j < 10 ^ Z.of_nat w ->
  GoStrings.leb (pad w i) (pad w j) = true /\ pad w i <> pad w j.
Proof.
  induction w as [|w IH]; intros i j Hij Hj.
  - cbn in Hj. lia.
  - cbn [pad].
    assert (Hpow : 10 ^ Z.of_nat (S w) = 10 * 10 ^ Z.of_nat w).
    { rewrite Nat2Z.inj_succ, Z.pow_succ_r by lia. reflexivity. }
    pose proof (Z.div_mod i 10 ltac:(lia)) as Di.
    pose proof (Z.div_mod j 10 ltac:(lia)) as Dj.
    pose proof (Z.mod_pos_bound i 10 ltac:(lia)) as Mi.
    pose proof (Z.mod_pos_bound j 10 ltac:(lia)) as Mj.
    destruct (Z.lt_ge_cases (i / 10) (j / 10)) as [Hlt|Hge].
    + destruct (IH (i / 10) (j / 10)) as [Hle Hne]; [lia|lia|].
      split.
      * apply leb_append_strict; [rewrite !pad_length; reflexivity| |];
          assumption.
      * intros E. apply Hne.
        apply (append_inj_l _ _ _ _ (eq_trans (pad_length w _)
                                       (eq_sym (pad_length w _))) E).
    + assert (Heq : i / 10 = j / 10) by lia.
      assert (Hm : i mod 10 < j mod 10) by lia.
      rewrite Heq. split.
      * rewrite leb_append_prefix. cbn [GoStrings.leb].
        rewrite !digit_code.
        replace (48 + Z.to_nat (i mod 10) <? 48 + Z.to_nat (j mod 10))%nat
          with true by (symmetry; apply Nat.ltb_lt; lia).
        reflexivity.
      * intros E.
        assert (E' : String (GoTime.digit i) EmptyString
                     = String (GoTime.digit j) EmptyString).
        { apply (f_equal (drop (String.length (pad w (j / 10))))) in E.
          rewrite !drop_length_append in E. exact E. }
        inversion E' as [E''].
        apply (f_equal nat_of_ascii) in E''. rewrite !digit_code in E''. lia.
Qed.

Lemma numbered_stems (w : nat) (scans : list (string * string)) :
  forall first p, In p (numbered w first scans) ->
  exists k, first <= k < first + Z.of_nat (List.length scans)
            /\ stem p = ("-" ++ pad w k)%string.
Proof.
  induction scans as [|[png text] scans IH]; intros first p Hin; [contradiction|].
  cbn [numbered List.length] in *. destruct Hin as [<-|Hin].
  - exists first. split; [lia|reflexivity].
  - destruct (IH _ _ Hin) as (k & Hk & Hs). exists k. split; [lia|exact Hs].
Qed.

(** The pages [pdftoppm] writes are named in page order. *)
Lemma numbered_in_page_order (w : nat) (scans : list (string * string)) :
  forall first, 0 <= first ->
  first + Z.of_nat (List.length scans) <= 10 ^ Z.of_nat w ->
  in_page_order (numbered w first scans).
Proof.
  induction scans as [|[png text] scans IH]; intros first H0 Hw;
    cbn [numbered]; [constructor|].
  cbn [List.length] in Hw. constructor.
  - apply IH; lia.
  - apply Forall_forall. intros p Hp.
    destruct (numbered_stems w scans _ p Hp) as (k & Hk & Hs).
    destruct (pad_ascending w first k) as [Hle Hne]; [lia|lia|].
    unfold ahead. cbn [stem]. rewrite Hs.
    split; [|split].
    + cbn [append String.length]. rewrite !pad_length. reflexivity.
    + rewrite (leb_append_prefix "-"). exact Hle.
    + intros E. inversion E. contradiction.
Qed.

Lemma scan_in_page_order : in_page_order scan_pages.
Proof.
  apply numbered_in_page_order; [lia|]. cbn. lia.
Qed.



Example processPDF_scan_title_and_order :
  snd (processPDF trim_ascii "/tmp/processPDF1" scan_pdfinfo scan_pdftotext
         scan_pdftoppm scan_tesseract scan_file)
  = ({| pdf_title := "Staff Report";
        pdf_text := ("nine " ++ Meetings.newline ++ "ten" ++ Meetings.newline
                     ++ "eleven")%string |}, None).
Proof. vm_compute. reflexivity. Qed.

Example processPDF_scan_sorted :
  snd (processPDF trim_ascii "/tmp/processPDF1" scan_pdfinfo scan_pdftotext
         scan_pdftoppm_rev scan_tesseract scan_file)
  = snd (processPDF trim_ascii "/tmp/processPDF1" scan_pdfinfo scan_pdftotext
           scan_pdftoppm scan_tesseract scan_file).
Proof. vm_compute. reflexivity. Qed.

End PDFFacts.

(** ** The external content pipeline *)
Module PipelineFacts.
Import GoTime GoTimeFacts Store Client Net Meetings Content Integrity
  OrchestratorSpec Runs CountFacts StatementFacts SaveMeetingFacts
  VersioningFacts.

Lemma timeValue_Value_Some (now : Time) :
  IsZero now = false -> timeValue_Value now <> None.
Proof. intros H. unfold timeValue_Value. rewrite H. discriminate. Qed.

Lemma find_map_key {A} (key : A -> string) (g : A -> A) (k : string)
  (rows : list A) :
  (forall r, key (g r) = key r) ->
  find (fun r => String.eqb (key r) k) (map g rows)
  = option_map g (find (fun r => String.eqb (key r) k) rows).
Proof.
  intros H. induction rows as [|r rows IH]; [reflexivity|].
  cbn [map find]. rewrite H. destruct (String.eqb (key r) k); [reflexivity|exact IH].
Qed.

Lemma In_firstn {A} (n : nat) (l : list A) (x : A) :
  In x (firstn n l) -> In x l.
Proof.
  intros H. rewrite <- (firstn_skipn n l). apply in_or_app. left. exact H.
Qed.

Lemma unfetched_row (db : DB) (u : string) :
  In u (unfetchedURLs db) ->
  exists r, In r (external_content_urls db) /\ ecu_url r = u
            /\ ecu_fetched r = None.
Proof.
  unfold unfetchedURLs. intros H. apply In_firstn in H.
  apply in_map_iff in H. destruct H as (r & Hu & Hr).
  apply filter_In in Hr. destruct Hr as [Hin Hf].
  exists r. repeat split; auto. destruct (ecu_fetched r); [discriminate|reflexivity].
Qed.

Lemma unfetched_present (db : DB) (u : string) :
  In u (unfetchedURLs db) ->
  existsb (fun r => String.eqb (ecu_url r) u) (external_content_urls db) = true.
Proof.
  intros H. destruct (unfetched_row db u H) as (r & Hin & Hu & _).
  apply existsb_exists. exists r. split; [exact Hin|].
  apply String.eqb_eq. exact Hu.
Qed.

Lemma terminal_not_unfetched (db : DB) (u : string) :
  terminal u db -> ~ In u (unfetchedURLs db).
Proof.
  intros [_ H] Hin. destruct (unfetched_row db u Hin) as (r & Hr & Hu & Hf).
  exact (H r Hr Hu Hf).
Qed.

(** An update that keeps the URLs and either sets [fetched] or leaves it. *)
Lemma terminal_update (u : string) (db : DB)
  (g : external_content_urls_row -> external_content_urls_row) :
  (forall r, ecu_url (g r) = ecu_url r) ->
  (forall r, ecu_fetched (g r) <> None \/ ecu_fetched (g r) = ecu_fetched r) ->
  terminal u db ->
  terminal u (with_external_content_urls db (map g (external_content_urls db))).
Proof.
  intros Hu Hf [He Hall]. unfold terminal, with_external_content_urls.
  cbn [external_content_urls]. split.
  - rewrite existsb_map; [exact He|]. intros r. rewrite Hu. reflexivity.
  - intros r' Hin Hr'. apply in_map_iff in Hin. destruct Hin as (r & <- & Hin).
    rewrite Hu in Hr'. destruct (Hf r) as [H|H]; [exact H|].
    rewrite H. apply Hall; assumption.
Qed.

Lemma terminal_saveErr (u u' : string) (db : DB) (now : Time) (e : error) :
  IsZero now = false -> terminal u db -> terminal u (saveErr db now u' e).
Proof.
  intros Hz. unfold saveErr. apply terminal_update; intros r;
    destruct (String.eqb (ecu_url r) u'); cbn; auto.
  left. apply timeValue_Value_Some. exact Hz.
Qed.

Lemma terminal_update_fetched (u u' id : string) (db : DB) (now : Time)
  (uc : urlContent) :
  IsZero now = false -> terminal u db -> terminal u (update_fetched db now uc id u').
Proof.
  intros Hz. unfold update_fetched. apply terminal_update; intros r;
    destruct (String.eqb (ecu_url r) u'); cbn; auto.
  left. apply timeValue_Value_Some. exact Hz.
Qed.

Lemma terminal_saveContent (u : string) (db : DB) (c : content) :
  terminal u db -> terminal u (saveContent db c).
Proof. intros H. exact H. Qed.

(** The rows [saveMeetingURLs] adds are for URLs that had no row. *)
Lemma saveMeetingURLs_rows (obs : Time) (mid cid : string) (a : MeetingAgenda) :
  forall tx r,
  In r (external_content_urls (saveMeetingURLs tx obs mid cid a)) ->
  In r (external_content_urls tx)
  \/ existsb (fun x => String.eqb (ecu_url x) (ecu_url r))
       (external_content_urls tx) = false.
Proof.
  unfold saveMeetingURLs.
  induction (ContentURLs a) as [|u us IH]; intros tx r Hin; [left; exact Hin|].
  cbn [fold_left] in Hin. apply IH in Hin.
  destruct (insert_link_frame (insert_external_content_url tx u (timeValue_Value obs))
              {| mecu_meeting_id := mid; mecu_agenda_content_id := cid;
                 mecu_external_content_url := u |}) as [_ El].
  rewrite El in Hin.
  unfold insert_external_content_url in Hin.
  destruct (existsb (fun r0 => String.eqb (ecu_url r0) u) (external_content_urls tx)) eqn:E;
    cbn [external_content_urls] in Hin.
  - exact Hin.
  - destruct Hin as [Hin|Hin].
    + apply in_app_iff in Hin. destruct Hin as [Hin|[<-|[]]]; [left; exact Hin|].
      right. exact E.
    + right. rewrite existsb_app in Hin. apply orb_false_iff in Hin. apply Hin.
Qed.

Lemma terminal_saveMeeting (sum : string -> string) (u : string) (db db' : DB)
  (m : Meeting) (a : MeetingAgenda) (obs : Time) :
  saveMeeting sum db m a obs = Ok db' -> terminal u db -> terminal u db'.
Proof.
  intros H [He Hall]. apply saveMeeting_Ok_inv in H. destruct H as [_ ->].
  set (txl := exec_lq _ _ _).
  assert (Hurls : external_content_urls txl = external_content_urls db).
  { unfold txl.
    destruct (lq_frame (exec_vq (mq (insert_agenda_content db (agendaContentID sum a) a)
                                   m (agendaContentID sum a))
                          (version_row sum m a obs)) (timeValue_Value obs) (ID m))
      as (_ & _ & _ & _ & _ & -> & _).
    destruct (vq_frame (mq (insert_agenda_content db (agendaContentID sum a) a)
                          m (agendaContentID sum a)) (version_row sum m a obs))
      as (_ & _ & _ & _ & _ & -> & _).
    destruct (mq_frame (insert_agenda_content db (agendaContentID sum a) a)
                m (agendaContentID sum a)) as (_ & _ & _ & _ & _ & -> & _).
    destruct (insert_agenda_content_frame db (agendaContentID sum a) a)
      as (_ & _ & _ & _ & -> & _).
    reflexivity. }
  destruct (saveMeetingURLs_spec obs (ID m) (agendaContentID sum a) a txl)
    as (_ & _ & Mono & _).
  split.
  - apply Mono. rewrite Hurls. exact He.
  - intros r Hin Hu.
    destruct (saveMeetingURLs_rows _ _ _ _ _ _ Hin) as [Hold|Hnew].
    + rewrite Hurls in Hold. apply Hall; assumption.
    + rewrite Hurls, Hu, He in Hnew. discriminate.
Qed.

Lemma saveContent_absent (db : DB) (c : content) :
  existsb (fun r => String.eqb (ec_id r) (c_id c)) (external_content db) = false ->
  external_content (saveContent db c)
  = external_content db
    ++ [{| ec_rowid := next_rowid ec_rowid (external_content db);
           ec_id := c_id c; ec_title := c_title c; ec_text := c_text c |}].
Proof. intros H. unfold saveContent. rewrite H. reflexivity. Qed.

Lemma saveContent_frame (db : DB) (c : content) :
  meeting_agenda_content (saveContent db c) = meeting_agenda_content db
  /\ meeting_agenda_content_search (saveContent db c)
     = meeting_agenda_content_search db
  /\ meetings (saveContent db c) = meetings db
  /\ meeting_versions (saveContent db c) = meeting_versions db
  /\ external_content_urls (saveContent db c) = external_content_urls db
  /\ meeting_external_content_urls (saveContent db c)
     = meeting_external_content_urls db.
Proof. repeat split. Qed.

(** A new content row and its index row keep the index in step. *)
Lemma saveContent_wf (db : DB) (c : content) :
  existsb (fun r => String.eqb (ec_id r) (c_id c)) (external_content db) = false ->
  key_unique ec_id (external_content db) ->
  index_mirrors ecs_rowid (external_content_search db)
    ec_rowid (external_content db) ->
  key_unique ec_id (external_content (saveContent db c))
  /\ index_mirrors ecs_rowid (external_content_search (saveContent db c))
       ec_rowid (external_content (saveContent db c)).
Proof.
  intros E U [M1 M2]. unfold saveContent. rewrite E.
  cbn [external_content external_content_search].
  unfold rowid_of. rewrite find_app_absent by exact E.
  cbn [find ec_id]. rewrite String.eqb_refl. cbn [option_map ec_rowid].
  split.
  - apply (key_unique_insert ec_id _
             {| ec_rowid := next_rowid ec_rowid (external_content db);
                ec_id := c_id c; ec_title := c_title c; ec_text := c_text c |} U).
    exact E.
  - split; intros z; rewrite !count_app, !count_one; cbn [ec_rowid ecs_rowid].
    + destruct (next_rowid ec_rowid (external_content db) =? z) eqn:Ez.
      * apply Z.eqb_eq in Ez. subst z. rewrite next_rowid_fresh. lia.
      * specialize (M1 z). lia.
    + rewrite M2. reflexivity.
Qed.

Lemma wf_update_urls (db : DB)
  (g : external_content_urls_row -> external_content_urls_row) :
  (forall r, ecu_url (g r) = ecu_url r) ->
  wf db ->
  wf (with_external_content_urls db (map g (external_content_urls db))).
Proof.
  intros Hu [W1 W2 W3 W4 W5 W6 W7 W8].
  split; unfold with_external_content_urls;
    cbn [meeting_agenda_content meeting_agenda_content_search meetings
         meeting_versions external_content external_content_search
         external_content_urls meeting_external_content_urls]; auto.
  intros k. rewrite count_map; [apply W7|].
  intros r. rewrite Hu. reflexivity.
Qed.

Section WithEnvironment.

Variable sum224_base62 : string -> string.
Variable TrimSpace : string -> string.
Variable parseRFC1123 : string -> result Time.
Variable get : string -> RoundTrip.
Variable tempFile : string.
Variable tempDir : string.
Variable pdfinfo : string -> result string.
Variable pdftotext : string -> result string.
Variable pdftoppm : string -> result (list (string * string)).
Variable tesseract : string -> result string.

Local Abbreviation fetchURLContent :=
  (fetchURLContent sum224_base62 parseRFC1123 get tempFile).
Local Abbreviation processPDF :=
  (processPDF TrimSpace tempDir pdfinfo pdftotext pdftoppm tesseract).
Local Abbreviation processURL :=
  (processURL sum224_base62 TrimSpace parseRFC1123 get tempFile tempDir
     pdfinfo pdftotext pdftoppm tesseract).

Lemma fetchURLContent_Ok (u : string) (effs : list Effect) (uc : urlContent) :
  fetchURLContent u = (effs, Ok uc) ->
  effs = [HTTPRequest "GET" u]
  /\ uc_contentID uc = sum224_base62 (f_bytes (uc_f uc))
  /\ uc_size uc = Z.of_nat (String.length (f_bytes (uc_f uc))).
Proof.
  unfold Content.fetchURLContent.
  destruct (get u) as [e|e|resp]; try discriminate.
  destruct (negb (StatusCode resp =? 200)); [discriminate|].
  destruct (Body resp) as [body|e]; [|discriminate].
  intros H. inversion H. subst. cbn. auto.
Qed.

Lemma fetchURLContent_no_tool (u cmd : string) :
  count (is_Exec cmd) (fst (fetchURLContent u)) = 0%nat.
Proof.
  unfold Content.fetchURLContent.
  destruct (get u) as [e|e|resp]; try reflexivity.
  destruct (negb (StatusCode resp =? 200)); [reflexivity|].
  destruct (Body resp) as [body|e]; reflexivity.
Qed.

Lemma ocrPages_no_pdfinfo (names : list string) :
  forall td,
  count (is_Exec "pdfinfo") (fst (ocrPages tempDir tesseract td names)) = 0%nat.
Proof.
  induction names as [|n names IH]; intros td; [reflexivity|].
  cbn [ocrPages].
  destruct (bind (ReadFile td n) tesseract) as [t|e]; [|reflexivity].
  specialize (IH (WriteFile td (n ++ ".txt") t)).
  destruct (ocrPages tempDir tesseract (WriteFile td (n ++ ".txt") t) names)
    as [effs r].
  cbn [fst] in *. rewrite count_cons, IH. reflexivity.
Qed.

(** Every run of [processPDF] starts [pdfinfo] exactly once. *)
Lemma processPDF_once (f : File) :
  count (is_Exec "pdfinfo") (fst (processPDF f)) = 1%nat.
Proof.
  unfold Content.processPDF.
  destruct (pdfinfo (f_bytes f)) as [info|e]; [|reflexivity].
  destruct (pdftotext (f_bytes f)) as [out|e]; [|reflexivity].
  destruct (negb (String.eqb (TrimSpace out) "")); [reflexivity|].
  destruct (pdftoppm (f_bytes f)) as [images|e]; [|reflexivity].
  match goal with
  | |- context [ocrPages tempDir tesseract ?td ?names] =>
      pose proof (ocrPages_no_pdfinfo names td) as Hocr;
      destruct (ocrPages tempDir tesseract td names) as [effs [td'|e]]
  end; cbn [fst] in Hocr.
  - match goal with
    | |- context [readTexts ?td ?fns ?acc] =>
        destruct (readTexts td fns acc)
    end; cbn [fst]; rewrite count_app, Hocr; reflexivity.
  - cbn [fst]. rewrite count_app, Hocr. reflexivity.
Qed.

(** The branches of [processURL] after a successful fetch. *)
Lemma processURL_fetched (db : DB) (now : Time) (u : string)
  (effs : list Effect) (uc : urlContent) :
  fetchURLContent u = (effs, Ok uc) ->
  let id := uc_contentID uc in
  let known := existsb (fun r => String.eqb (ec_id r) id) (external_content db) in
  let pdf := String.eqb (uc_contentType uc) "application/pdf" in
  let extraction := processPDF (uc_f uc) in
  let c := if negb known && pdf
           then {| c_id := id; c_title := pdf_title (fst (snd extraction));
                   c_text := pdf_text (fst (snd extraction)) |}
           else {| c_id := id; c_title := ""; c_text := "" |} in
  processURL db now u
  = (effs ++ (if negb known && pdf then fst extraction else []),
     update_fetched (if known then db else saveContent db c) now uc id u,
     Ok tt).
Proof.
  intros H. cbv zeta. unfold Content.processURL. rewrite H.
  unfold contentExists. cbn [c_id].
  destruct (existsb _ (external_content db)); cbn [negb andb].
  - rewrite app_nil_r. reflexivity.
  - destruct (String.eqb (uc_contentType uc) "application/pdf").
    + destruct (processPDF (uc_f uc)) as [effs' [p perr]]. reflexivity.
    + rewrite app_nil_r. reflexivity.
Qed.

Lemma terminal_processURL (u u' : string) (db : DB) (now : Time) :
  IsZero now = false -> terminal u db ->
  terminal u (snd (fst (processURL db now u'))).
Proof.
  intros Hz Ht.
  destruct (fetchURLContent u') as [effs [uc|ferr]] eqn:E.
  - rewrite (processURL_fetched db now u' effs uc E). cbn [fst snd].
    apply terminal_update_fetched; [exact Hz|].
    destruct (existsb _ (external_content db)); [exact Ht|].
    apply terminal_saveContent. exact Ht.
  - unfold Content.processURL. rewrite E. cbn [fst snd].
    apply terminal_saveErr; assumption.
Qed.

Lemma wf_processURL (db : DB) (now : Time) (u : string) :
  wf db -> wf (snd (fst (processURL db now u))).
Proof.
  intros Hwf.
  destruct (fetchURLContent u) as [effs [uc|ferr]] eqn:E.
  - rewrite (processURL_fetched db now u effs uc E). cbn [fst snd].
    unfold update_fetched. apply wf_update_urls.
    { intros r. destruct (String.eqb (ecu_url r) u); reflexivity. }
    destruct (existsb _ (external_content db)) eqn:Ek; [exact Hwf|].
    cbn [negb andb].
    set (c := if String.eqb (uc_contentType uc) "application/pdf" then _ else _).
    assert (Hc : c_id c = uc_contentID uc)
      by (subst c; destruct (String.eqb _ _); reflexivity).
    destruct Hwf as [W1 W2 W3 W4 W5 W6 W7 W8].
    destruct (saveContent_wf db c) as [K I]; try assumption.
    { rewrite Hc. exact Ek. }
    split; auto.
  - unfold Content.processURL. rewrite E. cbn [fst snd].
    unfold saveErr. apply wf_update_urls; [|exact Hwf].
    intros r. destruct (String.eqb (ecu_url r) u); reflexivity.
Qed.

End WithEnvironment.

(** Every store the program can reach from a new one satisfies the
    constraints. *)
Lemma wf_later (db db' : DB) : later db db' -> wf db -> wf db'.
Proof.
  induction 1 as [|d d' d'' Hs _ IH]; intros H; [exact H|].
  apply IH. destruct Hs as [sum d d' m a obs Hs|sum ts p g tf td i t pp te d now u' Hz].
  - exact (saveMeeting_wf sum _ _ _ _ _ H Hs).
  - apply wf_processURL. exact H.
Qed.

Lemma terminal_step (u : string) (db db' : DB) :
  step db db' -> terminal u db -> terminal u db'.
Proof.
  intros [sum d d' m a obs H|sum ts p g tf td i t pp te d now u' Hz].
  - apply (terminal_saveMeeting sum u d d' m a obs H).
  - apply terminal_processURL. exact Hz.
Qed.

Lemma terminal_later (u : string) (db db' : DB) :
  later db db' -> terminal u db -> terminal u db'.
Proof.
  induction 1 as [|d d' d'' Hs _ IH]; intros H; [exact H|].
  apply IH. apply (terminal_step u d d' Hs H).
Qed.

End PipelineFacts.

(** ** [processURL] *)
Module ProcessURLFacts.
Import GoTime GoTimeFacts Store Client Net Meetings Content Integrity
  OrchestratorSpec Runs CountFacts StatementFacts SaveMeetingFacts
  VersioningFacts PipelineFacts Scenario ScannedDocument Documents.

Lemma find_url_row (db : DB) (u : string) :
  existsb (fun r => String.eqb (ecu_url r) u) (external_content_urls db) = true ->
  exists r, find (fun r => String.eqb (ecu_url r) u) (external_content_urls db)
            = Some r /\ ecu_url r = u.
Proof.
  intros H. destruct (find_present _ _ H) as (r & Hf & _ & Hp).
  exists r. split; [exact Hf|]. apply String.eqb_eq. exact Hp.
Qed.

Lemma update_fetched_ref (db : DB) (now : Time) (uc : urlContent) (id u : string) :
  existsb (fun r => String.eqb (ecu_url r) u) (external_content_urls db) = true ->
  content_ref (update_fetched db now uc id u) u = Some (Some id)
  /\ fetch_state (update_fetched db now uc id u) u
     = Some (timeValue_Value now, None).
Proof.
  intros H. destruct (find_url_row db u H) as (r & Hf & Hu).
  unfold content_ref, fetch_state, update_fetched, with_external_content_urls.
  cbn [external_content_urls].
  rewrite find_map_key by (intros x; destruct (String.eqb (ecu_url x) u); reflexivity).
  rewrite Hf. cbn [option_map]. rewrite Hu, String.eqb_refl. split; reflexivity.
Qed.

Lemma update_fetched_other (db : DB) (now : Time) (uc : urlContent)
  (id u u' : string) :
  u' <> u ->
  content_ref (update_fetched db now uc id u) u' = content_ref db u'.
Proof.
  intros Hne.
  unfold content_ref, update_fetched, with_external_content_urls.
  cbn [external_content_urls].
  rewrite find_map_key by (intros x; destruct (String.eqb (ecu_url x) u); reflexivity).
  destruct (find _ (external_content_urls db)) as [r|] eqn:Hf; [|reflexivity].
  apply find_some in Hf. destruct Hf as [_ Hu]. apply String.eqb_eq in Hu.
  cbn [option_map]. rewrite Hu.
  rewrite (proj2 (String.eqb_neq u' u) Hne). reflexivity.
Qed.

Lemma update_fetched_present (db : DB) (now : Time) (uc : urlContent)
  (id u : string) (p : string) :
  existsb (fun r => String.eqb (ecu_url r) p)
    (external_content_urls (update_fetched db now uc id u))
  = existsb (fun r => String.eqb (ecu_url r) p) (external_content_urls db).
Proof.
  unfold update_fetched, with_external_content_urls. cbn [external_content_urls].
  apply existsb_map. intros x. destruct (String.eqb (ecu_url x) u); reflexivity.
Qed.

Section WithEnvironment.

Variable sum224_base62 : string -> string.
Variable TrimSpace : string -> string.
Variable parseRFC1123 : string -> result Time.
Variable get : string -> RoundTrip.
Variable tempFile : string.
Variable tempDir : string.
Variable pdfinfo : string -> result string.
Variable pdftotext : string -> result string.
Variable pdftoppm : string -> result (list (string * string)).
Variable tesseract : string -> result string.
Variable clock : nat -> Time.

Local Abbreviation fetchURLContent :=
  (fetchURLContent sum224_base62 parseRFC1123 get tempFile).
Local Abbreviation processPDF :=
  (processPDF TrimSpace tempDir pdfinfo pdftotext pdftoppm tesseract).
Local Abbreviation processURL :=
  (processURL sum224_base62 TrimSpace parseRFC1123 get tempFile tempDir
     pdfinfo pdftotext pdftoppm tesseract).
Local Abbreviation processURLs :=
  (processURLs sum224_base62 TrimSpace parseRFC1123 get tempFile tempDir
     pdfinfo pdftotext pdftoppm tesseract clock).

(** C8. When the fetch of a backlog URL fails, [processURL] returns no
    error and leaves the row with a [fetched] time and the error
    message; the loop of the pipeline goes on with the next URL (unless
    the time budget is used up); and after any later writes of the
    program the URL is not in the backlog again.  A transport failure
    and a status other than 200 are such failures. *)
Theorem processURL_fetch_error (db : DB) (now : Time) (u : string)
  (effs : list Effect) (ferr : error)
  (Hfetch : fetchURLContent u = (effs, Err ferr))
  (Hnow : IsZero now = false)
  (Hrow : In u (unfetchedURLs db)) :
  let db' := saveErr db now u ferr in
  processURL db now u = (effs, db', Ok tt)
  /\ (exists fetched,
        fetch_state db' u = Some (Some fetched, Some ferr))
  /\ (forall db'', later db' db'' -> ~ In u (unfetchedURLs db''))
  /\ (forall rest start k, clock k = now ->
        processURLs db (u :: rest) start k
        = if 30 * Minute <? Sub (clock (S k)) start then (effs, db', Ok tt)
          else let '(effs', db'', r) := processURLs db' rest start (S (S k)) in
               (effs ++ effs', db'', r))
  /\ (forall e, get u = DoError e ->
        fetchURLContent u = ([HTTPRequest "GET" u], Err (wrap "fetch" e)))
  /\ (forall resp, get u = Responded resp -> StatusCode resp <> 200 ->
        fetchURLContent u
        = ([HTTPRequest "GET" u],
           Err ("fetch: bad status " ++ itoa (StatusCode resp))%string)).
Proof.
  cbv zeta.
  assert (Hp : processURL db now u = (effs, saveErr db now u ferr, Ok tt)).
  { unfold Content.processURL. rewrite Hfetch. reflexivity. }
  pose proof (unfetched_present db u Hrow) as He.
  destruct (find_url_row db u He) as (r & Hf & Hu).
  assert (Hstate : fetch_state (saveErr db now u ferr) u
                   = Some (timeValue_Value now, Some ferr)).
  { unfold fetch_state, saveErr, with_external_content_urls.
    cbn [external_content_urls].
    rewrite find_map_key
      by (intros x; destruct (String.eqb (ecu_url x) u); reflexivity).
    rewrite Hf. cbn [option_map]. rewrite Hu, String.eqb_refl. reflexivity. }
  assert (Hterm : terminal u (saveErr db now u ferr)).
  { split.
    - unfold saveErr, with_external_content_urls. cbn [external_content_urls].
      rewrite existsb_map; [exact He|].
      intros x. destruct (String.eqb (ecu_url x) u) eqn:Ex;
        cbn [ecu_url]; rewrite ?Ex; reflexivity.
    - unfold saveErr, with_external_content_urls. cbn [external_content_urls].
      intros r' Hin Hr'. apply in_map_iff in Hin. destruct Hin as (x & <- & _).
      destruct (String.eqb (ecu_url x) u) eqn:Ex.
      + cbn [ecu_fetched]. apply timeValue_Value_Some. exact Hnow.
      + apply String.eqb_neq in Ex. contradiction. }
  split; [exact Hp|]. split.
  { rewrite Hstate. unfold timeValue_Value. rewrite Hnow. eexists. reflexivity. }
  split.
  { intros db'' Hl. apply terminal_not_unfetched.
    apply (terminal_later u _ _ Hl Hterm). }
  split.
  { intros rest start k Hk. cbn [Content.processURLs]. rewrite Hk, Hp.
    reflexivity. }
  split.
  - intros e Hg. unfold Content.fetchURLContent. rewrite Hg. reflexivity.
  - intros resp Hg Hs. unfold Content.fetchURLContent. rewrite Hg.
    apply Z.eqb_neq in Hs. rewrite Hs. reflexivity.
Qed.

(** C6. Two different URLs with rows in the store whose fetched
    bodies are the same bytes: both fetches give the content ID that is
    the digest of the bytes; after processing one and then the other
    the store has exactly one [external_content] row with that ID, both
    URL rows refer to it, and [processPDF] was started at most once. *)
Theorem processURL_dedup (db : DB) (now1 now2 : Time) (u1 u2 : string)
  (effs1 effs2 : list Effect) (uc1 uc2 : urlContent)
  (Hwf : wf db)
  (Hne : u1 <> u2)
  (H1 : fetchURLContent u1 = (effs1, Ok uc1))
  (H2 : fetchURLContent u2 = (effs2, Ok uc2))
  (Hbody : f_bytes (uc_f uc1) = f_bytes (uc_f uc2))
  (Hr1 : existsb (fun r => String.eqb (ecu_url r) u1)
           (external_content_urls db) = true)
  (Hr2 : existsb (fun r => String.eqb (ecu_url r) u2)
           (external_content_urls db) = true) :
  let id := sum224_base62 (f_bytes (uc_f uc1)) in
  let first := processURL db now1 u1 in
  let db1 := snd (fst first) in
  let second := processURL db1 now2 u2 in
  let db2 := snd (fst second) in
  uc_contentID uc1 = id /\ uc_contentID uc2 = id
  /\ snd first = Ok tt /\ snd second = Ok tt
  /\ count (fun r => String.eqb (ec_id r) id) (external_content db2) = 1%nat
  /\ content_ref db2 u1 = Some (Some id)
  /\ content_ref db2 u2 = Some (Some id)
  /\ (count (is_Exec "pdfinfo") (fst (fst first) ++ fst (fst second)) <= 1)%nat.
Proof.
  cbv zeta.
  destruct (fetchURLContent_Ok _ _ _ _ _ _ _ H1) as (_ & Hid1 & _).
  destruct (fetchURLContent_Ok _ _ _ _ _ _ _ H2) as (_ & Hid2 & _).
  rewrite <- Hbody, <- Hid1 in Hid2. rewrite <- Hid1.
  rewrite (processURL_fetched _ _ _ _ _ _ _ _ _ _ db now1 u1 effs1 uc1 H1).
  cbn [fst snd].
  set (id := uc_contentID uc1) in *.
  set (known := existsb (fun r => String.eqb (ec_id r) id) (external_content db)).
  set (c := if negb known && String.eqb (uc_contentType uc1) "application/pdf"
            then _ else _).
  assert (Hc : c_id c = id) by (subst c; destruct (negb known && _); reflexivity).
  set (dbc := if known then db else saveContent db c).
  assert (Hone : count (fun r => String.eqb (ec_id r) id) (external_content dbc)
                 = 1%nat).
  { subst dbc. destruct known eqn:Ek.
    - pose proof (count_present _ _ Ek).
      pose proof (wf_external_content_key db Hwf id). lia.
    - rewrite saveContent_absent by (rewrite Hc; exact Ek).
      rewrite count_app, count_one. cbn [ec_id]. rewrite Hc, String.eqb_refl.
      rewrite (count_absent _ _ Ek). reflexivity. }
  assert (Hurls : external_content_urls dbc = external_content_urls db)
    by (subst dbc; destruct known; reflexivity).
  set (db1 := update_fetched dbc now1 uc1 id u1).
  assert (Hknown1 : existsb (fun r => String.eqb (ec_id r) (uc_contentID uc2))
                      (external_content db1) = true).
  { rewrite Hid2. change (external_content db1) with (external_content dbc).
    apply not_false_iff_true. intros E. apply count_absent in E.
    fold id in E. lia. }
  rewrite (processURL_fetched _ _ _ _ _ _ _ _ _ _ db1 now2 u2 effs2 uc2 H2).
  rewrite Hknown1. cbn [fst snd negb andb].
  rewrite Hid2. fold id.
  split; [reflexivity|]. split; [reflexivity|].
  split; [reflexivity|]. split; [reflexivity|].
  split; [exact Hone|]. split; [|split].
  - rewrite update_fetched_other by exact Hne.
    apply update_fetched_ref. rewrite Hurls. exact Hr1.
  - apply update_fetched_ref. unfold db1.
    rewrite update_fetched_present, Hurls. exact Hr2.
  - rewrite !count_app.
    pose proof (fetchURLContent_no_tool sum224_base62 parseRFC1123 get tempFile
                  u1 "pdfinfo") as F1.
    pose proof (fetchURLContent_no_tool sum224_base62 parseRFC1123 get tempFile
                  u2 "pdfinfo") as F2.
    rewrite H1 in F1. rewrite H2 in F2. cbn [fst] in F1, F2.
    rewrite F1, F2.
    destruct (negb known && String.eqb (uc_contentType uc1) "application/pdf").
    + rewrite processPDF_once. cbn. lia.
    + cbn. lia.
Qed.

(** C2, what the code does.  When the document is new, is declared a
    PDF and [processPDF] fails, [processURL] does not record the
    failure: it stores a content row with empty title and text, and
    leaves the URL row with no error and a reference to that row. *)
Theorem processURL_extraction_error (db : DB) (now : Time) (u : string)
  (effs effs' : list Effect) (uc : urlContent) (p : pdf) (perr : error)
  (Hfetch : fetchURLContent u = (effs, Ok uc))
  (Hnew : existsb (fun r => String.eqb (ec_id r) (uc_contentID uc))
            (external_content db) = false)
  (Hpdf : uc_contentType uc = "application/pdf")
  (Hfail : processPDF (uc_f uc) = (effs', (p, Some perr)))
  (Hrow : existsb (fun r => String.eqb (ecu_url r) u)
            (external_content_urls db) = true) :
  let id := uc_contentID uc in
  let db' := snd (fst (processURL db now u)) in
  p = {| pdf_title := ""; pdf_text := "" |}
  /\ processURL db now u
     = (effs ++ effs',
        update_fetched
          (saveContent db {| c_id := id; c_title := ""; c_text := "" |})
          now uc id u,
        Ok tt)
  /\ fetch_state db' u = Some (timeValue_Value now, None)
  /\ content_ref db' u = Some (Some id)
  /\ exists row,
       find (fun r => String.eqb (ec_id r) id) (external_content db')
       = Some row
       /\ ec_title row = "" /\ ec_text row = "".
Proof.
  cbv zeta.
  assert (Hp : p = {| pdf_title := ""; pdf_text := "" |}).
  { revert Hfail. unfold Content.processPDF.
    destruct (pdfinfo _); [|intros H; inversion H; reflexivity].
    destruct (pdftotext _); [|intros H; inversion H; reflexivity].
    destruct (negb _); [discriminate|].
    destruct (pdftoppm _); [|intros H; inversion H; reflexivity].
    destruct (ocrPages _ _ _ _) as [e [td|err]];
      [|intros H; inversion H; reflexivity].
    destruct (readTexts _ _ _); [discriminate|].
    intros H; inversion H; reflexivity. }
  split; [exact Hp|].
  rewrite (processURL_fetched _ _ _ _ _ _ _ _ _ _ db now u effs uc Hfetch).
  rewrite Hnew, Hpdf, Hfail, String.eqb_refl. cbn [negb andb fst snd].
  rewrite Hp. cbn [pdf_title pdf_text].
  split; [reflexivity|].
  split; [apply update_fetched_ref; exact Hrow|].
  split; [apply update_fetched_ref; exact Hrow|].
  eexists. split.
  - change (external_content (update_fetched ?d _ _ _ _))
      with (external_content d).
    rewrite saveContent_absent by exact Hnew.
    rewrite find_app_absent by exact Hnew.
    cbn. rewrite String.eqb_refl. reflexivity.
  - split; reflexivity.
Qed.

End WithEnvironment.

(** *** The theorems on the documents of the examples *)

Local Abbreviation run_processURL :=
  (processURL plain_sum trim_ascii no_rfc1123 documents_get
     "/tmp/fetchURLContent1" "/tmp/processPDF1"
     scan_pdfinfo scan_pdftotext scan_pdftoppm scan_tesseract).

Local Abbreviation run_fetchURLContent :=
  (fetchURLContent plain_sum no_rfc1123 documents_get "/tmp/fetchURLContent1").

Lemma crawled_Ok :
  saveMeeting plain_sum emptyDB meeting_today agenda_documents noon = Ok crawled.
Proof. vm_compute. reflexivity. Qed.

Lemma wf_crawled : wf crawled.
Proof. exact (saveMeeting_wf plain_sum _ _ _ _ _ wf_emptyDB crawled_Ok). Qed.

Lemma backlog_crawled :
  unfetchedURLs crawled = [url_a; url_b; url_broken; url_gone].
Proof. vm_compute. reflexivity. Qed.

Lemma processURL_fetch_error_witness :
  run_fetchURLContent url_gone
  = ([HTTPRequest "GET" url_gone], Err "fetch: bad status 404")
  /\ IsZero one_oclock = false
  /\ In url_gone (unfetchedURLs crawled)
  /\ run_processURL crawled one_oclock url_gone
     = ([HTTPRequest "GET" url_gone],
        saveErr crawled one_oclock url_gone "fetch: bad status 404", Ok tt)
  /\ ~ In url_gone
        (unfetchedURLs (saveErr crawled one_oclock url_gone "fetch: bad status 404")).
Proof.
  assert (Hf : run_fetchURLContent url_gone
               = ([HTTPRequest "GET" url_gone], Err "fetch: bad status 404"))
    by (vm_compute; reflexivity).
  assert (Hz : IsZero one_oclock = false) by (vm_compute; reflexivity).
  assert (Hin : In url_gone (unfetchedURLs crawled))
    by (rewrite backlog_crawled; cbn; auto 10).
  split; [exact Hf|]. split; [exact Hz|]. split; [exact Hin|].
  pose proof (processURL_fetch_error plain_sum trim_ascii no_rfc1123
                documents_get "/tmp/fetchURLContent1" "/tmp/processPDF1"
                scan_pdfinfo scan_pdftotext scan_pdftoppm scan_tesseract
                (fun _ => one_oclock) crawled one_oclock url_gone
                [HTTPRequest "GET" url_gone] "fetch: bad status 404"
                Hf Hz Hin) as H.
  cbv zeta in H. destruct H as (H1 & _ & H3 & _).
  split; [exact H1|]. apply H3. apply later_now.
Defined.

Lemma processURL_dedup_witness :
  wf crawled /\ url_a <> url_b
  /\ run_fetchURLContent url_a = ([HTTPRequest "GET" url_a], Ok (fetched_pdf "scan"))
  /\ run_fetchURLContent url_b = ([HTTPRequest "GET" url_b], Ok (fetched_pdf "scan"))
  /\ (let db2 := snd (fst (run_processURL
                             (snd (fst (run_processURL crawled one_oclock url_a)))
                             one_oclock url_b)) in
      count (fun r => String.eqb (ec_id r) "scan") (external_content db2) = 1%nat
      /\ content_ref db2 url_a = Some (Some "scan")
      /\ content_ref db2 url_b = Some (Some "scan")).
Proof.
  assert (Hne : url_a <> url_b) by discriminate.
  assert (Ha : run_fetchURLContent url_a
               = ([HTTPRequest "GET" url_a], Ok (fetched_pdf "scan")))
    by (vm_compute; reflexivity).
  assert (Hb : run_fetchURLContent url_b
               = ([HTTPRequest "GET" url_b], Ok (fetched_pdf "scan")))
    by (vm_compute; reflexivity).
  split; [exact wf_crawled|]. split; [exact Hne|].
  split; [exact Ha|]. split; [exact Hb|].
  pose proof (processURL_dedup plain_sum trim_ascii no_rfc1123 documents_get
                "/tmp/fetchURLContent1" "/tmp/processPDF1"
                scan_pdfinfo scan_pdftotext scan_pdftoppm scan_tesseract
                crawled one_oclock one_oclock url_a url_b
                [HTTPRequest "GET" url_a] [HTTPRequest "GET" url_b]
                (fetched_pdf "scan") (fetched_pdf "scan")
                wf_crawled Hne Ha Hb eq_refl
                ltac:(vm_compute; reflexivity) ltac:(vm_compute; reflexivity)) as H.
  cbv zeta in H. destruct H as (_ & _ & _ & _ & H5 & H6 & H7 & _).
  cbv zeta. split; [exact H5|]. split; [exact H6|exact H7].
Defined.

Lemma processURL_extraction_error_witness :
  scan_pdfinfo "broken" = Err "exit status 1"
  /\ (let db' := snd (fst (run_processURL crawled one_oclock url_broken)) in
      fetch_state db' url_broken = Some (timeValue_Value one_oclock, None)
      /\ content_ref db' url_broken = Some (Some "broken")).
Proof.
  split; [reflexivity|].
  pose proof (processURL_extraction_error plain_sum trim_ascii no_rfc1123
                documents_get "/tmp/fetchURLContent1" "/tmp/processPDF1"
                scan_pdfinfo scan_pdftotext scan_pdftoppm scan_tesseract
                crawled one_oclock url_broken
                [HTTPRequest "GET" url_broken]
                [Exec "pdfinfo" ["/tmp/fetchURLContent1"]]
                (fetched_pdf "broken") {| pdf_title := ""; pdf_text := "" |}
                "pdfinfo: exit status 1"
                ltac:(vm_compute; reflexivity) ltac:(vm_compute; reflexivity)
                eq_refl ltac:(vm_compute; reflexivity)
                ltac:(vm_compute; reflexivity)) as H.
  cbv zeta in H. destruct H as (_ & _ & H3 & H4 & _).
  cbv zeta. split; [exact H3|exact H4].
Defined.

(** The row of the URL whose PDF could not be read, as the code leaves
    it: fetched, no error, a content reference. *)
Example processURL_broken_pdf_row :
  find (fun r => String.eqb (ecu_url r) url_broken)
    (external_content_urls
       (snd (fst (run_processURL crawled one_oclock url_broken))))
  = Some {| ecu_url := url_broken;
            ecu_added := timeValue_Value noon;
            ecu_fetched := timeValue_Value one_oclock;
            ecu_content_type := Some "application/pdf";
            ecu_size := Some 6;
            ecu_last_modified := None;
            ecu_etag := Some "v1";
            ecu_error := None;
            ecu_external_content_id := Some "broken" |}.
Proof. vm_compute. reflexivity. Qed.

End ProcessURLFacts.

(** ** Times in the store *)
Module StoredTimeFacts.
Import GoTime GoTimeFacts Store Client Meetings Integrity FreshnessFacts
  VersioningFacts Scenario.

Lemma Millisecond_eq : Millisecond = 1000000.
Proof. reflexivity. Qed.




(** One nanosecond after the zero time: stored as the zero time, which
    the next write turns into NULL. *)
Example timeValue_first_millisecond :
  timeValue_Value (zeroTime + 1) = Some zeroTime
  /\ timeValue_Value (timeValue_Scan (timeValue_Value (zeroTime + 1))) = None.
Proof. split; vm_compute; reflexivity. Qed.

Lemma fresh_of_observed (db : DB) (m : Meeting) (obs now src : Z) :
  select_last_observed db (ID m) = Some (timeValue_Value obs) ->
  IsZero obs = false ->
  now < obs + 58 * Minute - Millisecond ->
  isMeetingFresh db m now src = true.
Proof.
  intros Hsel Hobs Hnow.
  unfold timeValue_Value in Hsel. rewrite Hobs in Hsel.
  rewrite (isMeetingFresh_recorded _ _ _ _ _ Hsel).
  apply Z.ltb_lt.
  pose proof (threshold_bounds (Date (Event m)) now src) as Hb.
  pose proof (Z.div_mod obs Millisecond ltac:(rewrite Millisecond_eq; lia)) as D.
  pose proof (Z.mod_pos_bound obs Millisecond ltac:(rewrite Millisecond_eq; lia)) as M.
  lia.
Qed.

Section WithDigest.

Variable sum224_base62 : string -> string.

Lemma saveMeeting_select (db db1 : DB) (m : Meeting) (a : MeetingAgenda)
  (obs : Time) :
  saveMeeting sum224_base62 db m a obs = Ok db1 ->
  select_last_observed db1 (ID m) = Some (timeValue_Value obs).
Proof.
  intros Hsave.
  destruct (saveMeeting_tables sum224_base62 _ _ _ _ _ Hsave)
    as (_ & _ & _ & _ & _ & T6 & T7 & _).
  unfold select_last_observed.
  destruct (CountFacts.find_present _ _ T6) as (r & Hf & Hin & Hp).
  rewrite Hf. cbn [option_map]. apply String.eqb_eq in Hp.
  rewrite (T7 r Hin Hp). reflexivity.
Qed.

(** X2. A meeting that was saved is fresh until 58 minutes less a
    millisecond after the observation: [isMeetingFresh] on the store
    [saveMeeting] left returns true at every time before that bound,
    whatever the jitter and the date of the meeting.  (The observation
    time is not the zero time.) *)
Theorem saved_meeting_is_fresh (db db1 : DB) (m : Meeting)
  (a : MeetingAgenda) (obs now src : Z)
  (Hsave : saveMeeting sum224_base62 db m a obs = Ok db1)
  (Hobs : IsZero obs = false)
  (Hnow : now < obs + 58 * Minute - Millisecond) :
  isMeetingFresh db1 m now src = true.
Proof.
  exact (fresh_of_observed db1 m obs now src
           (saveMeeting_select _ _ _ _ _ Hsave) Hobs Hnow).
Qed.

End WithDigest.

Lemma saved_meeting_is_fresh_witness :
  isMeetingFresh saved_once meeting_today (noon + 57 * Minute) 3 = true.
Proof.
  apply (saved_meeting_is_fresh plain_sum emptyDB saved_once meeting_today
           agenda_today noon (noon + 57 * Minute) 3 saved_once_Ok).
  - vm_compute. reflexivity.
  - vm_compute. reflexivity.
Defined.

End StoredTimeFacts.

(** ** The calendar of the eScribe source *)
Module CalendarFacts.
Import GoTime GoStrings Store Client Net Meetings Escribe EscribeSpec
  CountFacts Scenario Scenario2.

Lemma find_snoc {A} (p : A -> bool) (l : list A) (x : A) :
  find p (l ++ [x])
  = match find p l with
    | Some y => Some y
    | None => if p x then Some x else None
    end.
Proof.
  induction l as [|y l IH]; cbn; [destruct (p x); reflexivity|].
  destruct (p y); [reflexivity|exact IH].
Qed.

Lemma existsb_snoc {A} (p : A -> bool) (l : list A) (x : A) :
  existsb p (l ++ [x]) = existsb p l || p x.
Proof. rewrite existsb_app. cbn. rewrite orb_false_r. reflexivity. Qed.

Lemma is_agenda_Type (dl : DocumentLink) :
  is_agenda dl = true -> dl_Type dl = "Agenda".
Proof.
  unfold is_agenda. intros H. apply andb_true_iff in H.
  apply String.eqb_eq. apply H.
Qed.

Lemma is_minutes_Type (dl : DocumentLink) :
  is_minutes dl = true -> dl_Type dl = "AdditionalDocuments".
Proof.
  unfold is_minutes. intros H. rewrite !andb_true_iff in H.
  apply String.eqb_eq. apply H.
Qed.

Section WithNetwork.

Variable post : string -> Time -> Time -> RoundTrip.
Variable json_Unmarshal : string -> result (list CalendarMeeting).
Variable time_Parse : string -> result Time.
Variable url_resolve : string -> string -> option string.

Local Abbreviation abs := (Escribe.abs url_resolve).
Local Abbreviation documentLinks := (documentLinks url_resolve).
Local Abbreviation calendarMeetings := (calendarMeetings time_Parse url_resolve).
Local Abbreviation EscribeClient_List :=
  (EscribeClient_List post json_Unmarshal time_Parse url_resolve).

Local Abbreviation first_link := (first_link abs).

Lemma documentLinks_lookup (links : list DocumentLink) :
  forall urls hasAgenda,
  let r := documentLinks links urls hasAgenda in
  snd r = hasAgenda || existsb is_agenda links
  /\ existsb (has_name "agenda") (fst r)
     = existsb (has_name "agenda") urls || existsb is_agenda links
  /\ find (has_name "agenda") (fst r)
     = match find (has_name "agenda") urls with
       | Some x => Some x
       | None => first_link is_agenda "agenda" links
       end
  /\ find (has_name "minutes") (fst r)
     = match find (has_name "minutes") urls with
       | Some x => Some x
       | None => first_link is_minutes "minutes" links
       end
  /\ find (has_name "video") (fst r)
     = match find (has_name "video") urls with
       | Some x => Some x
       | None => first_link is_video "video" links
       end.
Proof.
  unfold first_link.
  induction links as [|dl links IH]; intros urls h; cbv zeta.
  - cbn. rewrite !orb_false_r.
    repeat split; destruct (find _ urls); reflexivity.
  - cbn [Escribe.documentLinks find existsb].
    fold (is_agenda dl).
    destruct (is_agenda dl) eqn:Ea.
    + pose proof (is_agenda_Type dl Ea) as Ht.
      assert (Em : is_minutes dl = false)
        by (unfold is_minutes; rewrite Ht; reflexivity).
      assert (Ev : is_video dl = false)
        by (unfold is_video; rewrite Ht; reflexivity).
      rewrite Em, Ev.
      specialize (IH (urls ++ [{| Name := "agenda"; URL := abs (dl_URL dl) |}]) true).
      cbv zeta in IH. destruct IH as (I1 & I2 & I3 & I4 & I5).
      rewrite I1, I2, I3, I4, I5, !find_snoc, existsb_snoc.
      cbn [has_name Name String.eqb Ascii.eqb Bool.eqb andb option_map].
      rewrite !orb_true_r.
      repeat split; destruct (find _ urls); reflexivity.
    + fold (is_minutes dl).
      destruct (is_minutes dl) eqn:Em.
      * pose proof (is_minutes_Type dl Em) as Ht.
        assert (Ev : is_video dl = false)
          by (unfold is_video; rewrite Ht; reflexivity).
        rewrite Ev.
        specialize (IH (urls ++ [{| Name := "minutes"; URL := abs (dl_URL dl) |}]) h).
        cbv zeta in IH. destruct IH as (I1 & I2 & I3 & I4 & I5).
        rewrite I1, I2, I3, I4, I5, !find_snoc, existsb_snoc.
        cbn [has_name Name String.eqb Ascii.eqb Bool.eqb andb option_map orb].
        rewrite !orb_false_r.
        repeat split; destruct (find _ urls); reflexivity.
      * fold (is_video dl).
        destruct (is_video dl) eqn:Ev.
        -- specialize (IH (urls ++ [{| Name := "video"; URL := abs (dl_URL dl) |}]) h).
           cbv zeta in IH. destruct IH as (I1 & I2 & I3 & I4 & I5).
           rewrite I1, I2, I3, I4, I5, !find_snoc, existsb_snoc.
           cbn [has_name Name String.eqb Ascii.eqb Bool.eqb andb option_map orb].
           rewrite !orb_false_r.
           repeat split; destruct (find _ urls); reflexivity.
        -- specialize (IH urls h). cbv zeta in IH.
           destruct IH as (I1 & I2 & I3 & I4 & I5).
           rewrite I1, I2, I3, I4, I5. cbn [orb].
           repeat split; reflexivity.
Qed.

(** X3. For the URLs [List] collects from the links of a calendar
    entry, [Meeting.URL] gives, under "agenda", "minutes" and "video",
    the resolved URL of the first link that passes the respective test,
    and the empty string when there is none; [hasAgenda] tells whether
    an HTML agenda link exists. *)
Theorem EscribeClient_meeting_URLs (links : list DocumentLink)
  (id type : string) (event : MeetingEvent) :
  let m := {| ID := id; Type_ := type; Event := event;
              URLs := fst (documentLinks links [] false) |} in
  let url_of test :=
    match find test links with
    | Some dl => abs (dl_URL dl)
    | None => ""
    end in
  Meeting_URL m "agenda" = url_of is_agenda
  /\ Meeting_URL m "minutes" = url_of is_minutes
  /\ Meeting_URL m "video" = url_of is_video
  /\ snd (documentLinks links [] false) = existsb is_agenda links.
Proof.
  cbv zeta. destruct (documentLinks_lookup links [] false)
    as (H1 & _ & H3 & H4 & H5).
  cbv zeta in *. unfold Meeting_URL. cbn [URLs].
  fold (has_name "agenda") (has_name "minutes") (has_name "video").
  rewrite H1, H3, H4, H5. cbn [find orb]. unfold EscribeSpec.first_link.
  repeat split; destruct (find _ links); reflexivity.
Qed.




Lemma calendarMeetings_bad (d : list CalendarMeeting) (dm : CalendarMeeting) :
  In dm d -> bad_start_date time_Parse dm = true ->
  forall acc, exists e, calendarMeetings d acc = Err e.
Proof.
  induction d as [|dm' d IH]; intros Hin Hbad acc; [contradiction|].
  cbn [Escribe.calendarMeetings].
  destruct Hin as [->|Hin].
  - unfold bad_start_date in Hbad.
    destruct (Cut (dm_StartDate dm) " ") as [[startDate rest] ok].
    destruct ok; cbn [negb]; [|eexists; reflexivity].
    destruct (time_Parse startDate); [discriminate|eexists; reflexivity].
  - destruct (Cut (dm_StartDate dm') " ") as [[startDate rest] ok].
    destruct ok; cbn [negb]; [|eexists; reflexivity].
    destruct (time_Parse startDate); [|eexists; reflexivity].
    destruct (documentLinks _ _ _) as [urls hasAgenda].
    destruct (_ && _); apply IH; assumption.
Qed.

(** X5. A single calendar entry whose start date has no space after the
    date, or whose date does not parse, makes [List] fail as a whole:
    after the one request it returns an error and no meeting, whatever
    the other entries are. *)
Theorem EscribeClient_List_bad_date (now : Time) (resp : Response)
  (b : string) (d : list CalendarMeeting) (dm : CalendarMeeting)
  (Hpost : post (u ++ "/MeetingsCalendarView.aspx/GetAllMeetings")%string
             (AddDate now (-1) 0 0) (AddDate now 1 0 0) = Responded resp)
  (Hstatus : StatusCode resp = 200)
  (Hbody : Body resp = Ok b)
  (Hjson : json_Unmarshal b = Ok d)
  (Hin : In dm d)
  (Hbad : bad_start_date time_Parse dm = true) :
  exists e,
    EscribeClient_List now ""
    = ([HTTPRequest "POST" (u ++ "/MeetingsCalendarView.aspx/GetAllMeetings")%string],
       Err e).
Proof.
  unfold Escribe.EscribeClient_List. cbn [String.eqb negb].
  rewrite Hpost, Hbody, Hstatus, Hjson. cbn [Z.eqb Pos.eqb negb].
  destruct (calendarMeetings_bad d dm Hin Hbad []) as [e He].
  rewrite He. exists e. reflexivity.
Qed.

End WithNetwork.


Lemma EscribeClient_List_bad_date_witness :
  exists e,
    EscribeClient_List escribe_post escribe_unmarshal_bad escribe_parse
      escribe_resolve noon ""
    = ([HTTPRequest "POST"
          (u ++ "/MeetingsCalendarView.aspx/GetAllMeetings")%string], Err e).
Proof.
  apply (EscribeClient_List_bad_date escribe_post escribe_unmarshal_bad
           escribe_parse escribe_resolve noon escribe_response "{}"
           calendar_bad
           {| dm_ID := "e-2"; dm_MeetingDocumentLink := [];
              dm_MeetingType := "Budget Committee";
              dm_StartDate := "2024/05/08" |});
    try reflexivity.
  right. left. reflexivity.
Defined.

End CalendarFacts.

(** ** Pagination and the queue *)
Module QueueFacts.
Import GoTime Store Client Meetings OrchestratorSpec OrchestratorFacts
  VersioningFacts Scenario Scenario2 QueueSpec.

Lemma recent_In (co : Time) (ms : list Meeting) (m : Meeting) :
  In m (recent co ms) -> In m ms /\ Before (Date (Event m)) co = false.
Proof.
  induction ms as [|x ms IH]; cbn [recent]; [contradiction|].
  destruct (Before (Date (Event x)) co) eqn:E; [contradiction|].
  intros [<-|H]; [split; [left; reflexivity|exact E]|].
  destruct (IH H) as [H1 H2]. split; [right; exact H1|exact H2].
Qed.

Section WithEnvironment.

Variable sum224_base62 : string -> string.
Variable clock : nat -> Time.
Variable entropy : nat -> Z.

Local Abbreviation scanMeetings := (scanMeetings clock entropy).
Local Abbreviation listSource := (listSource clock entropy).
Local Abbreviation listSources := (listSources clock entropy).
Local Abbreviation processQueue := (processQueue sum224_base62 clock).
Local Abbreviation processMeeting := (processMeeting sum224_base62).
Local Abbreviation stale := (stale clock entropy).

Lemma stale_In (db : DB) (c : client) (ms : list Meeting) :
  forall k m c',
  In (m, c') (stale db c ms k) ->
  c' = c /\ In m ms
  /\ exists j, (k <= j < k + List.length ms)%nat
               /\ isMeetingFresh db m (clock j) (entropy j) = false.
Proof.
  induction ms as [|x ms IH]; intros k m c' H; [contradiction|].
  cbn [OrchestratorSpec.stale] in H.
  destruct (isMeetingFresh db x (clock k) (entropy k)) eqn:E.
  - destruct (IH _ _ _ H) as (H1 & H2 & j & Hj & Hf).
    split; [exact H1|]. split; [right; exact H2|].
    exists j. cbn [List.length]. split; [lia|exact Hf].
  - destruct H as [H|H].
    + inversion H; subst. split; [reflexivity|]. split; [left; reflexivity|].
      exists k. cbn [List.length]. split; [lia|exact E].
    + destruct (IH _ _ _ H) as (H1 & H2 & j & Hj & Hf).
      split; [exact H1|]. split; [right; exact H2|].
      exists j. cbn [List.length]. split; [lia|exact Hf].
Qed.

Local Abbreviation enqueued := (enqueued clock entropy).

Lemma enqueued_weaken (db : DB) (co : Time) (cs cs' : list client)
  (k0 k k' k1 : nat) (added : list meetingAgendaer) :
  (k0 <= k)%nat -> (k' <= k1)%nat -> incl cs cs' ->
  enqueued db co cs k k' added -> enqueued db co cs' k0 k1 added.
Proof.
  intros H0 H1 Hi He m c Hin. destruct (He m c Hin) as (A & B & j & Hj & Hf).
  split; [apply Hi; exact A|]. split; [exact B|]. exists j. split; [lia|exact Hf].
Qed.

Lemma enqueued_app (db : DB) (co : Time) (cs : list client) (k k' : nat)
  (a b : list meetingAgendaer) :
  enqueued db co cs k k' a -> enqueued db co cs k k' b ->
  enqueued db co cs k k' (a ++ b).
Proof.
  intros Ha Hb m c Hin. apply in_app_iff in Hin. destruct Hin; auto.
Qed.

Lemma listSource_enqueued (fuel : nat) (db : DB) (co : Time) (c : client) :
  forall token k need effs k' need',
  listSource fuel db co c token k need = Some (effs, Ok (k', need')) ->
  (k <= k')%nat
  /\ exists added, need' = need ++ added /\ enqueued db co [c] k k' added.
Proof.
  induction fuel as [|fuel IH]; intros token k need effs k' need' H;
    [discriminate|].
  cbn [Meetings.listSource] in H.
  destruct (List c token) as [effs0 [[ms next]|e]]; [|discriminate].
  rewrite scanMeetings_spec in H.
  set (k1 := (k + List.length (recent co ms))%nat) in *.
  set (added := stale db c (recent co ms) k) in *.
  assert (Hadd : enqueued db co [c] k k1 added).
  { intros m c' Hin. destruct (stale_In _ _ _ _ _ _ Hin) as (-> & Hm & j & Hj & Hf).
    split; [left; reflexivity|]. split; [apply (recent_In co ms m Hm)|].
    exists j. split; [exact Hj|exact Hf]. }
  destruct (existsb _ ms).
  - inversion H; subst. split; [lia|]. exists added. split; [reflexivity|exact Hadd].
  - destruct (String.eqb next "").
    + inversion H; subst. split; [lia|]. exists added. split; [reflexivity|exact Hadd].
    + destruct (listSource fuel db co c next k1 (need ++ added))
        as [[effs' r']|] eqn:E; [|discriminate].
      inversion H; subst.
      destruct (IH _ _ _ _ _ _ E) as (Hk & added' & -> & Hadd').
      split; [lia|]. exists (added ++ added'). split; [rewrite app_assoc; reflexivity|].
      apply enqueued_app.
      * eapply enqueued_weaken; [| | |exact Hadd]; [lia|lia|apply incl_refl].
      * eapply enqueued_weaken; [| | |exact Hadd']; [lia|lia|apply incl_refl].
Qed.

(** X6. Whatever the sources list, the queue [processMeetings] builds
    only grows, and every meeting added to it comes from one of the
    sources, is not dated before the cutoff, and was found not fresh by
    one of the freshness checks of this run. *)
Theorem listSources_enqueued (fuel : nat) (db : DB) (co : Time)
  (clients : list client) (k k' : nat) (need need' : list meetingAgendaer)
  (effs : list Effect)
  (Hlist : listSources fuel db co clients k need = Some (effs, Ok (k', need'))) :
  (k <= k')%nat
  /\ exists added,
       need' = need ++ added
       /\ forall m c, In (m, c) added ->
            In c clients /\ Before (Date (Event m)) co = false
            /\ exists j, (k <= j < k')%nat
                         /\ isMeetingFresh db m (clock j) (entropy j) = false.
Proof.
  revert k need effs Hlist.
  induction clients as [|c clients IH]; intros k need effs H.
  - cbn in H. inversion H; subst. split; [lia|]. exists [].
    split; [rewrite app_nil_r; reflexivity|]. intros m c [].
  - cbn [Meetings.listSources] in H.
    destruct (listSource fuel db co c "" k need) as [[effs1 [[k1 need1]|e]]|] eqn:E1;
      try discriminate.
    destruct (listSources fuel db co clients k1 need1) as [[effs2 r2]|] eqn:E2;
      [|discriminate].
    inversion H; subst.
    destruct (listSource_enqueued _ _ _ _ _ _ _ _ _ _ E1) as (Hk1 & a1 & -> & Ha1).
    destruct (IH _ _ _ E2) as (Hk2 & a2 & -> & Ha2).
    split; [lia|]. exists (a1 ++ a2). split; [rewrite app_assoc; reflexivity|].
    apply enqueued_app.
    + eapply enqueued_weaken; [| | |exact Ha1];
        [lia|lia|intros x [<-|[]]; left; reflexivity].
    + eapply enqueued_weaken; [| | |exact Ha2];
        [lia|lia|intros x Hx; right; exact Hx].
Qed.

(** X7. The pagination loop trusts the source to end: for a source that
    answers every token with a page without a meeting older than the
    cutoff and with a next token that is not empty, the loop does not
    end, however many rounds it is given. *)
Theorem listSource_endless (db : DB) (co : Time) (c : client)
  (Hpages : forall token, exists effs ms next,
              List c token = (effs, Ok (ms, next))
              /\ existsb (fun m => Before (Date (Event m)) co) ms = false
              /\ next <> "") :
  forall fuel token k need, listSource fuel db co c token k need = None.
Proof.
  induction fuel as [|fuel IH]; intros token k need; [reflexivity|].
  cbn [Meetings.listSource].
  destruct (Hpages token) as (effs & ms & next & Hl & Hold & Hnext).
  rewrite Hl, scanMeetings_spec, Hold.
  apply String.eqb_neq in Hnext. rewrite Hnext, IH. reflexivity.
Qed.

Lemma processMeeting_Err (db db' : DB) (a : client) (m : Meeting)
  (now : Time) (effs : list Effect) (e : error) :
  processMeeting db a m now = (effs, db', Err e) ->
  db' = db
  /\ (Meeting_URL m "agenda" = "" -> effs = [] /\ e = "no agenda URL").
Proof.
  unfold Meetings.processMeeting.
  destruct (String.eqb (Meeting_URL m "agenda") "") eqn:Eu.
  - intros H. inversion H. auto.
  - apply String.eqb_neq in Eu.
    destruct (Agenda a (Meeting_URL m "agenda")) as [effs0 [agenda|e0]].
    + destruct (saveMeeting sum224_base62 db m agenda now) eqn:Es;
        intros H; inversion H; subst.
      split; [reflexivity|]. intros Hu. contradiction.
    + intros H. inversion H. split; [reflexivity|]. intros Hu. contradiction.
Qed.

(** X8. The queue is processed fail-fast: when the loop over
    [needMeetings] returns an error, the meetings before the failing
    one were processed and committed, the failing one left the store
    as it found it, and no meeting after it was touched; the error
    names the date and type of the failing meeting. *)
Theorem processQueue_fail_fast (q : list meetingAgendaer) :
  forall (db db' : DB) (k : nat) (effs : list Effect) (e : error)
    (Hfail : processQueue db q k = (effs, db', Err e)),
  exists q1 m a q2 e1 e2 e0,
    q = q1 ++ (m, a) :: q2
    /\ processQueue db q1 k = (e1, db', Ok tt)
    /\ processMeeting db' a m (clock (k + List.length q1)) = (e2, db', Err e0)
    /\ effs = e1 ++ e2
    /\ e = ("processing meeting date=" ++ FormatDate (Date (Event m))
            ++ " type=" ++ Type_ m ++ ": " ++ e0)%string.
Proof.
  induction q as [|[m a] q IH]; intros db db' k effs e H; [discriminate|].
  cbn [Meetings.processQueue] in H.
  destruct (processMeeting db a m (clock k)) as [[e0 db0] [[]|err]] eqn:Em.
  - destruct (processQueue db0 q (S k)) as [[e1 db1] r1] eqn:Eq.
    inversion H; subst.
    destruct (IH _ _ _ _ _ Eq) as (q1 & m' & a' & q2 & f1 & f2 & f0 & -> & Hq1 & Hm & -> & ->).
    exists ((m, a) :: q1), m', a', q2, (e0 ++ f1), f2, f0.
    split; [reflexivity|]. split.
    { cbn [Meetings.processQueue]. rewrite Em, Hq1. reflexivity. }
    split.
    { cbn [List.length]. rewrite Nat.add_succ_r. exact Hm. }
    split; [rewrite app_assoc; reflexivity|reflexivity].
  - inversion H; subst.
    destruct (processMeeting_Err _ _ _ _ _ _ _ Em) as [-> _].
    exists [], m, a, q, [], effs, err.
    split; [reflexivity|]. split; [reflexivity|].
    split; [cbn [List.length]; rewrite Nat.add_0_r; exact Em|].
    split; reflexivity.
Qed.

End WithEnvironment.

Lemma listSources_enqueued_witness :
  listSources (fun _ => noon) (fun _ => 0) 1 saved_once
    (cutoff saved_once noon) [one_page] 0 []
  = Some ([ListCall ""; HTTPRequest "GET" "https://www.halifax.ca/list"],
          Ok (2%nat, [(meeting_new, one_page)]))
  /\ ((0 <= 2)%nat
      /\ exists added,
           [(meeting_new, one_page)] = [] ++ added
           /\ forall m c, In (m, c) added ->
                In c [one_page]
                /\ Before (Date (Event m)) (cutoff saved_once noon) = false
                /\ exists j, (0 <= j < 2)%nat
                             /\ isMeetingFresh saved_once m noon 0 = false).
Proof.
  assert (H : listSources (fun _ => noon) (fun _ => 0) 1 saved_once
                (cutoff saved_once noon) [one_page] 0 []
              = Some ([ListCall ""; HTTPRequest "GET" "https://www.halifax.ca/list"],
                      Ok (2%nat, [(meeting_new, one_page)])))
    by (vm_compute; reflexivity).
  split; [exact H|].
  exact (listSources_enqueued (fun _ => noon) (fun _ => 0) 1 saved_once
           (cutoff saved_once noon) [one_page] 0 2 []
           [(meeting_new, one_page)] _ H).
Defined.

Lemma listSource_endless_witness :
  listSource (fun _ => noon) (fun _ => 0) 1000 saved_once
    (cutoff saved_once noon) endless_source "" 0 [] = None.
Proof.
  apply (listSource_endless (fun _ => noon) (fun _ => 0) saved_once
           (cutoff saved_once noon) endless_source).
  intros token. exists [], [], "next".
  split; [reflexivity|]. split; [reflexivity|discriminate].
Defined.

Lemma processQueue_fail_fast_witness :
  processQueue plain_sum (fun _ => noon) emptyDB
    [(meeting_today, one_page); (meeting_without_agenda, one_page);
     (meeting_new, one_page)] 0
  = ([HTTPRequest "GET" "https://www.halifax.ca/a"], saved_once,
     Err "processing meeting date=2024-05-08 type=Audit Committee: no agenda URL")
  /\ exists q1 m a q2 e1 e2 e0,
       [(meeting_today, one_page); (meeting_without_agenda, one_page);
        (meeting_new, one_page)] = q1 ++ (m, a) :: q2
       /\ processQueue plain_sum (fun _ => noon) emptyDB q1 0
          = (e1, saved_once, Ok tt)
       /\ processMeeting plain_sum saved_once a m noon
          = (e2, saved_once, Err e0)
       /\ [HTTPRequest "GET" "https://www.halifax.ca/a"] = e1 ++ e2
       /\ "processing meeting date=2024-05-08 type=Audit Committee: no agenda URL"
          = ("processing meeting date=" ++ FormatDate (Date (Event m))
             ++ " type=" ++ Type_ m ++ ": " ++ e0)%string.
Proof.
  assert (H : processQueue plain_sum (fun _ => noon) emptyDB
                [(meeting_today, one_page); (meeting_without_agenda, one_page);
                 (meeting_new, one_page)] 0
              = ([HTTPRequest "GET" "https://www.halifax.ca/a"], saved_once,
                 Err "processing meeting date=2024-05-08 type=Audit Committee: no agenda URL"))
    by (vm_compute; reflexivity).
  split; [exact H|].
  exact (processQueue_fail_fast plain_sum (fun _ => noon) _ _ _ _ _ _ H).
Defined.

End QueueFacts.

(** ** The backlog of external content URLs *)
Module BacklogFacts.
Import GoStrings GoTime GoTimeFacts Store Client Net Meetings Content Integrity
  OrchestratorSpec Runs CountFacts StatementFacts SaveMeetingFacts
  VersioningFacts PipelineFacts Scenario ScannedDocument Documents Scenario2.

Lemma key_unique_tail {A} (key : A -> string) (r : A) (rows : list A) :
  key_unique key (r :: rows) ->
  key_unique key rows
  /\ existsb (fun x => String.eqb (key x) (key r)) rows = false.
Proof.
  intros H. split.
  - intros k. specialize (H k). rewrite count_cons in H. lia.
  - specialize (H (key r)). rewrite count_cons, String.eqb_refl in H.
    destruct (existsb _ rows) eqn:E; [|reflexivity].
    apply count_present in E. lia.
Qed.

Lemma find_unique {A} (key : A -> string) (rows : list A) (r : A) :
  key_unique key rows -> In r rows ->
  find (fun x => String.eqb (key x) (key r)) rows = Some r.
Proof.
  induction rows as [|x rows IH]; intros Hk Hin; [contradiction|].
  destruct (key_unique_tail key x rows Hk) as [Hk' Hx].
  cbn [find]. destruct Hin as [->|Hin]; [rewrite String.eqb_refl; reflexivity|].
  destruct (String.eqb (key x) (key r)) eqn:E; [|exact (IH Hk' Hin)].
  apply String.eqb_eq in E. exfalso.
  assert (Hc : existsb (fun y => String.eqb (key y) (key x)) rows = true).
  { apply existsb_exists. exists r. split; [exact Hin|].
    apply String.eqb_eq. symmetry. exact E. }
  rewrite Hc in Hx. discriminate.
Qed.

Lemma NoDup_keys {A} (key : A -> string) (rows : list A) :
  key_unique key rows -> NoDup (map key rows).
Proof.
  induction rows as [|x rows IH]; intros Hk; [constructor|].
  destruct (key_unique_tail key x rows Hk) as [Hk' Hx].
  cbn [map]. constructor; [|exact (IH Hk')].
  intros Hin. apply in_map_iff in Hin. destruct Hin as (y & Hy & Hin).
  assert (Hc : existsb (fun z => String.eqb (key z) (key x)) rows = true).
  { apply existsb_exists. exists y. split; [exact Hin|].
    apply String.eqb_eq. exact Hy. }
  rewrite Hc in Hx. discriminate.
Qed.

Lemma key_unique_filter {A} (key : A -> string) (p : A -> bool) (rows : list A) :
  key_unique key rows -> key_unique key (filter p rows).
Proof.
  intros Hk k. specialize (Hk k). revert Hk.
  induction rows as [|x rows IH]; [auto|].
  cbn [filter]. rewrite count_cons. intros Hk.
  assert (Hr : (count (fun r => String.eqb (key r) k) rows <= 1)%nat)
    by (destruct (String.eqb (key x) k); lia).
  specialize (IH Hr). destruct (p x); [|exact IH].
  rewrite count_cons. destruct (String.eqb (key x) k); [|exact IH].
  assert (Hz : count (fun r => String.eqb (key r) k) rows = 0%nat) by lia.
  assert (Hf : count (fun r => String.eqb (key r) k) (filter p rows) = 0%nat).
  { apply count_absent. apply not_true_is_false. intros He.
    apply existsb_exists in He. destruct He as (y & Hy & Hky).
    apply filter_In in Hy. destruct Hy as [Hy _].
    pose proof (count_In_pos (fun r => String.eqb (key r) k) rows y Hy Hky). lia. }
  rewrite Hf. reflexivity.
Qed.

Lemma NoDup_firstn {A} (n : nat) (l : list A) : NoDup l -> NoDup (firstn n l).
Proof.
  intros H. rewrite <- (firstn_skipn n l) in H.
  apply NoDup_app_remove_r in H. exact H.
Qed.

(** X9. The backlog [unfetchedURLs] returns has at most 500 URLs, names
    no URL twice, names only URLs whose row has no [fetched] time, and,
    when at most 500 rows have none, names every such URL. *)
Theorem unfetchedURLs_backlog (db : DB)
  (Hkey : key_unique ecu_url (external_content_urls db)) :
  (List.length (unfetchedURLs db) <= 500)%nat
  /\ NoDup (unfetchedURLs db)
  /\ (forall u, In u (unfetchedURLs db) ->
        exists e, fetch_state db u = Some (None, e))
  /\ ((count (fun r => match ecu_fetched r with None => true | Some _ => false end)
         (external_content_urls db) <= 500)%nat ->
      forall u e, fetch_state db u = Some (None, e) -> In u (unfetchedURLs db)).
Proof.
  split; [unfold unfetchedURLs; apply firstn_le_length|].
  split.
  { unfold unfetchedURLs. apply NoDup_firstn. apply NoDup_keys.
    apply key_unique_filter. exact Hkey. }
  split.
  - intros u Hin. destruct (unfetched_row db u Hin) as (r & Hr & <- & Hf).
    exists (ecu_error r). unfold fetch_state.
    rewrite (find_unique ecu_url _ r Hkey Hr). cbn [option_map]. rewrite Hf.
    reflexivity.
  - intros Hn u e Hs. unfold fetch_state in Hs.
    destruct (find _ (external_content_urls db)) as [r|] eqn:Hf; [|discriminate].
    apply find_some in Hf. destruct Hf as [Hin Hu]. apply String.eqb_eq in Hu.
    cbn [option_map] in Hs. inversion Hs as [[Hfe He]].
    unfold unfetchedURLs. rewrite firstn_all2.
    + apply in_map_iff. exists r. split; [exact Hu|].
      apply filter_In. split; [exact Hin|]. rewrite Hfe. reflexivity.
    + rewrite length_map. exact Hn.
Qed.

Lemma Forall2_map_r {A} (R : A -> A -> Prop) (g : A -> A) (l : list A) :
  (forall x, R x (g x)) -> Forall2 R l (map g l).
Proof.
  intros H. induction l as [|x l IH]; [constructor|].
  cbn [map]. constructor; [apply H|exact IH].
Qed.

Section WithEnvironment.

Variable sum224_base62 : string -> string.
Variable TrimSpace : string -> string.
Variable parseRFC1123 : string -> result Time.
Variable get : string -> RoundTrip.
Variable tempFile : string.
Variable tempDir : string.
Variable pdfinfo : string -> result string.
Variable pdftotext : string -> result string.
Variable pdftoppm : string -> result (list (string * string)).
Variable tesseract : string -> result string.
Variable LookPath : string -> result string.
Variable clock : nat -> Time.

Local Abbreviation fetchURLContent :=
  (fetchURLContent sum224_base62 parseRFC1123 get tempFile).
Local Abbreviation processPDF :=
  (processPDF TrimSpace tempDir pdfinfo pdftotext pdftoppm tesseract).
Local Abbreviation processURL :=
  (processURL sum224_base62 TrimSpace parseRFC1123 get tempFile tempDir
     pdfinfo pdftotext pdftoppm tesseract).
Local Abbreviation processURLs :=
  (processURLs sum224_base62 TrimSpace parseRFC1123 get tempFile tempDir
     pdfinfo pdftotext pdftoppm tesseract clock).
Local Abbreviation checkPDF := (checkPDF LookPath).
Local Abbreviation processExternalContentURLs :=
  (processExternalContentURLs sum224_base62 TrimSpace parseRFC1123 get
     tempFile tempDir pdfinfo pdftotext pdftoppm tesseract LookPath clock).

(** X10. [processURL] writes to the row of its URL and to the content
    tables only: the tables of the meetings and the links are left as
    they were, no row of [external_content_urls] is added or removed,
    every row keeps its URL and its [added] time, the rows of other
    URLs are not changed, and at most one content row is appended. *)
Theorem processURL_frame (db : DB) (now : Time) (u : string) :
  let db' := snd (fst (processURL db now u)) in
  meeting_agenda_content db' = meeting_agenda_content db
  /\ meeting_agenda_content_search db' = meeting_agenda_content_search db
  /\ meetings db' = meetings db
  /\ meeting_versions db' = meeting_versions db
  /\ meeting_external_content_urls db' = meeting_external_content_urls db
  /\ Forall2 (fun r r' => ecu_url r' = ecu_url r
                          /\ ecu_added r' = ecu_added r
                          /\ (ecu_url r <> u -> r' = r))
       (external_content_urls db) (external_content_urls db')
  /\ exists added,
       external_content db' = external_content db ++ added
       /\ (List.length added <= 1)%nat.
Proof.
  cbv zeta.
  destruct (fetchURLContent u) as [effs [uc|ferr]] eqn:E.
  - rewrite (processURL_fetched sum224_base62 TrimSpace parseRFC1123 get
               tempFile tempDir pdfinfo pdftotext pdftoppm tesseract
               db now u effs uc E).
    cbn [fst snd].
    match goal with |- context [saveContent db ?x] => set (c := x) end.
    assert (Hc : c_id c = uc_contentID uc)
      by (subst c; destruct (negb _ && _); reflexivity).
    unfold update_fetched, with_external_content_urls.
    cbn [meeting_agenda_content meeting_agenda_content_search meetings
         meeting_versions external_content external_content_search
         external_content_urls meeting_external_content_urls].
    destruct (existsb _ (external_content db)) eqn:Ek.
    + split; [reflexivity|]. split; [reflexivity|]. split; [reflexivity|].
      split; [reflexivity|]. split; [reflexivity|]. split.
      * apply Forall2_map_r. intros r.
        destruct (String.eqb (ecu_url r) u) eqn:Er; cbn [ecu_url ecu_added].
        -- split; [reflexivity|]. split; [reflexivity|].
           apply String.eqb_eq in Er. intros Hne. contradiction.
        -- split; [reflexivity|]. split; reflexivity.
      * exists []. split; [rewrite app_nil_r; reflexivity|cbn; lia].
    + split; [reflexivity|]. split; [reflexivity|]. split; [reflexivity|].
      split; [reflexivity|]. split; [reflexivity|]. split.
      * cbn [saveContent external_content_urls].
        apply Forall2_map_r. intros r.
        destruct (String.eqb (ecu_url r) u) eqn:Er; cbn [ecu_url ecu_added].
        -- split; [reflexivity|]. split; [reflexivity|].
           apply String.eqb_eq in Er. intros Hne. contradiction.
        -- split; [reflexivity|]. split; reflexivity.
      * rewrite saveContent_absent by (rewrite Hc; exact Ek).
        eexists. split; [reflexivity|cbn; lia].
  - unfold Content.processURL. rewrite E. cbn [fst snd].
    unfold saveErr, with_external_content_urls.
    cbn [meeting_agenda_content meeting_agenda_content_search meetings
         meeting_versions external_content external_content_search
         external_content_urls meeting_external_content_urls].
    split; [reflexivity|]. split; [reflexivity|]. split; [reflexivity|].
    split; [reflexivity|]. split; [reflexivity|]. split.
    + apply Forall2_map_r. intros r.
      destruct (String.eqb (ecu_url r) u) eqn:Er; cbn [ecu_url ecu_added].
      * split; [reflexivity|]. split; [reflexivity|].
        apply String.eqb_eq in Er. intros Hne. contradiction.
      * split; [reflexivity|]. split; reflexivity.
    + exists []. split; [rewrite app_nil_r; reflexivity|cbn; lia].
Qed.

(** X11. A fetch answered with status 200 and a readable body leaves
    the row of the URL with the time of the fetch, the response's
    content type, the length of the body, the parsed Last-Modified time
    (NULL when the header is missing or does not parse), the ETag (NULL
    when empty), no error and the digest of the body as content ID; and
    a content row with that ID exists afterwards. *)
Theorem processURL_success_row (db : DB) (now : Time) (u : string)
  (resp : Response) (body : string) (r : external_content_urls_row)
  (Hget : get u = Responded resp)
  (Hstatus : StatusCode resp = 200)
  (Hbody : Body resp = Ok body)
  (Hrow : find (fun r => String.eqb (ecu_url r) u) (external_content_urls db)
          = Some r) :
  let db' := snd (fst (processURL db now u)) in
  find (fun r => String.eqb (ecu_url r) u) (external_content_urls db')
  = Some {| ecu_url := u;
            ecu_added := ecu_added r;
            ecu_fetched := timeValue_Value now;
            ecu_content_type := Some (ContentType resp);
            ecu_size := Some (Z.of_nat (String.length body));
            ecu_last_modified :=
              if String.eqb (LastModified resp) "" then None
              else match parseRFC1123 (LastModified resp) with
                   | Ok t => timeValue_Value t
                   | Err _ => None
                   end;
            ecu_etag := if String.eqb (ETag resp) "" then None
                        else Some (ETag resp);
            ecu_error := None;
            ecu_external_content_id := Some (sum224_base62 body) |}
  /\ existsb (fun c => String.eqb (ec_id c) (sum224_base62 body))
       (external_content db') = true.
Proof.
  cbv zeta.
  assert (E : fetchURLContent u
              = ([HTTPRequest "GET" u],
                 Ok {| uc_f := {| f_Name := tempFile; f_bytes := body |};
                       uc_contentType := ContentType resp;
                       uc_contentID := sum224_base62 body;
                       uc_size := Z.of_nat (String.length body);
                       uc_lastModified :=
                         if negb (String.eqb (LastModified resp) "") then
                           match parseRFC1123 (LastModified resp) with
                           | Ok t => t
                           | Err _ => zeroTime
                           end
                         else zeroTime;
                       uc_etag := ETag resp |})).
  { unfold Content.fetchURLContent. rewrite Hget, Hstatus, Hbody. reflexivity. }
  rewrite (processURL_fetched sum224_base62 TrimSpace parseRFC1123 get
             tempFile tempDir pdfinfo pdftotext pdftoppm tesseract
             db now u _ _ E).
  cbn [fst snd uc_contentID uc_contentType uc_f].
  match goal with |- context [saveContent db ?x] => set (c := x) end.
  assert (Hc : c_id c = sum224_base62 body)
    by (subst c; destruct (negb _ && _); reflexivity).
  assert (Hu : ecu_url r = u).
  { apply find_some in Hrow. destruct Hrow as [_ H].
    apply String.eqb_eq in H. exact H. }
  split.
  - unfold update_fetched, with_external_content_urls.
    cbn [external_content_urls].
    rewrite find_map_key
      by (intros x; destruct (String.eqb (ecu_url x) u); reflexivity).
    assert (Hsame : external_content_urls
                      (if existsb (fun r0 => String.eqb (ec_id r0) (sum224_base62 body))
                            (external_content db)
                       then db else saveContent db c)
                    = external_content_urls db)
      by (destruct (existsb _ (external_content db)); reflexivity).
    rewrite Hsame, Hrow. cbn [option_map]. rewrite Hu, String.eqb_refl.
    cbn [uc_contentType uc_size uc_lastModified uc_etag].
    f_equal. f_equal.
    destruct (String.eqb (LastModified resp) ""); cbn [negb]; [reflexivity|].
    destruct (parseRFC1123 (LastModified resp)); reflexivity.
  - unfold update_fetched, with_external_content_urls. cbn [external_content].
    destruct (existsb _ (external_content db)) eqn:Ek; [exact Ek|].
    rewrite saveContent_absent by (rewrite Hc; exact Ek).
    rewrite existsb_app. cbn [existsb ec_id]. rewrite Hc, String.eqb_refl.
    rewrite orb_true_r. reflexivity.
Qed.

(** X12. The external tools are started for new content declared
    [application/pdf] only: when the fetch fails, the content is
    already stored, or the content type is another one, [processURL]
    causes nothing but the request of [fetchURLContent]. *)
Theorem processURL_no_tools (db : DB) (now : Time) (u : string)
  (Hplain : forall effs uc, fetchURLContent u = (effs, Ok uc) ->
              existsb (fun r => String.eqb (ec_id r) (uc_contentID uc))
                (external_content db) = true
              \/ uc_contentType uc <> "application/pdf") :
  fst (fst (processURL db now u)) = fst (fetchURLContent u)
  /\ (forall e, In e (fst (fst (processURL db now u))) ->
        e = HTTPRequest "GET" u)
  /\ (List.length (fst (fst (processURL db now u))) <= 1)%nat.
Proof.
  assert (Hf : forall e, In e (fst (fetchURLContent u)) -> e = HTTPRequest "GET" u).
  { unfold Content.fetchURLContent. destruct (get u) as [e0|e0|resp].
    - intros e [].
    - intros e [<-|[]]. reflexivity.
    - destruct (negb (StatusCode resp =? 200)); [intros e [<-|[]]; reflexivity|].
      destruct (Body resp) as [b|e1]; intros e [<-|[]]; reflexivity. }
  assert (Hl : (List.length (fst (fetchURLContent u)) <= 1)%nat).
  { unfold Content.fetchURLContent. destruct (get u) as [e0|e0|resp]; cbn; try lia.
    destruct (negb (StatusCode resp =? 200)); cbn; [lia|].
    destruct (Body resp) as [b|e1]; cbn; lia. }
  assert (He : fst (fst (processURL db now u)) = fst (fetchURLContent u)).
  { destruct (fetchURLContent u) as [effs [uc|ferr]] eqn:E.
    - rewrite (processURL_fetched sum224_base62 TrimSpace parseRFC1123 get
                 tempFile tempDir pdfinfo pdftotext pdftoppm tesseract
                 db now u effs uc E).
      cbn [fst snd].
      destruct (Hplain effs uc eq_refl) as [Hk|Hp].
      + rewrite Hk. cbn [negb andb]. apply app_nil_r.
      + apply String.eqb_neq in Hp. rewrite Hp, andb_false_r. apply app_nil_r.
    - unfold Content.processURL. rewrite E. reflexivity. }
  rewrite He. split; [reflexivity|]. split; [exact Hf|exact Hl].
Qed.

(** X13. New content that is not declared [application/pdf] is stored
    without title and text: one content row with the digest as ID is
    appended, and the row added to the index has its rowid and is
    empty as well. *)
Theorem processURL_not_pdf (db : DB) (now : Time) (u : string)
  (effs : list Effect) (uc : urlContent)
  (Hfetch : fetchURLContent u = (effs, Ok uc))
  (Hnew : existsb (fun r => String.eqb (ec_id r) (uc_contentID uc))
            (external_content db) = false)
  (Htype : uc_contentType uc <> "application/pdf") :
  let db' := snd (fst (processURL db now u)) in
  let rowid := next_rowid ec_rowid (external_content db) in
  external_content db'
  = external_content db
    ++ [{| ec_rowid := rowid; ec_id := uc_contentID uc;
           ec_title := ""; ec_text := "" |}]
  /\ external_content_search db'
     = external_content_search db
       ++ [{| ecs_rowid := rowid; ecs_title := ""; ecs_text := "" |}].
Proof.
  cbv zeta.
  rewrite (processURL_fetched sum224_base62 TrimSpace parseRFC1123 get
             tempFile tempDir pdfinfo pdftotext pdftoppm tesseract
             db now u effs uc Hfetch).
  cbn [fst snd]. apply String.eqb_neq in Htype.
  rewrite Hnew, Htype. cbn [negb andb].
  unfold update_fetched, with_external_content_urls.
  cbn [external_content external_content_search].
  unfold saveContent. cbn [c_id c_title c_text]. rewrite Hnew.
  cbn [external_content external_content_search].
  unfold rowid_of. rewrite find_app_absent by exact Hnew.
  cbn [find ec_id]. rewrite String.eqb_refl. cbn [option_map ec_rowid].
  split; reflexivity.
Qed.

(** X14. When one of [pdfinfo], [pdftotext], [pdftoppm] and [tesseract]
    is not installed, [processExternalContentURLs] returns an error
    before it reads the backlog: nothing is requested, no tool is
    started and the store is left as it was. *)
Theorem processExternalContentURLs_missing_tool (db : DB) (k : nat)
  (cmd : string) (e : error)
  (Hcmd : In cmd ["pdfinfo"; "pdftotext"; "pdftoppm"; "tesseract"])
  (Hmissing : LookPath cmd = Err e) :
  exists e', processExternalContentURLs db k = ([], db, Err e')
             /\ HasPrefix e' "missing " = true.
Proof.
  unfold Content.processExternalContentURLs, Content.checkPDF.
  assert (H : exists c e0, checkCommands LookPath
                             ["pdfinfo"; "pdftotext"; "pdftoppm"; "tesseract"]
                           = Err ("missing " ++ c ++ ", need to install poppler-utils and tesseract-ocr on ubuntu or poppler and tesseract via homebrew: " ++ e0)%string).
  { cbn [checkCommands].
    destruct (LookPath "pdfinfo") as [p1|e1] eqn:E1; [|eexists _, _; reflexivity].
    destruct (LookPath "pdftotext") as [p2|e2] eqn:E2; [|eexists _, _; reflexivity].
    destruct (LookPath "pdftoppm") as [p3|e3] eqn:E3; [|eexists _, _; reflexivity].
    destruct (LookPath "tesseract") as [p4|e4] eqn:E4; [|eexists _, _; reflexivity].
    exfalso. destruct Hcmd as [<-|[<-|[<-|[<-|[]]]]]; congruence. }
  destruct H as (c & e0 & ->). eexists. split; [reflexivity|].
  apply GoStringsFacts.HasPrefix_append.
Qed.

Lemma processURL_Ok (db : DB) (now : Time) (u : string) :
  snd (processURL db now u) = Ok tt.
Proof.
  destruct (fetchURLContent u) as [effs [uc|ferr]] eqn:E.
  - rewrite (processURL_fetched sum224_base62 TrimSpace parseRFC1123 get
               tempFile tempDir pdfinfo pdftotext pdftoppm tesseract
               db now u effs uc E). reflexivity.
  - unfold Content.processURL. rewrite E. reflexivity.
Qed.

Lemma processURL_sets_fetched (db : DB) (now : Time) (u : string) :
  IsZero now = false ->
  existsb (fun r => String.eqb (ecu_url r) u) (external_content_urls db) = true ->
  terminal u (snd (fst (processURL db now u))).
Proof.
  intros Hz He.
  assert (Hg : forall (db0 : DB) (g : external_content_urls_row -> external_content_urls_row),
             external_content_urls db0 = external_content_urls db ->
             (forall r, ecu_url (g r) = ecu_url r) ->
             (forall r, ecu_url r = u -> ecu_fetched (g r) <> None) ->
             terminal u (with_external_content_urls db0
                           (map g (external_content_urls db0)))).
  { intros db0 g Hrows Hu Hf. unfold terminal, with_external_content_urls.
    cbn [external_content_urls]. rewrite Hrows. split.
    - rewrite existsb_map; [exact He|]. intros r. rewrite Hu. reflexivity.
    - intros r' Hin Hr'. apply in_map_iff in Hin. destruct Hin as (r & <- & Hin).
      rewrite Hu in Hr'. apply Hf. exact Hr'. }
  destruct (fetchURLContent u) as [effs [uc|ferr]] eqn:E.
  - rewrite (processURL_fetched sum224_base62 TrimSpace parseRFC1123 get
               tempFile tempDir pdfinfo pdftotext pdftoppm tesseract
               db now u effs uc E).
    cbn [fst snd]. unfold update_fetched. apply Hg.
    + destruct (existsb _ (external_content db)); reflexivity.
    + intros r. destruct (String.eqb (ecu_url r) u); reflexivity.
    + intros r Hr. apply String.eqb_eq in Hr. rewrite Hr. cbn [ecu_fetched].
      apply timeValue_Value_Some. exact Hz.
  - unfold Content.processURL. rewrite E. cbn [fst snd].
    unfold saveErr. apply Hg.
    + reflexivity.
    + intros r. destruct (String.eqb (ecu_url r) u); reflexivity.
    + intros r Hr. apply String.eqb_eq in Hr. rewrite Hr. cbn [ecu_fetched].
      apply timeValue_Value_Some. exact Hz.
Qed.

Lemma processURL_present (db : DB) (now : Time) (u p : string) :
  existsb (fun r => String.eqb (ecu_url r) p)
    (external_content_urls (snd (fst (processURL db now u))))
  = existsb (fun r => String.eqb (ecu_url r) p) (external_content_urls db).
Proof.
  destruct (fetchURLContent u) as [effs [uc|ferr]] eqn:E.
  - rewrite (processURL_fetched sum224_base62 TrimSpace parseRFC1123 get
               tempFile tempDir pdfinfo pdftotext pdftoppm tesseract
               db now u effs uc E).
    cbn [fst snd]. unfold update_fetched, with_external_content_urls.
    cbn [external_content_urls]. rewrite existsb_map.
    + destruct (existsb _ (external_content db)); reflexivity.
    + intros x. destruct (String.eqb (ecu_url x) u); reflexivity.
  - unfold Content.processURL. rewrite E. cbn [fst snd].
    unfold saveErr, with_external_content_urls. cbn [external_content_urls].
    apply existsb_map. intros x. destruct (String.eqb (ecu_url x) u); reflexivity.
Qed.

(** A row without [fetched] time after [processURL] was one before. *)
Lemma processURL_unfetched_before (db : DB) (now : Time) (u : string)
  (r : external_content_urls_row) :
  IsZero now = false ->
  In r (external_content_urls (snd (fst (processURL db now u)))) ->
  ecu_fetched r = None ->
  In r (external_content_urls db).
Proof.
  intros Hz Hin Hf.
  assert (Hg : forall (g : external_content_urls_row -> external_content_urls_row),
             (forall x, g x = x \/ ecu_fetched (g x) <> None) ->
             In r (map g (external_content_urls db)) ->
             In r (external_content_urls db)).
  { intros g Hgx Hm. apply in_map_iff in Hm. destruct Hm as (x & <- & Hx).
    destruct (Hgx x) as [->|Hn]; [exact Hx|contradiction]. }
  destruct (fetchURLContent u) as [effs [uc|ferr]] eqn:E.
  - rewrite (processURL_fetched sum224_base62 TrimSpace parseRFC1123 get
               tempFile tempDir pdfinfo pdftotext pdftoppm tesseract
               db now u effs uc E) in Hin.
    cbn [fst snd] in Hin. unfold update_fetched, with_external_content_urls in Hin.
    cbn [external_content_urls] in Hin.
    assert (Hrows : external_content_urls
                      (if existsb (fun r0 => String.eqb (ec_id r0) (uc_contentID uc))
                            (external_content db)
                       then db
                       else saveContent db
                              (if negb (existsb (fun r0 => String.eqb (ec_id r0) (uc_contentID uc))
                                          (external_content db))
                                  && String.eqb (uc_contentType uc) "application/pdf"
                               then {| c_id := uc_contentID uc;
                                       c_title := pdf_title (fst (snd (processPDF (uc_f uc))));
                                       c_text := pdf_text (fst (snd (processPDF (uc_f uc)))) |}
                               else {| c_id := uc_contentID uc; c_title := ""; c_text := "" |}))
                    = external_content_urls db)
      by (destruct (existsb _ (external_content db)); reflexivity).
    rewrite Hrows in Hin. revert Hin. apply Hg. intros x.
    destruct (String.eqb (ecu_url x) u); [right|left; reflexivity].
    cbn [ecu_fetched]. apply timeValue_Value_Some. exact Hz.
  - unfold Content.processURL in Hin. rewrite E in Hin. cbn [fst snd] in Hin.
    unfold saveErr, with_external_content_urls in Hin.
    cbn [external_content_urls] in Hin. revert Hin. apply Hg. intros x.
    destruct (String.eqb (ecu_url x) u); [right|left; reflexivity].
    cbn [ecu_fetched]. apply timeValue_Value_Some. exact Hz.
Qed.

Lemma processURLs_completes (urls : list string) :
  forall (db : DB) (start : Time) (k : nat),
  (forall j, IsZero (clock j) = false) ->
  (forall j, Sub (clock j) start <= 30 * Minute) ->
  exists effs db',
    processURLs db urls start k = (effs, db', Ok tt)
    /\ (forall u, In u urls ->
          existsb (fun r => String.eqb (ecu_url r) u) (external_content_urls db) = true ->
          terminal u db')
    /\ (forall r, In r (external_content_urls db') -> ecu_fetched r = None ->
          In r (external_content_urls db))
    /\ (forall p, existsb (fun r => String.eqb (ecu_url r) p) (external_content_urls db')
                  = existsb (fun r => String.eqb (ecu_url r) p) (external_content_urls db))
    /\ (forall u, terminal u db -> terminal u db').
Proof.
  induction urls as [|u urls IH]; intros db start k Hz Hb.
  - exists [], db. split; [reflexivity|]. split; [intros u []|].
    split; [auto|]. split; [reflexivity|auto].
  - cbn [Content.processURLs].
    pose proof (processURL_Ok db (clock k) u) as Hok.
    pose proof (processURL_sets_fetched db (clock k) u (Hz k)) as Hset.
    pose proof (processURL_present db (clock k) u) as Hpres.
    pose proof (fun r => processURL_unfetched_before db (clock k) u r (Hz k)) as Hunf.
    pose proof (fun p => terminal_processURL sum224_base62 TrimSpace parseRFC1123
                           get tempFile tempDir pdfinfo pdftotext pdftoppm
                           tesseract p u db (clock k) (Hz k)) as Hterm.
    destruct (processURL db (clock k) u) as [[effs db1] r1].
    cbn [fst snd] in *. subst r1.
    assert (Hlt : (30 * Minute <? Sub (clock (S k)) start) = false)
      by (apply Z.ltb_ge; apply Hb).
    rewrite Hlt.
    destruct (IH db1 start (S (S k)) Hz Hb) as (effs' & db' & Hrun & Hdone & Hrows & Hp & Ht).
    rewrite Hrun. exists (effs ++ effs'), db'. split; [reflexivity|].
    split; [|split; [|split]].
    + intros p [<-|Hin] He.
      * apply Ht. apply Hset. exact He.
      * apply Hdone; [exact Hin|]. rewrite Hpres. exact He.
    + intros r Hin Hf. apply Hunf; [|exact Hf]. apply Hrows; assumption.
    + intros p. rewrite Hp. apply Hpres.
    + intros p Hp0. apply Ht. apply Hterm. exact Hp0.
Qed.

(** X15. With the four tools installed, a clock that never reads the
    zero time and the budget of 30 minutes not used up, a run of
    [processExternalContentURLs] returns no error and leaves every URL
    of the backlog it read with a [fetched] time, so that none of them
    is in the next backlog; when the rows without [fetched] time were
    at most 500, the next backlog is empty. *)
Theorem processExternalContentURLs_completes (db : DB) (k : nat)
  (Htools : forall cmd,
              In cmd ["pdfinfo"; "pdftotext"; "pdftoppm"; "tesseract"] ->
              exists path, LookPath cmd = Ok path)
  (Hclock : forall j, IsZero (clock j) = false)
  (Hbudget : forall j, Sub (clock j) (clock k) <= 30 * Minute) :
  exists effs db',
    processExternalContentURLs db k = (effs, db', Ok tt)
    /\ (forall u, In u (unfetchedURLs db) ->
          terminal u db' /\ ~ In u (unfetchedURLs db'))
    /\ ((count (fun r => match ecu_fetched r with None => true | Some _ => false end)
           (external_content_urls db) <= 500)%nat ->
        unfetchedURLs db' = []).
Proof.
  unfold Content.processExternalContentURLs, Content.checkPDF.
  cbn [checkCommands].
  destruct (Htools "pdfinfo") as [p1 ->]; [cbn; auto|].
  destruct (Htools "pdftotext") as [p2 ->]; [cbn; auto|].
  destruct (Htools "pdftoppm") as [p3 ->]; [cbn; auto|].
  destruct (Htools "tesseract") as [p4 ->]; [cbn; auto 6|].
  destruct (processURLs_completes (unfetchedURLs db) db (clock k) (S k) Hclock Hbudget)
    as (effs & db' & Hrun & Hdone & Hrows & _ & _).
  exists effs, db'. split; [exact Hrun|]. split.
  - intros u Hin.
    assert (Ht : terminal u db')
      by (apply Hdone; [exact Hin|apply unfetched_present; exact Hin]).
    split; [exact Ht|apply terminal_not_unfetched; exact Ht].
  - intros Hn. destruct (unfetchedURLs db') as [|u us] eqn:Eu; [reflexivity|].
    exfalso.
    assert (Hin : In u (unfetchedURLs db')) by (rewrite Eu; left; reflexivity).
    destruct (unfetched_row db' u Hin) as (r & Hr & Hu & Hf).
    pose proof (Hrows r Hr Hf) as Hold.
    assert (Hback : In u (unfetchedURLs db)).
    { unfold unfetchedURLs. rewrite firstn_all2 by (rewrite length_map; exact Hn).
      apply in_map_iff. exists r. split; [exact Hu|].
      apply filter_In. split; [exact Hold|]. rewrite Hf. reflexivity. }
    assert (Ht : terminal u db')
      by (apply Hdone; [exact Hback|apply unfetched_present; exact Hback]).
    exact (terminal_not_unfetched db' u Ht Hin).
Qed.

(** X16. The time budget is checked after a URL was processed: when
    the reading of the clock after the URL number [n + 1] is the first
    one more than 30 minutes after the start, the run is the run on
    these [n + 1] URLs and returns no error; the URLs after them are
    neither requested nor written. *)
Theorem processURLs_out_of_time (n : nat) :
  forall (urls : list string) (db : DB) (start : Time) (k : nat)
    (Hlen : (n < List.length urls)%nat)
    (Hin_time : forall i, (i < n)%nat ->
                  Sub (clock (S (k + 2 * i))) start <= 30 * Minute)
    (Hout : 30 * Minute < Sub (clock (S (k + 2 * n))) start),
  processURLs db urls start k = processURLs db (firstn (S n) urls) start k
  /\ snd (processURLs db urls start k) = Ok tt.
Proof.
  induction n as [|n IH]; intros urls db start k Hlen Hin_time Hout;
    (destruct urls as [|u urls]; [cbn in Hlen; lia|]).
  - cbn [firstn Content.processURLs].
    pose proof (processURL_Ok db (clock k) u) as Hok.
    destruct (processURL db (clock k) u) as [[effs db1] r1].
    cbn [snd] in Hok. subst r1.
    replace (S (k + 2 * 0)) with (S k) in Hout by lia.
    apply Z.ltb_lt in Hout. rewrite Hout. split; reflexivity.
  - change (firstn (S (S n)) (u :: urls)) with (u :: firstn (S n) urls).
    cbn [Content.processURLs].
    pose proof (processURL_Ok db (clock k) u) as Hok.
    destruct (processURL db (clock k) u) as [[effs db1] r1].
    cbn [snd] in Hok. subst r1.
    assert (H0 : (30 * Minute <? Sub (clock (S k)) start) = false).
    { apply Z.ltb_ge. specialize (Hin_time 0%nat).
      replace (S (k + 2 * 0)) with (S k) in Hin_time by lia.
      apply Hin_time. lia. }
    rewrite H0.
    destruct (IH urls db1 start (S (S k))) as [Heq Hres].
    + cbn [List.length] in Hlen. lia.
    + intros i Hi. specialize (Hin_time (S i)).
      replace (S (k + 2 * S i)) with (S (S (S k) + 2 * i)) in Hin_time by lia.
      apply Hin_time. lia.
    + replace (S (S (S k) + 2 * n)) with (S (k + 2 * S n)) by lia. exact Hout.
    + rewrite <- Heq.
      destruct (processURLs db1 urls start (S (S k))) as [[effs' db2] r2].
      cbn [snd] in *. split; [reflexivity|exact Hres].
Qed.

End WithEnvironment.

(** *** The theorems on the documents of the examples *)

Lemma key_unique_crawled : key_unique ecu_url (external_content_urls crawled).
Proof.
  intros k. cbv [crawled]. vm_compute external_content_urls.
  rewrite !count_cons. cbn [count filter List.length].
  repeat match goal with
         | |- context [String.eqb ?a k] => destruct (String.eqb_spec a k); subst
         end; try discriminate; cbn; lia.
Qed.

Lemma unfetchedURLs_backlog_witness :
  key_unique ecu_url (external_content_urls crawled)
  /\ (List.length (unfetchedURLs crawled) <= 500)%nat
  /\ NoDup (unfetchedURLs crawled)
  /\ (forall u, In u (unfetchedURLs crawled) ->
        exists e, fetch_state crawled u = Some (None, e))
  /\ ((count (fun r => match ecu_fetched r with None => true | Some _ => false end)
         (external_content_urls crawled) <= 500)%nat ->
      forall u e, fetch_state crawled u = Some (None, e) ->
                  In u (unfetchedURLs crawled)).
Proof.
  split; [exact key_unique_crawled|].
  exact (unfetchedURLs_backlog crawled key_unique_crawled).
Defined.

Local Abbreviation html_processURL :=
  (processURL plain_sum trim_ascii rfc1123_noon html_get
     "/tmp/fetchURLContent1" "/tmp/processPDF1"
     scan_pdfinfo scan_pdftotext scan_pdftoppm scan_tesseract).

Local Abbreviation html_fetchURLContent :=
  (fetchURLContent plain_sum rfc1123_noon html_get "/tmp/fetchURLContent1").

Lemma processURL_success_row_witness :
  let db' := snd (fst (html_processURL crawled one_oclock url_a)) in
  find (fun r => String.eqb (ecu_url r) url_a) (external_content_urls db')
  = Some {| ecu_url := url_a;
            ecu_added := timeValue_Value noon;
            ecu_fetched := timeValue_Value one_oclock;
            ecu_content_type := Some "text/html";
            ecu_size := Some 13;
            ecu_last_modified := timeValue_Value noon;
            ecu_etag := None;
            ecu_error := None;
            ecu_external_content_id := Some "<html></html>" |}
  /\ existsb (fun c => String.eqb (ec_id c) "<html></html>")
       (external_content db') = true.
Proof.
  exact (processURL_success_row plain_sum trim_ascii rfc1123_noon html_get
           "/tmp/fetchURLContent1" "/tmp/processPDF1"
           scan_pdfinfo scan_pdftotext scan_pdftoppm scan_tesseract
           crawled one_oclock url_a html_response "<html></html>"
           {| ecu_url := url_a; ecu_added := timeValue_Value noon;
              ecu_fetched := None; ecu_content_type := None; ecu_size := None;
              ecu_last_modified := None; ecu_etag := None; ecu_error := None;
              ecu_external_content_id := None |}
           eq_refl eq_refl eq_refl eq_refl).
Defined.

Lemma processURL_no_tools_witness :
  fst (fst (html_processURL crawled one_oclock url_a))
  = fst (html_fetchURLContent url_a)
  /\ (forall e, In e (fst (fst (html_processURL crawled one_oclock url_a))) ->
        e = HTTPRequest "GET" url_a)
  /\ (List.length (fst (fst (html_processURL crawled one_oclock url_a))) <= 1)%nat.
Proof.
  apply (processURL_no_tools plain_sum trim_ascii rfc1123_noon html_get
           "/tmp/fetchURLContent1" "/tmp/processPDF1"
           scan_pdfinfo scan_pdftotext scan_pdftoppm scan_tesseract
           crawled one_oclock url_a).
  intros effs uc H. right. vm_compute in H. inversion H. cbn. discriminate.
Defined.

Lemma processURL_not_pdf_witness :
  html_fetchURLContent url_a = ([HTTPRequest "GET" url_a], Ok fetched_html)
  /\ (let db' := snd (fst (html_processURL crawled one_oclock url_a)) in
      external_content db'
      = [{| ec_rowid := 1; ec_id := "<html></html>"; ec_title := "";
            ec_text := "" |}]
      /\ external_content_search db'
         = [{| ecs_rowid := 1; ecs_title := ""; ecs_text := "" |}]).
Proof.
  assert (Hf : html_fetchURLContent url_a
               = ([HTTPRequest "GET" url_a], Ok fetched_html))
    by (vm_compute; reflexivity).
  split; [exact Hf|].
  exact (processURL_not_pdf plain_sum trim_ascii rfc1123_noon html_get
           "/tmp/fetchURLContent1" "/tmp/processPDF1"
           scan_pdfinfo scan_pdftotext scan_pdftoppm scan_tesseract
           crawled one_oclock url_a [HTTPRequest "GET" url_a] fetched_html
           Hf eq_refl ltac:(discriminate)).
Defined.

Lemma processExternalContentURLs_missing_tool_witness :
  exists e',
    processExternalContentURLs plain_sum trim_ascii no_rfc1123 documents_get
      "/tmp/fetchURLContent1" "/tmp/processPDF1"
      scan_pdfinfo scan_pdftotext scan_pdftoppm scan_tesseract
      no_tesseract (fun _ => one_oclock) crawled 0
    = ([], crawled, Err e')
    /\ HasPrefix e' "missing " = true.
Proof.
  apply (processExternalContentURLs_missing_tool plain_sum trim_ascii no_rfc1123
           documents_get "/tmp/fetchURLContent1" "/tmp/processPDF1"
           scan_pdfinfo scan_pdftotext scan_pdftoppm scan_tesseract
           no_tesseract (fun _ => one_oclock) crawled 0
           "tesseract" "executable file not found in $PATH").
  - right. right. right. left. reflexivity.
  - reflexivity.
Defined.

Lemma processExternalContentURLs_completes_witness :
  exists effs db',
    processExternalContentURLs plain_sum trim_ascii no_rfc1123 documents_get
      "/tmp/fetchURLContent1" "/tmp/processPDF1"
      scan_pdfinfo scan_pdftotext scan_pdftoppm scan_tesseract
      installed (fun _ => one_oclock) crawled 0
    = (effs, db', Ok tt)
    /\ (forall u, In u (unfetchedURLs crawled) ->
          terminal u db' /\ ~ In u (unfetchedURLs db'))
    /\ ((count (fun r => match ecu_fetched r with None => true | Some _ => false end)
           (external_content_urls crawled) <= 500)%nat ->
        unfetchedURLs db' = []).
Proof.
  apply (processExternalContentURLs_completes plain_sum trim_ascii no_rfc1123
           documents_get "/tmp/fetchURLContent1" "/tmp/processPDF1"
           scan_pdfinfo scan_pdftotext scan_pdftoppm scan_tesseract
           installed (fun _ => one_oclock) crawled 0).
  - intros cmd _. exists ("/usr/bin/" ++ cmd)%string. reflexivity.
  - intros j. vm_compute. reflexivity.
  - intros j. apply Z.leb_le. vm_compute. reflexivity.
Defined.

Lemma processURLs_out_of_time_witness :
  (1 < List.length (unfetchedURLs crawled))%nat
  /\ 30 * Minute < Sub (late_clock 4) one_oclock
  /\ processURLs plain_sum trim_ascii no_rfc1123 documents_get
       "/tmp/fetchURLContent1" "/tmp/processPDF1"
       scan_pdfinfo scan_pdftotext scan_pdftoppm scan_tesseract
       late_clock crawled (unfetchedURLs crawled) one_oclock 1
     = processURLs plain_sum trim_ascii no_rfc1123 documents_get
         "/tmp/fetchURLContent1" "/tmp/processPDF1"
         scan_pdfinfo scan_pdftotext scan_pdftoppm scan_tesseract
         late_clock crawled [url_a; url_b] one_oclock 1
  /\ snd (processURLs plain_sum trim_ascii no_rfc1123 documents_get
            "/tmp/fetchURLContent1" "/tmp/processPDF1"
            scan_pdfinfo scan_pdftotext scan_pdftoppm scan_tesseract
            late_clock crawled (unfetchedURLs crawled) one_oclock 1)
     = Ok tt.
Proof.
  assert (Hlen : (1 < List.length (unfetchedURLs crawled))%nat)
    by (vm_compute; lia).
  assert (Hout : 30 * Minute < Sub (late_clock (S (1 + 2 * 1))) one_oclock)
    by (apply Z.ltb_lt; vm_compute; reflexivity).
  split; [exact Hlen|]. split; [exact Hout|].
  apply (processURLs_out_of_time plain_sum trim_ascii no_rfc1123 documents_get
           "/tmp/fetchURLContent1" "/tmp/processPDF1"
           scan_pdfinfo scan_pdftotext scan_pdftoppm scan_tesseract
           late_clock 1 (unfetchedURLs crawled) crawled one_oclock 1 Hlen).
  - intros i Hi. assert (i = 0%nat) by lia. subst i.
    apply Z.leb_le. vm_compute. reflexivity.
  - exact Hout.
Defined.

End BacklogFacts.

(** ** What a crawl keeps *)
Module HistoryFacts.
Import GoStrings GoTime GoTimeFacts Store Client Net Meetings Content Integrity
  OrchestratorSpec Runs CountFacts StatementFacts SaveMeetingFacts
  VersioningFacts PipelineFacts Scenario ScannedDocument Documents Scenario2
  References.

Lemma filter_map_other {A} (p : A -> bool) (g : A -> A) (l : list A) :
  (forall x, p x = true -> g x = x) -> (forall x, p (g x) = p x) ->
  filter p (map g l) = filter p l.
Proof.
  intros Hfix Hp. induction l as [|x l IH]; [reflexivity|].
  cbn [map filter]. rewrite Hp. destruct (p x) eqn:E; [|exact IH].
  rewrite (Hfix x E), IH. reflexivity.
Qed.

(** The rows [saveMeetingURLs] appends. *)
Lemma saveMeetingURLs_appends (obs : Time) (mid cid : string) (a : MeetingAgenda) :
  forall tx,
  exists nu nl,
    external_content_urls (saveMeetingURLs tx obs mid cid a)
    = external_content_urls tx ++ nu
    /\ meeting_external_content_urls (saveMeetingURLs tx obs mid cid a)
       = meeting_external_content_urls tx ++ nl
    /\ (forall r, In r nu ->
          In (ecu_url r) (ContentURLs a)
          /\ r = {| ecu_url := ecu_url r; ecu_added := timeValue_Value obs;
                    ecu_fetched := None; ecu_content_type := None;
                    ecu_size := None; ecu_last_modified := None;
                    ecu_etag := None; ecu_error := None;
                    ecu_external_content_id := None |})
    /\ (forall l, In l nl ->
          In (mecu_external_content_url l) (ContentURLs a)
          /\ mecu_meeting_id l = mid /\ mecu_agenda_content_id l = cid).
Proof.
  unfold saveMeetingURLs.
  induction (ContentURLs a) as [|u us IH]; intros tx.
  - exists [], []. cbn [fold_left]. rewrite !app_nil_r.
    split; [reflexivity|]. split; [reflexivity|]. split; intros x [].
  - cbn [fold_left].
    set (tx1 := insert_meeting_external_content_url
                  (insert_external_content_url tx u (timeValue_Value obs))
                  {| mecu_meeting_id := mid; mecu_agenda_content_id := cid;
                     mecu_external_content_url := u |}).
    destruct (IH tx1) as (nu & nl & Hu & Hl & Hnu & Hnl).
    assert (H1 : exists nu1 nl1,
               external_content_urls tx1 = external_content_urls tx ++ nu1
               /\ meeting_external_content_urls tx1
                  = meeting_external_content_urls tx ++ nl1
               /\ (forall r, In r nu1 ->
                     r = {| ecu_url := u; ecu_added := timeValue_Value obs;
                            ecu_fetched := None; ecu_content_type := None;
                            ecu_size := None; ecu_last_modified := None;
                            ecu_etag := None; ecu_error := None;
                            ecu_external_content_id := None |})
               /\ (forall l, In l nl1 ->
                     l = {| mecu_meeting_id := mid; mecu_agenda_content_id := cid;
                            mecu_external_content_url := u |})).
    { unfold tx1, insert_meeting_external_content_url, insert_external_content_url.
      destruct (existsb _ (external_content_urls tx));
        destruct (existsb _ (meeting_external_content_urls _));
        cbn [external_content_urls meeting_external_content_urls].
      - exists [], []. rewrite !app_nil_r. repeat split; intros x [].
      - exists [], [{| mecu_meeting_id := mid; mecu_agenda_content_id := cid;
                       mecu_external_content_url := u |}].
        rewrite !app_nil_r. split; [reflexivity|]. split; [reflexivity|].
        split; [intros x []|]. intros l [<-|[]]. reflexivity.
      - eexists [_], []. rewrite !app_nil_r. split; [reflexivity|].
        split; [reflexivity|]. split; [|intros x []]. intros r [<-|[]]. reflexivity.
      - eexists [_], [_]. split; [reflexivity|]. split; [reflexivity|].
        split; [intros r [<-|[]]; reflexivity|intros l [<-|[]]; reflexivity]. }
    destruct H1 as (nu1 & nl1 & Hu1 & Hl1 & Hnu1 & Hnl1).
    exists (nu1 ++ nu), (nl1 ++ nl).
    split; [rewrite Hu, Hu1, app_assoc; reflexivity|].
    split; [rewrite Hl, Hl1, app_assoc; reflexivity|].
    split.
    + intros r Hin. apply in_app_iff in Hin. destruct Hin as [Hin|Hin].
      * rewrite (Hnu1 r Hin). cbn [ecu_url]. split; [left; reflexivity|reflexivity].
      * destruct (Hnu r Hin) as [H2 H3]. split; [right; exact H2|exact H3].
    + intros l Hin. apply in_app_iff in Hin. destruct Hin as [Hin|Hin].
      * rewrite (Hnl1 l Hin). cbn. split; [left; reflexivity|split; reflexivity].
      * destruct (Hnl l Hin) as [H2 H3]. split; [right; exact H2|exact H3].
Qed.

Section WithDigest.

Variable sum224_base62 : string -> string.

Local Abbreviation saveMeeting := (saveMeeting sum224_base62).
Local Abbreviation agendaContentID := (agendaContentID sum224_base62).
Local Abbreviation version_row := (version_row sum224_base62).

Lemma saveMeeting_other_meetings (db db1 : DB) (m : Meeting)
  (a : MeetingAgenda) (obs : Time) :
  saveMeeting db m a obs = Ok db1 ->
  filter (fun r => negb (String.eqb (mt_id r) (ID m))) (meetings db1)
  = filter (fun r => negb (String.eqb (mt_id r) (ID m))) (meetings db).
Proof.
  intros H. apply saveMeeting_Ok_inv in H. destruct H as [_ ->].
  set (cid := agendaContentID a).
  set (tx := insert_agenda_content db cid a).
  set (txm := mq tx m cid).
  set (txv := exec_vq txm (version_row m a obs)).
  set (txl := exec_lq txv (timeValue_Value obs) (ID m)).
  destruct (saveMeetingURLs_spec obs (ID m) cid a txl)
    as ((_ & _ & S3 & _) & _).
  destruct (vq_frame txm (version_row m a obs)) as (_ & _ & V3 & _).
  fold txv in V3.
  destruct (insert_agenda_content_frame db cid a) as (C1 & _). fold tx in C1.
  rewrite S3. unfold txl, exec_lq. tables.
  rewrite filter_map_other.
  - rewrite V3. unfold txm, mq, exec_mq.
    destruct (existsb _ (meetings tx)); tables.
    + rewrite filter_map_other; [rewrite C1; reflexivity| |].
      * intros x Hx. apply negb_true_iff in Hx. rewrite Hx. reflexivity.
      * intros x. destruct (String.eqb (mt_id x) (ID m)) eqn:Ex;
          cbn [mt_id]; rewrite ?Ex, ?String.eqb_refl; reflexivity.
    + rewrite filter_app. cbn [filter mt_id]. rewrite String.eqb_refl.
      cbn [negb]. rewrite app_nil_r, C1. reflexivity.
  - intros x Hx. apply negb_true_iff in Hx. rewrite Hx. reflexivity.
  - intros x. destruct (String.eqb (mt_id x) (ID m)) eqn:Ex;
      cbn [mt_id]; rewrite ?Ex; reflexivity.
Qed.

Lemma saveMeeting_url_rows (db db1 : DB) (m : Meeting)
  (a : MeetingAgenda) (obs : Time) :
  saveMeeting db m a obs = Ok db1 ->
  exists nu nl,
    external_content_urls db1 = external_content_urls db ++ nu
    /\ meeting_external_content_urls db1
       = meeting_external_content_urls db ++ nl
    /\ (forall r, In r nu ->
          In (ecu_url r) (ContentURLs a)
          /\ r = {| ecu_url := ecu_url r; ecu_added := timeValue_Value obs;
                    ecu_fetched := None; ecu_content_type := None;
                    ecu_size := None; ecu_last_modified := None;
                    ecu_etag := None; ecu_error := None;
                    ecu_external_content_id := None |})
    /\ (forall l, In l nl ->
          In (mecu_external_content_url l) (ContentURLs a)
          /\ mecu_meeting_id l = ID m
          /\ mecu_agenda_content_id l = agendaContentID a).
Proof.
  intros Hsave. apply saveMeeting_Ok_inv in Hsave. destruct Hsave as [_ Hdb1].
  set (cid := agendaContentID a) in *.
  set (tx := insert_agenda_content db cid a) in *.
  set (txm := mq tx m cid) in *.
  set (txv := exec_vq txm (version_row m a obs)) in *.
  set (txl := exec_lq txv (timeValue_Value obs) (ID m)) in *.
  destruct (lq_frame txv (timeValue_Value obs) (ID m))
    as (_ & _ & _ & _ & _ & L6 & L7). fold txl in L6, L7.
  destruct (vq_frame txm (version_row m a obs))
    as (_ & _ & _ & _ & _ & V6 & V7). fold txv in V6, V7.
  destruct (mq_frame tx m cid) as (_ & _ & _ & _ & _ & M6 & M7).
  fold txm in M6, M7.
  destruct (insert_agenda_content_frame db cid a)
    as (_ & _ & _ & _ & C5 & C6). fold tx in C5, C6.
  destruct (saveMeetingURLs_appends obs (ID m) cid a txl)
    as (nu & nl & Hu & Hl & Hnu & Hnl).
  rewrite <- Hdb1 in Hu, Hl.
  exists nu, nl.
  split; [rewrite Hu, L6, V6, M6, C5; reflexivity|].
  split; [rewrite Hl, L7, V7, M7, C6; reflexivity|].
  split; [exact Hnu|exact Hnl].
Qed.

(** X17. A committed [saveMeeting] only adds to what the store holds:
    at most one agenda content row and one version row are appended,
    rows for URLs and links of the agenda are appended (new URL rows
    are unfetched and carry the observation time), no existing row of
    these tables is changed, the external content is not touched, and
    the rows of the other meetings stay as they are. *)
Theorem saveMeeting_append_only (db db1 : DB) (m : Meeting)
  (a : MeetingAgenda) (obs : Time)
  (Hsave : saveMeeting db m a obs = Ok db1) :
  (exists new, meeting_agenda_content db1 = meeting_agenda_content db ++ new
               /\ (List.length new <= 1)%nat)
  /\ (exists new, meeting_versions db1 = meeting_versions db ++ new
                  /\ (List.length new <= 1)%nat)
  /\ (exists new,
        external_content_urls db1 = external_content_urls db ++ new
        /\ forall r, In r new ->
             In (ecu_url r) (ContentURLs a)
             /\ ecu_added r = timeValue_Value obs
             /\ ecu_fetched r = None)
  /\ (exists new,
        meeting_external_content_urls db1
        = meeting_external_content_urls db ++ new
        /\ forall l, In l new ->
             In (mecu_external_content_url l) (ContentURLs a)
             /\ mecu_meeting_id l = ID m
             /\ mecu_agenda_content_id l = agendaContentID a)
  /\ external_content db1 = external_content db
  /\ external_content_search db1 = external_content_search db
  /\ filter (fun r => negb (String.eqb (mt_id r) (ID m))) (meetings db1)
     = filter (fun r => negb (String.eqb (mt_id r) (ID m))) (meetings db).
Proof.
  pose proof (saveMeeting_other_meetings _ _ _ _ _ Hsave) as Hother.
  destruct (saveMeeting_url_rows _ _ _ _ _ Hsave)
    as (nu & nl & Hu & Hl & Hnu & Hnl).
  destruct (saveMeeting_tables _ _ _ _ _ _ Hsave)
    as (T1 & _ & T3 & T4 & T5 & _).
  split.
  { rewrite T1.
    destruct (existsb (fun r => String.eqb (mac_id r) (agendaContentID a))
                (meeting_agenda_content db)) eqn:E.
    - rewrite insert_agenda_content_present by exact E.
      exists []. split; [rewrite app_nil_r; reflexivity|cbn; lia].
    - rewrite insert_agenda_content_absent by exact E.
      cbn [meeting_agenda_content]. eexists. split; [reflexivity|cbn; lia]. }
  split.
  { rewrite T3. destruct (existsb _ (meeting_versions db)).
    - exists []. split; [rewrite app_nil_r; reflexivity|cbn; lia].
    - eexists. split; [reflexivity|cbn; lia]. }
  split.
  { exists nu. split; [exact Hu|].
    intros r Hin. destruct (Hnu r Hin) as [H1 H2].
    split; [exact H1|]. rewrite H2. split; reflexivity. }
  split.
  { exists nl. split; [exact Hl|exact Hnl]. }
  split; [exact T4|]. split; [exact T5|exact Hother].
Qed.

End WithDigest.

Lemma refs_ok_emptyDB : refs_ok emptyDB.
Proof. split; cbn; intros; contradiction. Qed.

Lemma refs_ok_saveMeeting (sum : string -> string) (db db1 : DB) (m : Meeting)
  (a : MeetingAgenda) (obs : Time) :
  refs_ok db -> saveMeeting sum db m a obs = Ok db1 -> refs_ok db1.
Proof.
  intros [R1 R2 R3 R4] Hsave.
  pose proof (saveMeeting_other_meetings sum _ _ _ _ _ Hsave) as Hother.
  destruct (saveMeeting_url_rows sum _ _ _ _ _ Hsave)
    as (nu & nl & Hu & Hl & Hnu & Hnl).
  destruct (saveMeeting_tables sum _ _ _ _ _ Hsave)
    as (T1 & _ & T3 & T4 & _ & T6 & T7 & _ & T9 & _).
  set (cid := agendaContentID sum a) in *.
  assert (Hmac : forall id, has_agenda_content db id -> has_agenda_content db1 id).
  { unfold has_agenda_content. intros id H. rewrite T1.
    destruct (existsb (fun r => String.eqb (mac_id r) cid)
                (meeting_agenda_content db)) eqn:E.
    - rewrite insert_agenda_content_present by exact E. exact H.
    - rewrite insert_agenda_content_absent by exact E.
      cbn [meeting_agenda_content]. rewrite existsb_app, H. reflexivity. }
  assert (Hcid : has_agenda_content db1 cid).
  { unfold has_agenda_content. rewrite T1.
    destruct (existsb (fun r => String.eqb (mac_id r) cid)
                (meeting_agenda_content db)) eqn:E.
    - rewrite insert_agenda_content_present by exact E. exact E.
    - rewrite insert_agenda_content_absent by exact E.
      cbn [meeting_agenda_content]. rewrite existsb_app. cbn [existsb mac_id].
      rewrite String.eqb_refl, orb_true_r. reflexivity. }
  assert (Hold : forall r, In r (meetings db1) -> mt_id r <> ID m ->
                   In r (meetings db)).
  { intros r Hin Hne.
    assert (Hf : In r (filter (fun r => negb (String.eqb (mt_id r) (ID m)))
                         (meetings db1))).
    { apply filter_In. split; [exact Hin|].
      apply negb_true_iff. apply String.eqb_neq. exact Hne. }
    rewrite Hother in Hf. apply filter_In in Hf. apply Hf. }
  assert (Hmt : forall id, has_meeting db id -> has_meeting db1 id).
  { unfold has_meeting. intros id H.
    destruct (String.eqb_spec id (ID m)) as [->|Hne]; [exact T6|].
    apply existsb_exists in H. destruct H as (r & Hin & Hr).
    apply String.eqb_eq in Hr.
    assert (Hf : In r (filter (fun r => negb (String.eqb (mt_id r) (ID m)))
                         (meetings db))).
    { apply filter_In. split; [exact Hin|].
      apply negb_true_iff. apply String.eqb_neq. congruence. }
    rewrite <- Hother in Hf. apply filter_In in Hf.
    apply existsb_exists. exists r. split; [apply Hf|].
    apply String.eqb_eq. exact Hr. }
  assert (Hurl : forall u, has_url db u -> has_url db1 u).
  { unfold has_url. intros u H. rewrite Hu, existsb_app, H. reflexivity. }
  split.
  - intros r Hin. destruct (String.eqb_spec (mt_id r) (ID m)) as [He|Hne].
    + rewrite (T7 r Hin He). exact Hcid.
    + apply Hmac. apply R1. exact (Hold r Hin Hne).
  - intros v Hin. rewrite T3 in Hin.
    assert (Hv : In v (meeting_versions db) \/ v = version_row sum m a obs).
    { destruct (existsb _ (meeting_versions db)); [left; exact Hin|].
      apply in_app_iff in Hin. destruct Hin as [Hin|[<-|[]]]; auto. }
    destruct Hv as [Hv | ->].
    + destruct (R2 v Hv) as [A B]. split; [apply Hmt; exact A|apply Hmac; exact B].
    + split; [exact T6|exact Hcid].
  - intros r id Hin Hid. rewrite Hu in Hin. apply in_app_iff in Hin.
    unfold has_content. rewrite T4. destruct Hin as [Hin|Hin].
    + exact (R3 r id Hin Hid).
    + destruct (Hnu r Hin) as [_ Hr]. rewrite Hr in Hid. discriminate.
  - intros l Hin. rewrite Hl in Hin. apply in_app_iff in Hin.
    destruct Hin as [Hin|Hin].
    + destruct (R4 l Hin) as (A & B & C).
      split; [apply Hmt; exact A|]. split; [apply Hmac; exact B|apply Hurl; exact C].
    + destruct (Hnl l Hin) as (A & B & C). rewrite B, C.
      split; [exact T6|]. split; [exact Hcid|].
      apply (T9 _ A).
Qed.

Lemma refs_ok_update (db db' : DB) :
  meeting_agenda_content db' = meeting_agenda_content db ->
  meetings db' = meetings db ->
  meeting_versions db' = meeting_versions db ->
  meeting_external_content_urls db' = meeting_external_content_urls db ->
  (forall u, has_url db u -> has_url db' u) ->
  (forall r id, In r (external_content_urls db') ->
     ecu_external_content_id r = Some id -> has_content db' id) ->
  refs_ok db -> refs_ok db'.
Proof.
  intros E1 E2 E3 E4 Hurl Hrows [R1 R2 R3 R4].
  split; unfold has_agenda_content, has_meeting in *.
  - rewrite E1, E2. exact R1.
  - rewrite E1, E2, E3. exact R2.
  - exact Hrows.
  - rewrite E1, E2, E4. intros l Hin. destruct (R4 l Hin) as (A & B & C).
    split; [exact A|]. split; [exact B|apply Hurl; exact C].
Qed.

Lemma refs_ok_processURL (sum TrimSpace : string -> string)
  (parseRFC1123 : string -> result Time) (get : string -> RoundTrip)
  (tempFile tempDir : string) (pdfinfo pdftotext : string -> result string)
  (pdftoppm : string -> result (list (string * string)))
  (tesseract : string -> result string) (db : DB) (now : Time) (u : string) :
  refs_ok db ->
  refs_ok (snd (fst (processURL sum TrimSpace parseRFC1123 get tempFile tempDir
                       pdfinfo pdftotext pdftoppm tesseract db now u))).
Proof.
  intros R.
  destruct (fetchURLContent sum parseRFC1123 get tempFile u)
    as [effs [uc|ferr]] eqn:E.
  - rewrite (processURL_fetched sum TrimSpace parseRFC1123 get tempFile tempDir
               pdfinfo pdftotext pdftoppm tesseract db now u effs uc E).
    cbn [fst snd].
    match goal with |- context [saveContent db ?x] => set (c := x) end.
    assert (Hc : c_id c = uc_contentID uc)
      by (subst c; destruct (negb _ && _); reflexivity).
    set (known := existsb (fun r => String.eqb (ec_id r) (uc_contentID uc))
                    (external_content db)) in *.
    set (dbc := if known then db else saveContent db c).
    assert (Hrows : external_content_urls dbc = external_content_urls db)
      by (unfold dbc; destruct known; reflexivity).
    assert (Hgrow : forall id, has_content db id -> has_content dbc id).
    { unfold has_content, dbc. intros id H. destruct known eqn:Ek; [exact H|].
      rewrite saveContent_absent by (rewrite Hc; exact Ek).
      rewrite existsb_app, H. reflexivity. }
    assert (Hid : has_content dbc (uc_contentID uc)).
    { unfold has_content, dbc. destruct known eqn:Ek; [exact Ek|].
      rewrite saveContent_absent by (rewrite Hc; exact Ek).
      rewrite existsb_app. cbn [existsb ec_id]. rewrite Hc, String.eqb_refl.
      rewrite orb_true_r. reflexivity. }
    apply (refs_ok_update db); try (unfold dbc; destruct known; reflexivity);
      [| |exact R].
    + unfold has_url. intros p Hp. rewrite ProcessURLFacts.update_fetched_present, Hrows.
      exact Hp.
    + unfold update_fetched, with_external_content_urls.
      cbn [external_content_urls]. unfold has_content. cbn [external_content].
      rewrite Hrows. intros r' id Hin Hr'.
      apply in_map_iff in Hin. destruct Hin as (r & <- & Hin).
      destruct (String.eqb (ecu_url r) u).
      * cbn [ecu_external_content_id] in Hr'. inversion Hr'. subst id. exact Hid.
      * apply Hgrow. exact (refs_urls db R r id Hin Hr').
  - unfold Content.processURL. rewrite E. cbn [fst snd].
    apply (refs_ok_update db); try reflexivity; [| |exact R].
    + unfold has_url, saveErr, with_external_content_urls.
      cbn [external_content_urls]. intros p Hp. rewrite existsb_map; [exact Hp|].
      intros x. destruct (String.eqb (ecu_url x) u); reflexivity.
    + unfold saveErr, with_external_content_urls.
      cbn [external_content_urls]. unfold has_content. cbn [external_content].
      intros r' id Hin Hr'.
      apply in_map_iff in Hin. destruct Hin as (r & <- & Hin).
      destruct (String.eqb (ecu_url r) u);
        exact (refs_urls db R r id Hin Hr').
Qed.

Lemma refs_ok_later (db db' : DB) : later db db' -> refs_ok db -> refs_ok db'.
Proof.
  induction 1 as [|d d' d'' Hs _ IH]; intros H; [exact H|].
  apply IH. destruct Hs as [sum d d' m a obs Hs|sum ts p g tf td i t pp te d now u' Hz].
  - exact (refs_ok_saveMeeting sum _ _ _ _ _ H Hs).
  - apply refs_ok_processURL. exact H.
Qed.

(** X18. Every store the program reaches from a new one by committed
    [saveMeeting]s and [processURL]s satisfies the constraints of the
    schema: the primary keys and unique constraints, the one-to-one
    correspondence of each content table with its full-text index, and
    the [references] clauses, which SQLite does not enforce by
    default. *)
Theorem reachable_integrity (db : DB) (Hrun : later emptyDB db) :
  wf db /\ refs_ok db.
Proof.
  split.
  - exact (wf_later emptyDB db Hrun wf_emptyDB).
  - exact (refs_ok_later emptyDB db Hrun refs_ok_emptyDB).
Qed.

Lemma saved_again_Ok :
  saveMeeting plain_sum crawled meeting_today agenda_today one_oclock
  = Ok saved_again.
Proof. vm_compute. reflexivity. Qed.

Lemma saveMeeting_append_only_witness :
  saveMeeting plain_sum crawled meeting_today agenda_today one_oclock
  = Ok saved_again
  /\ (exists new,
        meeting_versions saved_again = meeting_versions crawled ++ new
        /\ (List.length new <= 1)%nat)
  /\ (exists new,
        external_content_urls saved_again = external_content_urls crawled ++ new
        /\ forall r, In r new ->
             In (ecu_url r) (ContentURLs agenda_today)
             /\ ecu_added r = timeValue_Value one_oclock
             /\ ecu_fetched r = None).
Proof.
  split; [exact saved_again_Ok|].
  destruct (saveMeeting_append_only plain_sum crawled saved_again meeting_today
              agenda_today one_oclock saved_again_Ok)
    as (_ & H2 & H3 & _).
  split; [exact H2|exact H3].
Defined.

Lemma reachable_integrity_witness :
  later emptyDB fetched_once /\ wf fetched_once /\ refs_ok fetched_once.
Proof.
  assert (H : later emptyDB fetched_once).
  { apply (later_step emptyDB crawled fetched_once).
    - apply (step_saveMeeting plain_sum emptyDB crawled meeting_today
               agenda_documents noon).
      vm_compute. reflexivity.
    - apply (later_step crawled fetched_once fetched_once); [|apply later_now].
      apply (step_processURL plain_sum trim_ascii no_rfc1123 documents_get
               "/tmp/fetchURLContent1" "/tmp/processPDF1"
               scan_pdfinfo scan_pdftotext scan_pdftoppm scan_tesseract
               crawled one_oclock url_a).
      vm_compute. reflexivity. }
  split; [exact H|]. exact (reachable_integrity fetched_once H).
Defined.

End HistoryFacts.

(** ** A page that cannot be recognised *)
Module OCRFacts.
Import GoStrings GoStringsFacts Store Client Content PDFSpec PDFFacts Scenario
  ScannedDocument Scenario2.

Lemma ReadFile_WriteFile_other (d : Dir) (name data n : string) :
  name <> n -> ReadFile (WriteFile d name data) n = ReadFile d n.
Proof.
  intros Hne. unfold ReadFile, WriteFile.
  induction d as [|e d IH].
  - cbn. rewrite (proj2 (String.eqb_neq _ _) Hne). reflexivity.
  - cbn [filter]. destruct (String.eqb (fst e) name) eqn:En; cbn [negb].
    + apply String.eqb_eq in En. cbn [find].
      assert (Hn : String.eqb (fst e) n = false)
        by (apply String.eqb_neq; congruence).
      rewrite Hn. exact IH.
    + cbn [app find]. destruct (String.eqb (fst e) n); [reflexivity|exact IH].
Qed.

Section WithTools.

Variable TrimSpace : string -> string.
Variable tempDir : string.
Variable pdfinfo : string -> result string.
Variable pdftotext : string -> result string.
Variable pdftoppm : string -> result (list (string * string)).
Variable tesseract : string -> result string.

Local Abbreviation ocrPages := (ocrPages tempDir tesseract).
Local Abbreviation processPDF :=
  (processPDF TrimSpace tempDir pdfinfo pdftotext pdftoppm tesseract).
Local Abbreviation ocr_effect := (ocr_effect tempDir).

Lemma ocrPages_failure (before : list Page) (bad : Page) (after : list Page)
  (e : error) :
  Forall (fun p => tesseract (image p) = Ok (recognised p)) before ->
  tesseract (image bad) = Err e ->
  forall td,
  (forall p, In p (before ++ bad :: after) ->
     ReadFile td (pageFile p) = Ok (image p)) ->
  ocrPages td (map pageFile (before ++ bad :: after))
  = (map ocr_effect before ++ [ocr_effect bad], Err (wrap "tesseract" e)).
Proof.
  intros Hok Hbad. induction before as [|q before IH]; intros td Hr.
  - cbn [app map Content.ocrPages].
    rewrite (Hr bad (or_introl eq_refl)). cbn [bind]. rewrite Hbad. reflexivity.
  - inversion Hok as [|? ? Hq Hok']; subst.
    cbn [app map Content.ocrPages].
    rewrite (Hr q (or_introl eq_refl)). cbn [bind]. rewrite Hq.
    rewrite (IH Hok'); [reflexivity|].
    intros p Hp. rewrite ReadFile_WriteFile_other.
    + apply Hr. right. exact Hp.
    + apply (txt_not_png q p).
Qed.

(** X19. When [tesseract] fails on a page of a PDF without text layer,
    [processPDF] stops there: the pages before it were recognised, no
    page after it is given to [tesseract], and the result is the error
    of [tesseract] with an empty title and text; what was recognised
    so far is dropped. *)
Theorem processPDF_tesseract_failure (f : File) (info out : string)
  (before : list Page) (bad : Page) (after : list Page) (e : error)
  (Hinfo : pdfinfo (f_bytes f) = Ok info)
  (Htext : pdftotext (f_bytes f) = Ok out)
  (Hempty : TrimSpace out = "")
  (Hppm : pdftoppm (f_bytes f) = Ok (pageImages (before ++ bad :: after)))
  (Horder : in_page_order (before ++ bad :: after))
  (Hbefore : Forall (fun p => tesseract (image p) = Ok (recognised p)) before)
  (Hbad : tesseract (image bad) = Err e) :
  processPDF f
  = ([Exec "pdfinfo" [f_Name f]; Exec "pdftotext" [f_Name f; "-"];
      Exec "pdftoppm" ["-png"; f_Name f; Join tempDir "page"]]
     ++ map ocr_effect before ++ [ocr_effect bad],
     ({| pdf_title := ""; pdf_text := "" |}, Some ("tesseract: " ++ e)%string)).
Proof.
  unfold Content.processPDF. rewrite Hinfo, Htext, Hempty.
  cbn [String.eqb negb]. rewrite Hppm.
  rewrite (pdftoppm_directory _ Horder []) by (intros p x _ []).
  cbn [app].
  assert (Hglob : Glob (pageImages (before ++ bad :: after)) "page" ".png"
                  = map pageFile (before ++ bad :: after)).
  { rewrite <- (app_nil_r (pageImages (before ++ bad :: after))).
    apply Glob_png; [exact Horder|intros x []]. }
  rewrite Hglob.
  rewrite (ocrPages_failure before bad after e Hbefore Hbad).
  - reflexivity.
  - apply ReadFile_images. exact Horder.
Qed.

End WithTools.

Lemma processPDF_tesseract_failure_witness :
  processPDF trim_ascii "/tmp/processPDF1" scan_pdfinfo scan_pdftotext
    scan_pdftoppm tesseract_fails_10 scan_file
  = ([Exec "pdfinfo" ["/tmp/fetchURLContent1"];
      Exec "pdftotext" ["/tmp/fetchURLContent1"; "-"];
      Exec "pdftoppm" ["-png"; "/tmp/fetchURLContent1";
                       "/tmp/processPDF1/page"];
      Exec "tesseract" ["/tmp/processPDF1/page-09.png";
                        "/tmp/processPDF1/page-09.png"];
      Exec "tesseract" ["/tmp/processPDF1/page-10.png";
                        "/tmp/processPDF1/page-10.png"]],
     ({| pdf_title := ""; pdf_text := "" |}, Some "tesseract: exit status 1")).
Proof.
  exact (processPDF_tesseract_failure trim_ascii "/tmp/processPDF1"
           scan_pdfinfo scan_pdftotext scan_pdftoppm tesseract_fails_10
           scan_file scan_info "  "
           (numbered 2 9 [("png9", "nine ")])
           {| stem := "-10"; image := "png10"; recognised := "ten" |}
           (numbered 2 11 [("png11", "eleven")])
           "exit status 1"
           eq_refl eq_refl eq_refl eq_refl scan_in_page_order
           ltac:(repeat constructor) eq_refl).
Defined.

End OCRFacts.

(** ** A crawl run again *)
Module RerunFacts.
Import GoTime GoTimeFacts Store Client Meetings Integrity FreshnessFacts
  CountFacts VersioningFacts HistoryFacts StoredTimeFacts Scenario.

Lemma find_filter_key {A} (key : A -> string) (k k' : string) (l : list A) :
  k <> k' ->
  find (fun r => String.eqb (key r) k)
    (filter (fun r => negb (String.eqb (key r) k')) l)
  = find (fun r => String.eqb (key r) k) l.
Proof.
  intros Hne. induction l as [|x l IH]; [reflexivity|].
  cbn [filter find]. destruct (String.eqb (key x) k') eqn:E'; cbn [negb].
  - apply String.eqb_eq in E'.
    assert (Hk : String.eqb (key x) k = false)
      by (apply String.eqb_neq; congruence).
    rewrite Hk. exact IH.
  - cbn [find]. destruct (String.eqb (key x) k); [reflexivity|exact IH].
Qed.

Section WithEnvironment.

Variable sum224_base62 : string -> string.
Variable clock : nat -> Time.

Local Abbreviation saveMeeting := (saveMeeting sum224_base62).
Local Abbreviation processMeeting := (processMeeting sum224_base62).
Local Abbreviation processQueue := (processQueue sum224_base62 clock).

Lemma saveMeeting_select_other (db db1 : DB) (m : Meeting)
  (a : MeetingAgenda) (obs : Time) (id : string) :
  saveMeeting db m a obs = Ok db1 -> id <> ID m ->
  select_last_observed db1 id = select_last_observed db id.
Proof.
  intros Hsave Hne.
  pose proof (saveMeeting_other_meetings sum224_base62 _ _ _ _ _ Hsave) as Ho.
  unfold select_last_observed.
  rewrite <- (find_filter_key mt_id id (ID m) (meetings db1) Hne).
  rewrite <- (find_filter_key mt_id id (ID m) (meetings db) Hne).
  rewrite Ho. reflexivity.
Qed.

Lemma processMeeting_Ok (db db' : DB) (a : client) (m : Meeting) (now : Time)
  (effs : list Effect) :
  processMeeting db a m now = (effs, db', Ok tt) ->
  exists agenda, saveMeeting db m agenda now = Ok db'.
Proof.
  unfold Meetings.processMeeting.
  destruct (String.eqb (Meeting_URL m "agenda") ""); [discriminate|].
  destruct (Agenda a (Meeting_URL m "agenda")) as [effs0 [agenda|e0]];
    [|discriminate].
  destruct (saveMeeting db m agenda now) as [db1|e1] eqn:Es; [|discriminate].
  intros H. inversion H; subst. exists agenda. exact Es.
Qed.

(** After the queue was processed, a meeting that is in the queue, or
    was last observed at a reading of the clock from [lo] on, was last
    observed at such a reading. *)
Lemma processQueue_observed (q : list meetingAgendaer) :
  forall (db db' : DB) (k lo : nat) (effs : list Effect) (id : string),
  processQueue db q k = (effs, db', Ok tt) ->
  (lo <= k)%nat ->
  (exists m a, In (m, a) q /\ ID m = id)
  \/ (exists j, (lo <= j < k)%nat
                /\ select_last_observed db id = Some (timeValue_Value (clock j))) ->
  exists j, (lo <= j < k + List.length q)%nat
            /\ select_last_observed db' id = Some (timeValue_Value (clock j)).
Proof.
  induction q as [|[m0 a0] q IH]; intros db db' k lo effs id H Hlo Hin.
  - cbn in H. inversion H; subst. destruct Hin as [(m & a & [] & _)|(j & Hj & Hs)].
    exists j. cbn [List.length]. split; [lia|exact Hs].
  - cbn [Meetings.processQueue] in H.
    destruct (processMeeting db a0 m0 (clock k)) as [[e0 db0] [[]|err]] eqn:Em;
      [|discriminate].
    destruct (processQueue db0 q (S k)) as [[e1 db1] r1] eqn:Eq.
    inversion H; subst.
    destruct (processMeeting_Ok _ _ _ _ _ _ Em) as [agenda Hsave].
    assert (Hnext : (exists m a, In (m, a) q /\ ID m = id)
                    \/ (exists j, (lo <= j < S k)%nat
                          /\ select_last_observed db0 id
                             = Some (timeValue_Value (clock j)))).
    { destruct (String.eqb_spec id (ID m0)) as [->|Hne].
      - right. exists k. split; [lia|]. exact (saveMeeting_select sum224_base62 _ _ _ _ _ Hsave).
      - destruct Hin as [(m & a & [Hm|Hm] & Hid)|(j & Hj & Hs)].
        + inversion Hm; subst. contradiction.
        + left. exists m, a. split; [exact Hm|exact Hid].
        + right. exists j. split; [lia|].
          rewrite (saveMeeting_select_other _ _ _ _ _ _ Hsave Hne). exact Hs. }
    destruct (IH db0 db' (S k) lo e1 id Eq ltac:(lia) Hnext) as (j & Hj & Hs).
    exists j. cbn [List.length]. split; [lia|exact Hs].
Qed.

(** X20. After [processMeetings] has worked through its queue without
    an error, every meeting of the queue is fresh until 58 minutes less
    a millisecond after the earliest reading of the clock in the loop,
    whatever its date and the jitter: a run started again within that
    time fetches none of these agendas.  (The clock does not read the
    zero time.) *)
Theorem processQueue_leaves_fresh (q : list meetingAgendaer) (db db' : DB)
  (k : nat) (effs : list Effect) (m : Meeting) (a : client) (now src : Z)
  (Hrun : processQueue db q k = (effs, db', Ok tt))
  (Hin : In (m, a) q)
  (Hclock : forall j, (k <= j < k + List.length q)%nat -> IsZero (clock j) = false)
  (Hnow : forall j, (k <= j < k + List.length q)%nat ->
            now < clock j + 58 * Minute - Millisecond) :
  isMeetingFresh db' m now src = true.
Proof.
  destruct (processQueue_observed q db db' k k effs (ID m) Hrun (le_n k))
    as (j & Hj & Hs).
  { left. exists m, a. split; [exact Hin|reflexivity]. }
  exact (fresh_of_observed db' m (clock j) now src Hs (Hclock j Hj) (Hnow j Hj)).
Qed.

End WithEnvironment.

Lemma processQueue_leaves_fresh_witness :
  exists effs db',
    processQueue plain_sum (fun _ => noon) emptyDB
      [(meeting_today, one_page); (meeting_new, one_page)] 0
    = (effs, db', Ok tt)
    /\ isMeetingFresh db' meeting_today (noon + 57 * Minute) 3 = true.
Proof.
  eexists _, _.
  assert (H : processQueue plain_sum (fun _ => noon) emptyDB
                [(meeting_today, one_page); (meeting_new, one_page)] 0
              = (_, _, Ok tt)) by (vm_compute; reflexivity).
  split; [exact H|].
  apply (processQueue_leaves_fresh plain_sum (fun _ => noon) _ _ _ _ _
           meeting_today one_page (noon + 57 * Minute) 3 H).
  - left. reflexivity.
  - intros j _. vm_compute. reflexivity.
  - intros j _. vm_compute. reflexivity.
Defined.

End RerunFacts.

(** ** The flag [-only] *)
Module MainFacts.
Import GoStrings GoStringsFacts Store Client Main MainSpec Scenario Documents
  Scenario2.

Lemma Split_nonempty (s : string) (sep : ascii) : Split s sep <> [].
Proof.
  destruct s as [|c s]; cbn [Split]; [discriminate|].
  destruct (Ascii.eqb c sep); [discriminate|].
  destruct (Split s sep); discriminate.
Qed.

Lemma add_key_In (keys : list string) (s x : string) :
  In x (add_key keys s) <-> In x keys \/ x = s.
Proof.
  unfold add_key. destruct (existsb (String.eqb s) keys) eqn:E.
  - split; [auto|]. intros [H | ->]; [exact H|].
    apply existsb_exists in E. destruct E as (y & Hy & Hs).
    apply String.eqb_eq in Hs. subst y. exact Hy.
  - rewrite in_app_iff. cbn [In]. split.
    + intros [H|[<-|[]]]; auto.
    + intros [H | ->]; auto.
Qed.

Lemma fold_add_key_In (l : list string) :
  forall keys x, In x (fold_left add_key l keys) <-> In x keys \/ In x l.
Proof.
  induction l as [|s l IH]; intros keys x; cbn [fold_left In].
  - tauto.
  - rewrite IH, add_key_In. split.
    + intros [[H| ->]|H]; auto.
    + intros [H|[<-|H]]; auto.
Qed.

Lemma Set_In (s x : string) :
  In x (vals (commaSeparatedString_Set s)) <-> In x (Split s ","%char).
Proof.
  unfold commaSeparatedString_Set. cbn [vals]. rewrite fold_add_key_In.
  cbn [In]. tauto.
Qed.

Lemma Set_nonempty (s : string) : vals (commaSeparatedString_Set s) <> [].
Proof.
  pose proof (Split_nonempty s ","%char) as Hne.
  destruct (Split s ","%char) as [|x l] eqn:E; [contradiction|].
  intros Hnil.
  assert (Hx : In x (vals (commaSeparatedString_Set s))).
  { apply Set_In. rewrite E. left. reflexivity. }
  rewrite Hnil in Hx. exact Hx.
Qed.

Lemma existsb_In_eqb (x : string) (l l' : list string) :
  (forall y, In y l <-> In y l') ->
  existsb (String.eqb x) l = existsb (String.eqb x) l'.
Proof.
  intros H. destruct (existsb (String.eqb x) l') eqn:E.
  - apply existsb_exists in E. destruct E as (y & Hy & Hxy).
    apply existsb_exists. exists y. split; [apply H; exact Hy|exact Hxy].
  - apply not_true_is_false. intros E'. apply existsb_exists in E'.
    destruct E' as (y & Hy & Hxy).
    assert (E2 : existsb (String.eqb x) l' = true).
    { apply existsb_exists. exists y. split; [apply H; exact Hy|exact Hxy]. }
    rewrite E2 in E. discriminate.
Qed.

Lemma runActions_only (s : string) (acts : list action) :
  forall db,
  runActions (commaSeparatedString_Set s) acts db
  = runActions unset
      (filter (fun a => existsb (String.eqb (name a)) (Split s ","%char)) acts)
      db.
Proof.
  assert (Hlen : (0 <? List.length (vals (commaSeparatedString_Set s)))%nat = true).
  { pose proof (Set_nonempty s) as Hne.
    destruct (vals (commaSeparatedString_Set s)); [contradiction|reflexivity]. }
  induction acts as [|a acts IH]; intros db; [reflexivity|].
  cbn [runActions filter]. rewrite Hlen. cbn [andb].
  rewrite (existsb_In_eqb (name a) _ (Split s ","%char) (Set_In s)).
  destruct (existsb (String.eqb (name a)) (Split s ","%char)); cbn [negb].
  - cbn [runActions unset vals List.length Nat.ltb Nat.leb andb].
    destruct (fn a db) as [[effs db'] [[]|e]]; [|reflexivity].
    rewrite IH. reflexivity.
  - apply IH.
Qed.

Lemma Split_piece (x : string) :
  no_comma x = true -> Split x ","%char = [x].
Proof.
  induction x as [|c x IH]; intros H; [reflexivity|].
  cbn [no_comma] in H. apply andb_true_iff in H. destruct H as [Hc Hx].
  apply negb_true_iff in Hc. cbn [Split]. rewrite Hc, (IH Hx). reflexivity.
Qed.

Lemma Split_cons_piece (x rest : string) :
  no_comma x = true ->
  Split (x ++ "," ++ rest) ","%char = x :: Split rest ","%char.
Proof.
  induction x as [|c x IH]; intros H.
  - cbn [append Split]. rewrite Ascii.eqb_refl. reflexivity.
  - cbn [no_comma] in H. apply andb_true_iff in H. destruct H as [Hc Hx].
    apply negb_true_iff in Hc.
    change (String c x ++ "," ++ rest)%string
      with (String c (x ++ "," ++ rest)%string).
    cbn [Split]. rewrite Hc, (IH Hx). reflexivity.
Qed.

Lemma Split_Join (l : list string) :
  l <> [] -> Forall (fun x => no_comma x = true) l ->
  Split (Join l ",") ","%char = l.
Proof.
  induction l as [|x l IH]; intros Hne Hall; [contradiction|].
  inversion Hall as [|? ? Hx Hl]; subst.
  destruct l as [|y l].
  - cbn [Join]. apply Split_piece. exact Hx.
  - change (Join (x :: y :: l) ",") with (x ++ "," ++ Join (y :: l) ",")%string.
    rewrite (Split_cons_piece x _ Hx), IH; [reflexivity|discriminate|exact Hl].
Qed.

Lemma Split_no_comma (s : string) :
  Forall (fun x => no_comma x = true) (Split s ","%char).
Proof.
  induction s as [|c s IH]; [repeat constructor|].
  cbn [Split]. destruct (Ascii.eqb c ","%char) eqn:Ec.
  - constructor; [reflexivity|exact IH].
  - destruct (Split s ","%char) as [|p ps].
    + constructor; [|constructor]. cbn [no_comma]. rewrite Ec. reflexivity.
    + inversion IH as [|? ? Hp Hps]; subst. constructor; [|exact Hps].
      cbn [no_comma]. rewrite Ec, Hp. reflexivity.
Qed.

Lemma insert_sorted_In (x y : string) (l : list string) :
  In y (insert_sorted x l) <-> y = x \/ In y l.
Proof.
  induction l as [|z l IH]; cbn [insert_sorted In].
  - split; [intros [<-|[]]; auto|intros [->|[]]; auto].
  - destruct (leb x z); cbn [In].
    + split; [intros [<-|H]; auto|intros [->|H]; auto].
    + rewrite IH. split.
      * intros [H|[H|H]]; auto.
      * intros [H|[H|H]]; auto.
Qed.

Lemma Sort_In (y : string) (l : list string) : In y (Sort l) <-> In y l.
Proof.
  unfold Sort. induction l as [|x l IH]; cbn [fold_right In]; [tauto|].
  rewrite insert_sorted_In, IH. split; intros [H|H]; auto.
Qed.

Lemma insert_sorted_NoDup (x : string) (l : list string) :
  ~ In x l -> NoDup l -> NoDup (insert_sorted x l).
Proof.
  induction l as [|z l IH]; intros Hx Hl; cbn [insert_sorted].
  - constructor; [intros []|constructor].
  - destruct (leb x z); [constructor; assumption|].
    inversion Hl as [|? ? Hz Hl']; subst. constructor.
    + rewrite insert_sorted_In. intros [->|H]; [|contradiction].
      apply Hx. left. reflexivity.
    + apply IH; [|exact Hl']. intros H. apply Hx. right. exact H.
Qed.

Lemma Sort_NoDup (l : list string) : NoDup l -> NoDup (Sort l).
Proof.
  unfold Sort. induction 1 as [|x l Hx Hl IH]; cbn [fold_right]; [constructor|].
  apply insert_sorted_NoDup; [|exact IH].
  intros H. apply Hx. apply (Sort_In x l). exact H.
Qed.

Lemma leb_total (a : string) : forall b, leb a b = false -> leb b a = true.
Proof.
  induction a as [|c a IH]; intros b H; [discriminate|].
  destruct b as [|d b]; [reflexivity|].
  cbn [leb] in *.
  destruct (nat_of_ascii c <? nat_of_ascii d)%nat eqn:E1; [discriminate|].
  destruct (nat_of_ascii d <? nat_of_ascii c)%nat eqn:E2; [reflexivity|].
  apply IH. exact H.
Qed.

Lemma insert_sorted_sorted (x : string) (l : list string) :
  Sorted.Sorted (fun a b => leb a b = true) l ->
  Sorted.Sorted (fun a b => leb a b = true) (insert_sorted x l).
Proof.
  induction 1 as [|z l Hs IH Hh]; cbn [insert_sorted].
  - repeat constructor.
  - destruct (leb x z) eqn:E.
    + constructor; [constructor; assumption|]. constructor. exact E.
    + constructor; [exact IH|].
      destruct l as [|w l]; cbn [insert_sorted].
      * constructor. apply leb_total. exact E.
      * destruct (leb x w); constructor.
        -- apply leb_total. exact E.
        -- inversion Hh; subst. assumption.
Qed.

Lemma Sort_is_sorted (l : list string) :
  Sorted.Sorted (fun a b => leb a b = true) (Sort l).
Proof.
  unfold Sort. induction l as [|x l IH]; cbn [fold_right]; [constructor|].
  apply insert_sorted_sorted. exact IH.
Qed.

Lemma add_key_NoDup (keys : list string) (s : string) :
  NoDup keys -> NoDup (add_key keys s).
Proof.
  intros H. unfold add_key. destruct (existsb (String.eqb s) keys) eqn:E;
    [exact H|].
  apply NoDup_app; [exact H|repeat constructor; intros []|].
  intros x Hx [Hs|[]]. subst x.
  assert (E' : existsb (String.eqb s) keys = true).
  { apply existsb_exists. exists s. split; [exact Hx|apply String.eqb_refl]. }
  rewrite E' in E. discriminate.
Qed.

Lemma fold_add_key_NoDup (l : list string) :
  forall keys, NoDup keys -> NoDup (fold_left add_key l keys).
Proof.
  induction l as [|s l IH]; intros keys H; [exact H|].
  cbn [fold_left]. apply IH. apply add_key_NoDup. exact H.
Qed.

Lemma fold_add_key_distinct (l : list string) :
  forall keys, NoDup (keys ++ l) -> fold_left add_key l keys = keys ++ l.
Proof.
  induction l as [|s l IH]; intros keys H; [rewrite app_nil_r; reflexivity|].
  cbn [fold_left].
  assert (E : existsb (String.eqb s) keys = false).
  { apply not_true_is_false. intros E. apply existsb_exists in E.
    destruct E as (y & Hy & Hs). apply String.eqb_eq in Hs. subst y.
    apply NoDup_remove_2 in H. apply H. apply in_or_app. left. exact Hy. }
  unfold add_key at 2. rewrite E.
  change (keys ++ s :: l) with (keys ++ [s] ++ l) in *.
  rewrite app_assoc in *. apply IH. exact H.
Qed.

(** X22. The text [String] prints for a flag that was set is read back
    by [Set] as the same set of names: the keys are then the sorted
    names, and printing again gives the same text.  For a flag that was
    never set this fails: it prints as the empty text, which [Set] reads
    as the one name that is empty. *)
Theorem commaSeparatedString_round_trip (s : string) :
  let c := commaSeparatedString_Set s in
  vals (commaSeparatedString_Set (commaSeparatedString_String c))
  = Sort (vals c)
  /\ commaSeparatedString_String
       (commaSeparatedString_Set (commaSeparatedString_String c))
     = commaSeparatedString_String c
  /\ vals (commaSeparatedString_Set (commaSeparatedString_String unset)) = [""].
Proof.
  cbv zeta.
  set (v := vals (commaSeparatedString_Set s)).
  assert (Hnd : NoDup v).
  { unfold v, commaSeparatedString_Set. cbn [vals].
    apply fold_add_key_NoDup. constructor. }
  assert (Hne : Sort v <> []).
  { intros Hnil. pose proof (Set_nonempty s) as Hs. fold v in Hs.
    destruct v as [|x v']; [contradiction|].
    assert (Hx : In x (Sort (x :: v'))) by (apply Sort_In; left; reflexivity).
    rewrite Hnil in Hx. exact Hx. }
  assert (Hnc : Forall (fun x => no_comma x = true) (Sort v)).
  { apply Forall_forall. intros x Hx. apply (proj1 (Sort_In x v)) in Hx.
    unfold v in Hx. apply (proj1 (Set_In s x)) in Hx.
    pose proof (Split_no_comma s) as Hall. rewrite Forall_forall in Hall.
    apply Hall. exact Hx. }
  assert (Hvals : vals (commaSeparatedString_Set
                          (commaSeparatedString_String (commaSeparatedString_Set s)))
                  = Sort v).
  { unfold commaSeparatedString_String. fold v.
    unfold commaSeparatedString_Set at 1. cbn [vals].
    rewrite (Split_Join (Sort v) Hne Hnc).
    apply (fold_add_key_distinct (Sort v) []). cbn [app].
    apply Sort_NoDup. exact Hnd. }
  split; [exact Hvals|]. split; [|reflexivity].
  unfold commaSeparatedString_String at 1. rewrite Hvals.
  rewrite (Sort_sorted (Sort v) (Sort_is_sorted v)). reflexivity.
Qed.

Section WithActions.

Variable processMeetings : DB -> list Effect * DB * result unit.
Variable processExternalContentURLs : DB -> list Effect * DB * result unit.

Local Abbreviation main := (main processMeetings processExternalContentURLs).
Local Abbreviation actions := (actions processMeetings processExternalContentURLs).

(** X21. With [-only s], [main] runs the actions whose name is one of
    the pieces of [s] between commas, compared as they are, in the
    order of the program and not of the flag; a piece that names no
    action is ignored.  So a flag that names no action, the empty one
    included, makes the program do nothing and end without error. *)
Theorem main_only (s : string) (db : DB) :
  main (Some s) db
  = runActions unset
      (filter (fun a => existsb (String.eqb (name a)) (Split s ","%char))
         actions) db
  /\ (~ In "meetings" (Split s ","%char) -> ~ In "urls" (Split s ","%char) ->
      main (Some s) db = ([], db, Ok tt)).
Proof.
  assert (H : main (Some s) db
              = runActions unset
                  (filter (fun a => existsb (String.eqb (name a))
                                      (Split s ","%char)) actions) db)
    by apply runActions_only.
  split; [exact H|]. intros Hm Hu. rewrite H.
  unfold Main.actions. cbn [filter name].
  assert (Em : existsb (String.eqb "meetings") (Split s ","%char) = false).
  { apply not_true_is_false. intros E. apply existsb_exists in E.
    destruct E as (y & Hy & Hxy). apply String.eqb_eq in Hxy. subst y.
    exact (Hm Hy). }
  assert (Eu : existsb (String.eqb "urls") (Split s ","%char) = false).
  { apply not_true_is_false. intros E. apply existsb_exists in E.
    destruct E as (y & Hy & Hxy). apply String.eqb_eq in Hxy. subst y.
    exact (Hu Hy). }
  rewrite Em, Eu. reflexivity.
Qed.

End WithActions.

Lemma main_only_witness :
  main run_meetings run_urls (Some "urls, meetings") crawled = run_urls crawled
  /\ main run_meetings run_urls (Some "meeting") crawled = ([], crawled, Ok tt).
Proof.
  destruct (main_only run_meetings run_urls "meeting" crawled) as [_ H].
  split.
  - rewrite (proj1 (main_only run_meetings run_urls "urls, meetings" crawled)).
    vm_compute. reflexivity.
  - apply H; cbn; intros [E|[]]; discriminate E.
Defined.

End MainFacts.

(** ** The listing of halifax.ca *)
Module HalifaxFacts.
Import GoTime GoStrings Store Client Net Meetings Halifax CalendarFacts
  Scenario ListingExample.

Section WithNetwork.

Variable get : string -> RoundTrip.
Variable url_Parse : string -> option error.
Variable url_resolve : string -> string -> option string.
Variable NewDocumentFromReader : string -> result Listing.
Variable TrimSpace : string -> string.
Variable time_Parse : string -> result Time.
Variable range_order : nat -> list string.

Local Abbreviation abs := (Halifax.abs url_resolve).
Local Abbreviation urls := (Halifax.urls url_resolve).
Local Abbreviation rowURLs := (Halifax.rowURLs url_resolve).
Local Abbreviation listingMeetings :=
  (listingMeetings url_resolve TrimSpace time_Parse range_order).
Local Abbreviation Client_List :=
  (Client_List get url_Parse url_resolve NewDocumentFromReader TrimSpace
     time_Parse range_order).

Lemma rowURLs_find (u : string) (tr : ListingRow) (name : string)
  (order : list string) :
  forall acc,
  find (fun x => String.eqb (Name x) name)
    (fold_left
       (fun acc k =>
          if String.eqb (urls u tr k) "" then acc
          else acc ++ [{| Name := k; URL := urls u tr k |}])
       order acc)
  = match find (fun x => String.eqb (Name x) name) acc with
    | Some x => Some x
    | None =>
        if existsb (String.eqb name) order
           && negb (String.eqb (urls u tr name) "")
        then Some {| Name := name; URL := urls u tr name |}
        else None
    end.
Proof.
  induction order as [|k order IH]; intros acc; cbn [fold_left existsb].
  - cbn [andb]. destruct (find _ acc); reflexivity.
  - rewrite IH. destruct (String.eqb (urls u tr k) "") eqn:Ek.
    + destruct (find _ acc); [reflexivity|].
      destruct (String.eqb_spec name k) as [->|Hne]; cbn [orb].
      * rewrite Ek. cbn [negb]. rewrite andb_false_r. reflexivity.
      * reflexivity.
    + rewrite find_snoc. cbn [Name].
      destruct (find _ acc); [reflexivity|].
      destruct (String.eqb_spec k name) as [->|Hne].
      * rewrite String.eqb_refl. cbn [orb andb]. rewrite Ek. reflexivity.
      * rewrite (proj2 (String.eqb_neq name k)) by congruence. reflexivity.
Qed.

Lemma rowURLs_lookup (u : string) (tr : ListingRow) (name : string)
  (order : list string) :
  In name order ->
  Meeting_URL {| ID := ""; Type_ := ""; Event := {| Date := 0; Note := "" |};
                 URLs := rowURLs u tr order |} name
  = urls u tr name.
Proof.
  intros Hin. unfold Meeting_URL. cbn [URLs]. unfold Halifax.rowURLs.
  rewrite rowURLs_find. cbn [find].
  assert (E : existsb (String.eqb name) order = true).
  { apply existsb_exists. exists name. split; [exact Hin|apply String.eqb_refl]. }
  rewrite E. cbn [andb].
  destruct (String.eqb (urls u tr name) "") eqn:Ek; cbn [negb].
  - apply String.eqb_eq in Ek. symmetry. exact Ek.
  - reflexivity.
Qed.

Lemma rowURLs_not_empty (u : string) (tr : ListingRow) (order : list string) :
  forall acc,
  Forall (fun x => URL x <> "") acc ->
  Forall (fun x => URL x <> "")
    (fold_left
       (fun acc k =>
          if String.eqb (urls u tr k) "" then acc
          else acc ++ [{| Name := k; URL := urls u tr k |}])
       order acc).
Proof.
  induction order as [|k order IH]; intros acc H; [exact H|].
  cbn [fold_left]. apply IH.
  destruct (String.eqb (urls u tr k) "") eqn:Ek; [exact H|].
  apply Forall_app. split; [exact H|]. constructor; [|constructor].
  cbn [URL]. apply String.eqb_neq. exact Ek.
Qed.

(** X23. A page of the halifax.ca listing that is fetched and read
    gives one meeting for each row of the table, in the order of the
    rows: its date, note and type are the trimmed texts of the cells,
    its agenda, minutes and video URLs are the resolved links of the
    row in whatever order the map of URLs is visited, no URL of the
    meeting is empty, and its ID is derived from the agenda URL, so
    that a row without agenda link gives a meeting with the empty ID
    and no agenda URL.  The request goes to the token, or to the
    first page when the token is empty, and the next token is the
    resolved link to the next page, empty when there is none. *)
Theorem Client_List_page (token : string) (resp : Response) (b : string)
  (doc : Listing)
  (Hurl : url_Parse (pageURL token) = None)
  (Hget : get (pageURL token) = Responded resp)
  (Hstatus : StatusCode resp = 200)
  (Hbody : Body resp = Ok b)
  (Hdoc : NewDocumentFromReader b = Ok doc)
  (Htable : li_tables doc <> 0%nat)
  (Hdates : Forall (fun tr => exists t, time_Parse (TrimSpace (tr_time tr)) = Ok t)
              (li_rows doc))
  (Horder : forall i k, In k ["agenda"; "minutes"; "video"] ->
              In k (range_order i)) :
  let u := pageURL token in
  (token <> "" -> u = token)
  /\ abs u "" = ""
  /\ exists meetings,
       Client_List token
       = ([HTTPRequest "GET" u], Ok (meetings, abs u (li_next_href doc)))
       /\ Forall2
            (fun tr m =>
               time_Parse (TrimSpace (tr_time tr)) = Ok (Date (Event m))
               /\ Note (Event m) = TrimSpace (tr_strong tr)
               /\ Type_ m = TrimSpace (tr_type tr)
               /\ Meeting_URL m "agenda" = abs u (tr_agenda_href tr)
               /\ Meeting_URL m "minutes" = abs u (tr_minutes_href tr)
               /\ Meeting_URL m "video" = abs u (tr_video_href tr)
               /\ Forall (fun x => URL x <> "") (URLs m)
               /\ ID m = meetingID (abs u (tr_agenda_href tr))
               /\ (tr_agenda_href tr = "" ->
                   ID m = "" /\ Meeting_URL m "agenda" = ""))
            (li_rows doc) meetings.
Proof.
  cbv zeta. split.
  { intros Hne. unfold pageURL. apply String.eqb_neq in Hne. rewrite Hne.
    reflexivity. }
  split; [reflexivity|].
  set (u := pageURL token) in *.
  assert (Hrows : forall rows i acc,
             Forall (fun tr => exists t, time_Parse (TrimSpace (tr_time tr)) = Ok t)
               rows ->
             exists ms,
               listingMeetings u rows i acc = Ok (acc ++ ms)
               /\ Forall2
                    (fun tr m =>
                       time_Parse (TrimSpace (tr_time tr)) = Ok (Date (Event m))
                       /\ Note (Event m) = TrimSpace (tr_strong tr)
                       /\ Type_ m = TrimSpace (tr_type tr)
                       /\ Meeting_URL m "agenda" = abs u (tr_agenda_href tr)
                       /\ Meeting_URL m "minutes" = abs u (tr_minutes_href tr)
                       /\ Meeting_URL m "video" = abs u (tr_video_href tr)
                       /\ Forall (fun x => URL x <> "") (URLs m)
                       /\ ID m = meetingID (abs u (tr_agenda_href tr))
                       /\ (tr_agenda_href tr = "" ->
                           ID m = "" /\ Meeting_URL m "agenda" = ""))
                    rows ms).
  { induction rows as [|tr rows IH]; intros i acc Hd.
    - exists []. split; [cbn; rewrite app_nil_r; reflexivity|constructor].
    - inversion Hd as [|? ? [t Ht] Hd']; subst.
      cbn [Halifax.listingMeetings]. rewrite Ht.
      destruct (IH (S i) (acc ++ [{| ID := meetingID (urls u tr "agenda");
                                     Type_ := TrimSpace (tr_type tr);
                                     Event := {| Date := t;
                                                 Note := TrimSpace (tr_strong tr) |};
                                     URLs := rowURLs u tr (range_order i) |}]) Hd')
        as (ms & Hms & Hall).
      eexists (_ :: ms). split; [rewrite Hms, <- app_assoc; reflexivity|].
      constructor; [|exact Hall].
      assert (Ha : Meeting_URL
                     {| ID := meetingID (urls u tr "agenda");
                        Type_ := TrimSpace (tr_type tr);
                        Event := {| Date := t; Note := TrimSpace (tr_strong tr) |};
                        URLs := rowURLs u tr (range_order i) |} "agenda"
                   = abs u (tr_agenda_href tr)).
      { apply (rowURLs_lookup u tr "agenda" (range_order i)).
        apply Horder. cbn. auto. }
      cbn [Event Date Note Type_ ID URLs].
      split; [exact Ht|]. split; [reflexivity|]. split; [reflexivity|].
      split; [exact Ha|].
      split.
      { apply (rowURLs_lookup u tr "minutes" (range_order i)).
        apply Horder. cbn. auto. }
      split.
      { apply (rowURLs_lookup u tr "video" (range_order i)).
        apply Horder. cbn. auto. }
      split; [apply rowURLs_not_empty; constructor|].
      split; [reflexivity|].
      intros Hno. rewrite Ha. unfold Halifax.urls. cbn [String.eqb Ascii.eqb].
      rewrite Hno. split; reflexivity. }
  destruct (Hrows (li_rows doc) 0%nat [] Hdates) as (ms & Hms & Hall).
  exists ms. split; [|exact Hall].
  unfold Halifax.Client_List. fold u. rewrite Hurl, Hget, Hstatus, Hbody.
  cbn [Z.eqb Pos.eqb negb bind]. rewrite Hdoc.
  apply Nat.eqb_neq in Htable. rewrite Htable, Hms. reflexivity.
Qed.

Lemma listingMeetings_bad_date (u : string) (before : list ListingRow)
  (tr : ListingRow) (after : list ListingRow) (e : error) :
  Forall (fun tr => exists t, time_Parse (TrimSpace (tr_time tr)) = Ok t) before ->
  time_Parse (TrimSpace (tr_time tr)) = Err e ->
  forall i acc,
  listingMeetings u (before ++ tr :: after) i acc
  = Err ("bad meeting date format: " ++ TrimSpace (tr_time tr))%string.
Proof.
  intros Hb Hbad. induction before as [|x before IH]; intros i acc.
  - cbn [app Halifax.listingMeetings]. rewrite Hbad. reflexivity.
  - inversion Hb as [|? ? [t Ht] Hb']; subst.
    cbn [app Halifax.listingMeetings]. rewrite Ht. apply IH. exact Hb'.
Qed.

(** X24. One row whose date is not of the form "January 2, 2006" makes
    [Client.List] fail for the whole page: the error quotes the text
    of the cell, and the meetings of the rows before it are not
    returned. *)
Theorem Client_List_bad_date (token : string) (resp : Response) (b : string)
  (doc : Listing) (before : list ListingRow) (tr : ListingRow)
  (after : list ListingRow) (e : error)
  (Hurl : url_Parse (pageURL token) = None)
  (Hget : get (pageURL token) = Responded resp)
  (Hstatus : StatusCode resp = 200)
  (Hbody : Body resp = Ok b)
  (Hdoc : NewDocumentFromReader b = Ok doc)
  (Htable : li_tables doc <> 0%nat)
  (Hrows : li_rows doc = before ++ tr :: after)
  (Hdates : Forall (fun tr => exists t, time_Parse (TrimSpace (tr_time tr)) = Ok t)
              before)
  (Hbad : time_Parse (TrimSpace (tr_time tr)) = Err e) :
  Client_List token
  = ([HTTPRequest "GET" (pageURL token)],
     Err ("bad meeting date format: " ++ TrimSpace (tr_time tr))%string).
Proof.
  unfold Halifax.Client_List. rewrite Hurl, Hget, Hstatus, Hbody.
  cbn [Z.eqb Pos.eqb negb bind]. rewrite Hdoc.
  apply Nat.eqb_neq in Htable. rewrite Htable, Hrows.
  rewrite (listingMeetings_bad_date _ before tr after e Hdates Hbad).
  reflexivity.
Qed.

End WithNetwork.

Local Abbreviation listing_List :=
  (Client_List listing_get listing_url_Parse listing_resolve listing_parse
     trim_ascii listing_time listing_order).

Lemma Client_List_page_witness :
  exists meetings,
    listing_List ""
    = ([HTTPRequest "GET" firstPage],
       Ok (meetings, "https://www.halifax.ca?page=1"))
    /\ map ID meetings = ["regional-council/may-7-2024"; ""]
    /\ map (fun m => Meeting_URL m "minutes") meetings
       = ["https://www.halifax.ca/media/minutes.pdf"; ""].
Proof.
  pose proof (Client_List_page listing_get listing_url_Parse listing_resolve
                listing_parse trim_ascii listing_time listing_order
                "" _ "<html>" listing eq_refl eq_refl eq_refl eq_refl eq_refl
                ltac:(discriminate)) as H.
  cbv zeta in H. destruct H as (_ & _ & meetings & Hl & Hall).
  - repeat constructor; eexists; vm_compute; reflexivity.
  - intros i k Hk. unfold listing_order.
    destruct (Nat.even i); cbn in *; tauto.
  - exists meetings. split; [exact Hl|].
    vm_compute in Hl. inversion Hl. split; reflexivity.
Defined.

Lemma Client_List_bad_date_witness :
  Client_List listing_get listing_url_Parse listing_resolve
    listing_parse_undated trim_ascii listing_time listing_order
    "https://www.halifax.ca/city-hall/agendas-meetings-reports?page=3"
  = ([HTTPRequest "GET"
        "https://www.halifax.ca/city-hall/agendas-meetings-reports?page=3"],
     Err "bad meeting date format: TBD").
Proof.
  apply (Client_List_bad_date listing_get listing_url_Parse listing_resolve
           listing_parse_undated trim_ascii listing_time listing_order
           "https://www.halifax.ca/city-hall/agendas-meetings-reports?page=3"
           _ "<html>" listing_undated listing_rows
           {| tr_time := "TBD"; tr_strong := ""; tr_type := "Budget Committee";
              tr_agenda_href := ""; tr_minutes_href := "";
              tr_video_href := "" |} [] "cannot parse"
           eq_refl eq_refl eq_refl eq_refl eq_refl ltac:(discriminate) eq_refl).
  - repeat constructor; eexists; vm_compute; reflexivity.
  - reflexivity.
Defined.

End HalifaxFacts.

